(** * Debug-trace endpoints of the JSON-RPC service (jsonrpc/endpoints_debug.go)

    A shallow embedding of the trace formatter [buildStructLogs], the tracer
    check, the single-transaction and block resolvers and the batch
    scatter-gather of [TraceBatchByNumber], with the properties the
    design document states about them. *)

From Stdlib Require Import ZArith NArith List String Ascii Lia.
From Stdlib.Strings Require Import Byte.
From stdpp Require Import base tactics numbers option list strings
  countable vector gmap fin_maps pretty.

Set Default Proof Using "Type".

(** ** Go runtime values *)

(** A run-time panic; the formatter has no [recover]. *)
Inductive panic : Type :=
| PanicSliceBounds (high capacity : nat)  (* slice bounds out of range [:high] with capacity *)
| PanicMemorySet (offset size length : nat) (* write outside the memory image *)
| PanicNilDereference.

Inductive result (A : Type) : Type :=
| Ok (a : A)
| Panic (p : panic).
Arguments Ok {A} a.
Arguments Panic {A} p.

Global Instance result_ret : MRet result := fun _ a => Ok a.
Global Instance result_bind : MBind result := fun _ _ f m =>
  match m with
  | Ok a => f a
  | Panic p => Panic p
  end.

Global Instance byte_eq_dec : EqDecision byte := Byte.byte_eq_dec.

Global Instance byte_countable : Countable byte.
Proof.
  refine (inj_countable' Byte.to_N (fun n => default Byte.x00 (Byte.of_N n)) _).
  intros b. by rewrite Byte.of_to_N.
Defined.

(** [copy(dst, src)]: the first [min (len dst) (len src)] bytes of [dst] are
    overwritten, the length of [dst] stays. *)
Definition copy (dst src : list byte) : list byte :=
  take (length dst) src ++ drop (length src) dst.

(** A [[]byte] value. Go checks the upper bound of a slice expression against
    the capacity, so the bytes of the backing array that lie between the
    length and the capacity are part of the value. *)
Module slice.
Record t : Type := mk { elems : list byte; spare : list byte }.

Definition len (s : t) : nat := length (elems s).
Definition cap (s : t) : nat := length (elems s) + length (spare s).

(** [s[low:high]], read as a byte sequence. *)
Definition sub (s : t) (low high : nat) : result (list byte) :=
  if decide (high ≤ cap s) then
    if decide (low ≤ high) then
      Ok (take (high - low) (drop low (elems s ++ spare s)))
    else Panic (PanicSliceBounds high low)
  else Panic (PanicSliceBounds high (cap s)).
End slice.

(** The allocator decides how much room it leaves behind a buffer; the
    language only promises the capacity is at least the length. *)
Class GoRuntime : Type := { spareCapacity : nat → nat }.

(** ** encoding/hex *)
Module hex.
Definition hextable : string := "0123456789abcdef".

Definition digit (n : N) : ascii :=
  default "0"%char (String.get (N.to_nat n) hextable).

Definition encodeByte (v : byte) (rest : string) : string :=
  String (digit (N.shiftr (Byte.to_N v) 4))
    (String (digit (N.land (Byte.to_N v) 15)) rest).

Definition EncodeToString (src : list byte) : string :=
  foldr encodeByte "" src.
End hex.

(** ** fakevm.Memory *)
Module fakevm.
(** Modelled from the spec: the MemoryImage of package state/runtime/fakevm,
    which lies outside endpoints_debug.go: a growable, zero-initialised
    byte buffer. *)
Record Memory : Type := mkMemory { store : list byte }.

(** Modelled from the spec: [NewMemory], a fresh empty image. *)
Definition NewMemory : Memory := mkMemory [].

(** Modelled from the spec: the declared length of the image. *)
Definition Len (m : Memory) : nat := length (store m).

(** Modelled from the spec: [Resize] sets the length to [size], filling the
    newly exposed bytes with zeros and truncating when [size] is smaller;
    the overlapping prefix keeps its content. *)
Definition Resize (m : Memory) (size : N) : Memory :=
  let n := N.to_nat size in
  if decide (Len m < n)
  then mkMemory (store m ++ replicate (n - Len m) Byte.x00)
  else mkMemory (take n (store m)).

(** Modelled from the spec: [Set] (a keyword here, hence the name) copies
    [size] bytes of [value] to [offset, offset+size); the buffer must be
    large enough already, and a call that breaks this is fatal. *)
Definition Set_ (m : Memory) (offset size : N) (value : list byte) : result Memory :=
  let o := N.to_nat offset in
  let n := N.to_nat size in
  if decide (o + n ≤ Len m) then
    Ok (mkMemory (take o (store m)
                  ++ copy (take n (drop o (store m))) value
                  ++ drop (o + n) (store m)))
  else Panic (PanicMemorySet o n (Len m)).

(** Modelled from the spec: [Data], the current content. The slice has the
    declared length; the room the allocator left behind it holds zeros. *)
Definition Data `{GoRuntime} (m : Memory) : slice.t :=
  slice.mk (store m) (replicate (spareCapacity (Len m)) Byte.x00).
End fakevm.

(** ** Data of the trace endpoints *)

(** [common.Hash]: 32 bytes. *)
Module common.
Definition HashLength : nat := 32.
Definition Hash : Type := vec byte HashLength.
Definition Bytes (h : Hash) : list byte := vec_to_list h.
Definition Bytes2Hex (d : list byte) : string := hex.EncodeToString d.
(** [Hash.String]: the hex encoding behind "0x". *)
Definition String (h : Hash) : string := "0x" +:+ hex.EncodeToString (Bytes h).
End common.

(** [uint64(x)] of an [int]. *)
Definition uint64 (x : Z) : N := Z.to_N (x mod 2 ^ 64).

(** [instrumentation.StructLog], one raw execution step. [Stack] holds
    [*big.Int], so an entry may be nil; [Err] is nil or an error, kept by the
    text its [Error()] gives. *)
Module instrumentation.
Record StructLog : Type := mkStructLog {
  Pc : N;
  Op : string;
  Gas : N;
  GasCost : N;
  Memory : list byte;
  MemorySize : Z;
  MemoryOffset : Z;
  Stack : list (option Z);
  ReturnData : list byte;
  Storage : gmap common.Hash common.Hash;
  Depth : Z;
  RefundCounter : N;
  Err : option string
}.
End instrumentation.

Record traceConfig : Type := mkTraceConfig {
  DisableStorage : bool;
  DisableStack : bool;
  EnableMemory : bool;
  EnableReturnData : bool;
  Tracer : option string;
  TracerConfig : list byte
}.

Definition defaultTraceConfig : traceConfig :=
  {| DisableStorage := false; DisableStack := false; EnableMemory := false;
     EnableReturnData := false; Tracer := None; TracerConfig := [] |}.

(** [StructLogRes]; the three pointer fields are [None] when nil, which is
    when [omitempty] leaves them out. *)
Record StructLogRes : Type := mkStructLogRes {
  Pc : N;
  Op : string;
  Gas : N;
  GasCost : N;
  Depth : Z;
  Error : string;
  Stack : option (list Z);
  Memory : option (list string);
  Storage : option (gmap string string);
  RefundCounter : N
}.

(** ** buildStructLogs *)

Definition memoryChunkSize : nat := 32.

(** The loop [for i := 0; i < len(structLog.Memory); i = i + memoryChunkSize].
    [fuel] bounds the number of rounds; [len(structLog.Memory)] is enough,
    see [memoryArrayLoop_fuel]. *)
Fixpoint memoryArrayLoop (fuel : nat) (Memory : slice.t) (i : nat)
    (memoryArray : list string) : result (list string) :=
  if decide (i < slice.len Memory) then
    match fuel with
    | O => Ok memoryArray
    | S fuel =>
        chunk ← slice.sub Memory i (i + memoryChunkSize);
        let slice32Bytes := copy (replicate memoryChunkSize Byte.x00) chunk in
        let memoryStringItem := hex.EncodeToString slice32Bytes in
        memoryArrayLoop fuel Memory (i + memoryChunkSize)
          (memoryArray ++ [memoryStringItem])
    end
  else Ok memoryArray.

(** Lines 370-396: the memory image is brought to the reported size, the
    step's write is applied, and the snapshot is cut into chunks; a step
    that reports no memory starts a new image. *)
Definition stepMemory `{GoRuntime} (memory : fakevm.Memory)
    (structLog : instrumentation.StructLog)
    : result (fakevm.Memory * list string) :=
  let memory := fakevm.Resize memory (uint64 (instrumentation.MemorySize structLog)) in
  memory ←
    (if decide (0 < length (instrumentation.Memory structLog)) then
       fakevm.Set_ memory (uint64 (instrumentation.MemoryOffset structLog))
         (N.of_nat (length (instrumentation.Memory structLog)))
         (instrumentation.Memory structLog)
     else Ok memory);
  if decide (0 < instrumentation.MemorySize structLog)%Z then
    let Memory' := fakevm.Data memory in
    memoryArray ← memoryArrayLoop (slice.len Memory') Memory' 0 [];
    Ok (memory, memoryArray)
  else Ok (fakevm.NewMemory, []).

(** Lines 398-406. Go ranges over the map in no fixed order; the keys stay
    distinct under hex encoding, so the order does not show
    (see [storageToHex_order]). *)
Definition storageToHex (Storage : gmap common.Hash common.Hash) : gmap string string :=
  map_fold (fun storageKey storageValue storage =>
              let k := hex.EncodeToString (common.Bytes storageKey) in
              let v := hex.EncodeToString (common.Bytes storageValue) in
              <[k := v]> storage) ∅ Storage.

(** Lines 341-348: [None] stands for [continue]. *)
Definition stepOp (structLog : instrumentation.StructLog) : option string :=
  let op := instrumentation.Op structLog in
  if decide (op = "SHA3") then Some "KECCAK256"
  else if decide (op = "STOP" ∧ instrumentation.Pc structLog = 0%N) then None
  else Some op.

(** One round of the loop over [stateStructLogs]; the state carried from
    round to round is the output so far and the memory image. *)
Definition buildStructLogs_step `{GoRuntime} (cfg : traceConfig)
    (acc : list StructLogRes * fakevm.Memory)
    (structLog : instrumentation.StructLog)
    : result (list StructLogRes * fakevm.Memory) :=
  let '(structLogs, memory) := acc in
  let errRes := default "" (instrumentation.Err structLog) in
  match stepOp structLog with
  | None => Ok (structLogs, memory)
  | Some op =>
      let stack :=
        if DisableStack cfg then None
        else Some (omap id (instrumentation.Stack structLog)) in
      '(memory, memoryField) ←
        (if EnableMemory cfg then
           '(memory, memoryArray) ← stepMemory memory structLog;
           Ok (memory, Some memoryArray)
         else Ok (memory, None));
      let storage :=
        if negb (DisableStorage cfg)
           && bool_decide (0 < size (instrumentation.Storage structLog))
        then Some (storageToHex (instrumentation.Storage structLog))
        else None in
      let structLogRes :=
        {| Pc := instrumentation.Pc structLog;
           Op := op;
           Gas := instrumentation.Gas structLog;
           GasCost := instrumentation.GasCost structLog;
           Depth := instrumentation.Depth structLog;
           Error := errRes;
           Stack := stack;
           Memory := memoryField;
           Storage := storage;
           RefundCounter := instrumentation.RefundCounter structLog |} in
      Ok (structLogs ++ [structLogRes], memory)
  end.

Fixpoint buildStructLogs_loop `{GoRuntime} (cfg : traceConfig)
    (stateStructLogs : list instrumentation.StructLog)
    (acc : list StructLogRes * fakevm.Memory)
    : result (list StructLogRes * fakevm.Memory) :=
  match stateStructLogs with
  | [] => Ok acc
  | structLog :: rest =>
      acc ← buildStructLogs_step cfg acc structLog;
      buildStructLogs_loop cfg rest acc
  end.

Definition buildStructLogs `{GoRuntime}
    (stateStructLogs : list instrumentation.StructLog) (cfg : traceConfig)
    : result (list StructLogRes) :=
  '(structLogs, _) ← buildStructLogs_loop cfg stateStructLogs ([], fakevm.NewMemory);
  Ok structLogs.

(** ** isBuiltInTracer, isJSCustomTracer *)

(** [strings.Contains]. *)
Fixpoint strings_Contains (s substr : string) : bool :=
  String.prefix substr s
  || match s with
     | EmptyString => false
     | String _ s' => strings_Contains s' substr
     end.

Definition isBuiltInTracer (tracer : string) : bool :=
  if decide (tracer = "callTracer" ∨ tracer = "4byteTracer"
             ∨ tracer = "prestateTracer" ∨ tracer = "noopTracer")
  then true else false.

Definition isJSCustomTracer (tracer : string) : bool :=
  strings_Contains tracer "result" && strings_Contains tracer "fault".

(** ** Errors and collaborators *)

(** A Go [error] value: the sentinel [state.ErrNotFound], some other error,
    or an error that wraps another one. *)
Inductive error : Type :=
| ErrNotFound
| ErrorString (text : string)
| ErrorWrap (text : string) (err : error).

(** [errors.Is(err, state.ErrNotFound)] on an [error] that may be nil. *)
Fixpoint unwrapsToNotFound (err : error) : bool :=
  match err with
  | ErrNotFound => true
  | ErrorString _ => false
  | ErrorWrap _ err => unwrapsToNotFound err
  end.

Definition errors_Is_ErrNotFound (err : option error) : bool :=
  match err with
  | Some e => unwrapsToNotFound e
  | None => false
  end.

(** [err == state.ErrNotFound]. *)
Definition isErrNotFound (err : option error) : bool :=
  match err with
  | Some ErrNotFound => true
  | _ => false
  end.

(** Package jsonrpc/types, as far as this file uses it. *)
Module types.
(** The one error code the file uses. *)
Inductive ErrorCode : Type := DefaultErrorCode.

Record RPCError : Type := NewRPCError { code : ErrorCode; message : string }.

(** The error object of a JSON-RPC answer. *)
Record ErrorObject : Type := mkErrorObject { Code : Z; Message : string }.

(** [types.Response]: [Error] is a pointer, nil when the call went well. *)
Record Response : Type := mkResponse {
  Result : list byte;
  Error : option ErrorObject
}.

Definition BlockNumber : Type := Z.
Definition BatchNumber : Type := Z.
End types.

Module ethTypes.
Definition ReceiptStatusFailed : N := 0.
Record Transaction : Type := mkTransaction { Hash : common.Hash }.
Record Receipt : Type := mkReceipt { TxHash : common.Hash; Status : N }.
Record Block : Type := mkBlock { Transactions : list Transaction }.
End ethTypes.

Module state.
Record TraceConfig : Type := mkTraceConfig {
  DisableStack : bool;
  DisableStorage : bool;
  EnableMemory : bool;
  EnableReturnData : bool;
  Tracer : option string;
  TracerConfig : list byte
}.

Record Batch : Type := mkBatch { BatchNumber : N }.

(** What [DebugTransaction] hands back. *)
Record ExecutionResult : Type := mkExecutionResult {
  ReturnValue : list byte;
  GasUsed : N;
  StructLogs : list instrumentation.StructLog;
  ExecutorTraceResult : list byte
}.
End state.

(** The requests the endpoints send to their collaborators, in the order
    they are sent. Log lines are left out: nothing reads them back. *)
Inductive call : Type :=
| CallGetNumericBlockNumber (number : types.BlockNumber)
| CallGetNumericBatchNumber (number : types.BatchNumber)
| CallGetL2BlockByNumber (blockNumber : N)
| CallGetL2BlockByHash (hash : common.Hash)
| CallGetBatchByNumber (batchNumber : N)
| CallGetTransactionsByBatchNumber (batchNumber : N)
| CallGetTransactionReceipt (hash : common.Hash)
| CallDebugTransaction (hash : common.Hash) (cfg : state.TraceConfig)
| CallJSONRPC (url method txHash : string) (cfg : option traceConfig).

(** [types.StateInterface], the part used here. A Go pair (pointer, error)
    is a pair of options; the context and the database transaction every
    method takes are left out. The two numeric resolvers are methods of
    [types.BlockNumber] and [types.BatchNumber] that read the state. *)
Class StateInterface : Type := {
  GetNumericBlockNumber : types.BlockNumber → N * option types.RPCError;
  GetNumericBatchNumber : types.BatchNumber → N * option types.RPCError;
  GetL2BlockByNumber : N → option ethTypes.Block * option error;
  GetL2BlockByHash : common.Hash → option ethTypes.Block * option error;
  GetBatchByNumber : N → option state.Batch * option error;
  GetTransactionsByBatchNumber : N → list ethTypes.Transaction * option error;
  GetTransactionReceipt : common.Hash → option ethTypes.Receipt * option error;
  DebugTransaction :
    common.Hash → state.TraceConfig → option state.ExecutionResult * option error
}.

(** A computation of an endpoint: the requests it sent, and its value unless
    it panicked. *)
Definition M (A : Type) : Type := list call * result A.

Global Instance M_ret : MRet M := fun _ a => ([], Ok a).
Global Instance M_bind : MBind M := fun _ _ f m =>
  match m with
  | (calls, Ok a) => let '(calls', r) := f a in (calls ++ calls', r)
  | (calls, Panic p) => (calls, Panic p)
  end.

Definition request {A : Type} (c : call) (answer : A) : M A := ([c], Ok answer).
Definition lift {A : Type} (r : result A) : M A := ([], r).

(** Following a pointer. *)
Definition deref {A : Type} (p : option A) : M A :=
  match p with
  | Some a => mret a
  | None => lift (Panic PanicNilDereference)
  end.

(** What an endpoint returns: [(interface{}, types.Error)], either of which
    may be nil. *)
Definition response (A : Type) : Type := option A * option types.RPCError.

(** Modelled from the spec: [rpcErrorResponse], declared elsewhere in package
    jsonrpc. It logs the message with the cause and gives back no value and
    an error with the given code and message; the cause stays in the log. *)
Definition rpcErrorResponse {A : Type} (code : types.ErrorCode) (message : string)
    (err : option error) : M (response A) :=
  mret (None, Some (types.NewRPCError code message)).

(** Modelled from the spec: [txMan.NewDbTxScope], the database-transaction
    scope around every endpoint; it runs the scoped function and returns what
    that returns. *)
Definition NewDbTxScope {A : Type} (scopedFn : M (response A)) : M (response A) :=
  scopedFn.

(** ** buildTraceTransaction *)

Record traceTransactionResponse : Type := mkTraceTransactionResponse {
  tr_Gas : N;
  tr_Failed : bool;
  tr_ReturnValue : option string;
  tr_StructLogs : list StructLogRes
}.

(** The values [buildTraceTransaction] returns behind [interface{}]. *)
Inductive traceResult : Type :=
| ExecutorTrace (raw : list byte)
| TransactionTrace (resp : traceTransactionResponse).

Record traceBlockTransactionResponse : Type :=
  mkTraceBlockTransactionResponse { tb_Result : option traceResult }.

Record traceBatchTransactionResponse : Type :=
  mkTraceBatchTransactionResponse { bt_TxHash : common.Hash; bt_Result : list byte }.

(** Line 281: the tracer named by the request is refused. *)
Definition tracerRefused (traceCfg : traceConfig) : bool :=
  match Tracer traceCfg with
  | Some tracer =>
      negb (String.eqb tracer "") && negb (isBuiltInTracer tracer)
      && negb (isJSCustomTracer tracer)
  | None => false
  end.

Section Endpoints.
Context `{GoRuntime} `{StateInterface}.

Definition buildTraceTransaction (hash : common.Hash) (cfg : option traceConfig)
    : M (response traceResult) :=
  let traceCfg := default defaultTraceConfig cfg in
  if tracerRefused traceCfg then
    rpcErrorResponse types.DefaultErrorCode "invalid tracer" None
  else
    let stateTraceConfig :=
      {| state.DisableStack := DisableStack traceCfg;
         state.DisableStorage := DisableStorage traceCfg;
         state.EnableMemory := EnableMemory traceCfg;
         state.EnableReturnData := EnableReturnData traceCfg;
         state.Tracer := Tracer traceCfg;
         state.TracerConfig := TracerConfig traceCfg |} in
    '(result, err) ← request (CallDebugTransaction hash stateTraceConfig)
                       (DebugTransaction hash stateTraceConfig);
    if errors_Is_ErrNotFound err then
      rpcErrorResponse types.DefaultErrorCode "transaction not found" None
    else if bool_decide (err ≠ None) then
      mret (None, Some (types.NewRPCError types.DefaultErrorCode "failed to get trace"))
    else
      executorTrace ←
        match state.Tracer stateTraceConfig with
        | Some tracer =>
            if negb (String.eqb tracer "") then
              result ← deref result;
              if bool_decide (0 < length (state.ExecutorTraceResult result))
              then mret (Some (state.ExecutorTraceResult result))
              else mret None
            else mret None
        | None => mret None
        end;
      match executorTrace with
      | Some raw => mret (Some (ExecutorTrace raw), None)
      | None =>
        '(receipt, err) ← request (CallGetTransactionReceipt hash)
                            (GetTransactionReceipt hash);
        if bool_decide (err ≠ None) then
          mret (None, Some (types.NewRPCError types.DefaultErrorCode "failed to tx receipt"))
        else
          receipt ← deref receipt;
          result ← deref result;
          let failed :=
            bool_decide (ethTypes.Status receipt = ethTypes.ReceiptStatusFailed) in
          let returnValue :=
            if state.EnableReturnData stateTraceConfig
            then Some (common.Bytes2Hex (state.ReturnValue result))
            else None in
          structLogs ← lift (buildStructLogs (state.StructLogs result) traceCfg);
          let resp :=
            {| tr_Gas := state.GasUsed result;
               tr_Failed := failed;
               tr_ReturnValue := returnValue;
               tr_StructLogs := structLogs |} in
          mret (Some (TransactionTrace resp), None)
      end.

(** ** buildTraceBlock *)

Fixpoint buildTraceBlock_loop (txs : list ethTypes.Transaction)
    (cfg : option traceConfig) (traces : list traceBlockTransactionResponse)
    : M (response (list traceBlockTransactionResponse)) :=
  match txs with
  | [] => mret (Some traces, None)
  | tx :: txs =>
      '(traceTransaction, err) ← buildTraceTransaction (ethTypes.Hash tx) cfg;
      match err with
      | Some e =>
          let errMsg := "failed to get trace for transaction "
                        +:+ common.String (ethTypes.Hash tx) in
          rpcErrorResponse types.DefaultErrorCode errMsg
            (Some (ErrorString (types.message e)))
      | None =>
          let traceBlockTransaction := {| tb_Result := traceTransaction |} in
          buildTraceBlock_loop txs cfg (traces ++ [traceBlockTransaction])
      end
  end.

Definition buildTraceBlock (txs : list ethTypes.Transaction) (cfg : option traceConfig)
    : M (response (list traceBlockTransactionResponse)) :=
  buildTraceBlock_loop txs cfg [].

(** ** TraceTransaction, TraceBlockByNumber, TraceBlockByHash *)

Definition TraceTransaction (hash : common.Hash) (cfg : option traceConfig)
    : M (response traceResult) :=
  NewDbTxScope (buildTraceTransaction hash cfg).

Definition TraceBlockByNumber (number : types.BlockNumber) (cfg : option traceConfig)
    : M (response (list traceBlockTransactionResponse)) :=
  NewDbTxScope (
    '(blockNumber, rpcErr) ← request (CallGetNumericBlockNumber number)
                               (GetNumericBlockNumber number);
    match rpcErr with
    | Some e => mret (None, Some e)
    | None =>
        '(block, err) ← request (CallGetL2BlockByNumber blockNumber)
                          (GetL2BlockByNumber blockNumber);
        if errors_Is_ErrNotFound err then
          mret (None, Some (types.NewRPCError types.DefaultErrorCode
                              ("block #" +:+ pretty blockNumber +:+ " not found")))
        else if isErrNotFound err then
          rpcErrorResponse types.DefaultErrorCode "failed to get block by number" err
        else
          block ← deref block;
          '(traces, rpcErr) ← buildTraceBlock (ethTypes.Transactions block) cfg;
          if bool_decide (err ≠ None) then mret (None, rpcErr)
          else mret (traces, None)
    end).

Definition TraceBlockByHash (hash : common.Hash) (cfg : option traceConfig)
    : M (response (list traceBlockTransactionResponse)) :=
  NewDbTxScope (
    '(block, err) ← request (CallGetL2BlockByHash hash) (GetL2BlockByHash hash);
    if errors_Is_ErrNotFound err then
      mret (None, Some (types.NewRPCError types.DefaultErrorCode
                          ("block " +:+ common.String hash +:+ " not found")))
    else if isErrNotFound err then
      rpcErrorResponse types.DefaultErrorCode "failed to get block by hash" err
    else
      block ← deref block;
      '(traces, rpcErr) ← buildTraceBlock (ethTypes.Transactions block) cfg;
      if bool_decide (err ≠ None) then mret (None, rpcErr)
      else mret (traces, None)).
End Endpoints.

(** ** TraceBatchByNumber *)

Module url.
(** [url.URL]; the fields the endpoint does not set stay empty. *)
Record URL : Type := mkURL { Scheme : string; Host : string; Path : string }.
End url.

Module http.
Record Request : Type := mkRequest { Host : string; URL : url.URL }.
End http.

(** [URL.String] of net/url. *)
Class NetURL : Type := { URL_String : url.URL → string }.

(** [client.JSONRPCCall(url, method, params...)]: what the server behind
    [url] answers. *)
Class RemoteClient : Type := {
  JSONRPCCall : string → string → string → option traceConfig
                → types.Response * option error
}.

(** [time.Duration] counts nanoseconds. *)
Definition Minute : N := 60 * 1000000000.
Definition timeout : N := 10 * Minute.
Definition bufferSize : nat := 10.

(** Lines 158-168. *)
Definition rpcURL `{NetURL} (httpRequest : http.Request) : string :=
  let scheme :=
    if bool_decide (url.Scheme (http.URL httpRequest) ≠ "")
    then url.Scheme (http.URL httpRequest)
    else "https" in
  let u := {| url.Scheme := scheme;
              url.Host := http.Host httpRequest;
              url.Path := url.Path (http.URL httpRequest) |} in
  URL_String u.

(** Where the sequential part of the endpoint ends: with an answer, or with
    the receipts to fan out. *)
Inductive prepared : Type :=
| EarlyReturn (out : response (list traceBatchTransactionResponse))
| Gather (batchNumber : N) (receipts : list ethTypes.Receipt).

Section Batch.
Context `{StateInterface}.

(** Lines 188-195. *)
Fixpoint loadReceipts (batchNumber : N) (txs : list ethTypes.Transaction)
    (receipts : list ethTypes.Receipt) : M prepared :=
  match txs with
  | [] => mret (Gather batchNumber receipts)
  | tx :: txs =>
      '(receipt, err) ← request (CallGetTransactionReceipt (ethTypes.Hash tx))
                          (GetTransactionReceipt (ethTypes.Hash tx));
      if bool_decide (err ≠ None) then
        out ← rpcErrorResponse types.DefaultErrorCode
                ("couldn't load receipt for tx "
                 +:+ common.String (ethTypes.Hash tx) +:+ " to get trace") err;
        mret (EarlyReturn out)
      else
        receipt ← deref receipt;
        loadReceipts batchNumber txs (receipts ++ [receipt])
  end.

(** Lines 171-195. *)
Definition TraceBatchByNumber_prepare (number : types.BatchNumber) : M prepared :=
  '(batchNumber, rpcErr) ← request (CallGetNumericBatchNumber number)
                             (GetNumericBatchNumber number);
  match rpcErr with
  | Some e => mret (EarlyReturn (None, Some e))
  | None =>
      '(batch, err) ← request (CallGetBatchByNumber batchNumber)
                        (GetBatchByNumber batchNumber);
      if errors_Is_ErrNotFound err then
        mret (EarlyReturn
                (None, Some (types.NewRPCError types.DefaultErrorCode
                               ("batch #" +:+ pretty batchNumber +:+ " not found"))))
      else if isErrNotFound err then
        out ← rpcErrorResponse types.DefaultErrorCode "failed to get batch by number" err;
        mret (EarlyReturn out)
      else
        batch ← deref batch;
        '(txs, err) ← request (CallGetTransactionsByBatchNumber (state.BatchNumber batch))
                        (GetTransactionsByBatchNumber (state.BatchNumber batch));
        if negb (errors_Is_ErrNotFound err) && bool_decide (err ≠ None) then
          out ← rpcErrorResponse types.DefaultErrorCode
                  ("couldn't load batch txs from state by number "
                   +:+ pretty batchNumber +:+ " to create the traces") err;
          mret (EarlyReturn out)
        else loadReceipts batchNumber txs []
  end.
End Batch.

(** A goroutine running [loadTraceByTxHash]. *)
Inductive task : Type :=
| Calling (receipt : ethTypes.Receipt)
| Sending (resp : traceBatchTransactionResponse)
| Finishing.

(** The goroutine of the endpoint itself: filling the request queue, in the
    select of [waitTimeout] with the timer due at [timer], or back. *)
Inductive mainState : Type :=
| Enqueueing (todo : list ethTypes.Receipt)
| Waiting (timer : N)
| Returned (out : response (list traceBatchTransactionResponse)).

(** The goroutines and channels of lines 197-253. [requests] and
    [responses] are the contents of the two buffered channels, [wg] the
    counter of the wait group, [clock] the time in nanoseconds, [calls] the
    remote calls sent so far. *)
Record batchState : Type := mkBatchState {
  main : mainState;
  requests : list ethTypes.Receipt;
  tasks : list task;
  responses : list traceBatchTransactionResponse;
  wg : nat;
  clock : N;
  calls : list call
}.

Definition batchStart (receipts : list ethTypes.Receipt) (now : N) : batchState :=
  {| main := Enqueueing receipts; requests := []; tasks := []; responses := [];
     wg := length receipts; clock := now; calls := [] |}.

(** [waitTimeout(&wg, timeout)] returns false when the counter reached zero,
    true when the timer fired; with both ready the select takes either. *)
Inductive waitTimeout (s : batchState) : bool → Prop :=
| wait_completed : wg s = 0 → waitTimeout s false
| wait_timed_out timer :
    main s = Waiting timer → (timer ≤ clock s)%N → waitTimeout s true.

Section Gather.
Context `{RemoteClient}.
Variable rpcURL : string.
Variable cfg : option traceConfig.
Variable batchNumber : N.
(** The capacity of [responses]: [len(receipts)]. *)
Variable capacity : nat.

(** [loadTraceByTxHash] up to its send. *)
Definition loadTraceByTxHash (receipt : ethTypes.Receipt) : task :=
  let '(res, err) :=
    JSONRPCCall rpcURL "debug_traceTransaction"
                (common.String (ethTypes.TxHash receipt)) cfg in
  if bool_decide (err ≠ None) then Finishing
  else if bool_decide (types.Error res ≠ None) then Finishing
  else Sending {| bt_TxHash := ethTypes.TxHash receipt;
                  bt_Result := types.Result res |}.

(** Lines 241-253, once [waitTimeout] has returned. *)
Definition afterWait (timedOut : bool) (s : batchState)
    : response (list traceBatchTransactionResponse) :=
  if timedOut then
    (None, Some (types.NewRPCError types.DefaultErrorCode
                   ("failed to get traces for batch " +:+ pretty batchNumber
                    +:+ ": timeout reached")))
  else (Some (responses s), None).

(** One move of one goroutine, or of the clock. *)
Inductive step : batchState → batchState → Prop :=
| step_tick s d :
    step s {| main := main s; requests := requests s; tasks := tasks s;
              responses := responses s; wg := wg s;
              clock := (clock s + d)%N; calls := calls s |}
| step_enqueue s receipt todo :
    main s = Enqueueing (receipt :: todo) →
    length (requests s) < bufferSize →
    step s {| main := Enqueueing todo; requests := requests s ++ [receipt];
              tasks := tasks s; responses := responses s; wg := wg s;
              clock := clock s; calls := calls s |}
| step_wait s :
    main s = Enqueueing [] →
    step s {| main := Waiting (clock s + timeout)%N; requests := requests s;
              tasks := tasks s; responses := responses s; wg := wg s;
              clock := clock s; calls := calls s |}
| step_dispatch s req queue :
    requests s = req :: queue →
    step s {| main := main s; requests := queue;
              tasks := tasks s ++ [Calling req];
              responses := responses s; wg := wg s;
              clock := clock s; calls := calls s |}
| step_call s before receipt after :
    tasks s = before ++ Calling receipt :: after →
    step s {| main := main s; requests := requests s;
              tasks := before ++ loadTraceByTxHash receipt :: after;
              responses := responses s; wg := wg s; clock := clock s;
              calls := calls s ++
                [CallJSONRPC rpcURL "debug_traceTransaction"
                   (common.String (ethTypes.TxHash receipt)) cfg] |}
| step_send s before resp after :
    tasks s = before ++ Sending resp :: after →
    length (responses s) < capacity →
    step s {| main := main s; requests := requests s;
              tasks := before ++ Finishing :: after;
              responses := responses s ++ [resp]; wg := wg s;
              clock := clock s; calls := calls s |}
| step_done s before after :
    tasks s = before ++ Finishing :: after →
    0 < wg s →
    step s {| main := main s; requests := requests s;
              tasks := before ++ after;
              responses := responses s; wg := wg s - 1;
              clock := clock s; calls := calls s |}
| step_return s timer timedOut :
    main s = Waiting timer →
    waitTimeout s timedOut →
    step s {| main := Returned (afterWait timedOut s); requests := requests s;
              tasks := tasks s; responses := responses s; wg := wg s;
              clock := clock s; calls := calls s |}.
End Gather.

(** The endpoint: what it may return, with the requests sent by then. The
    whole of it runs inside the database-transaction scope, which hands its
    answer on. *)
Inductive TraceBatchByNumber `{StateInterface} `{RemoteClient} `{NetURL}
    (httpRequest : http.Request) (number : types.BatchNumber)
    (cfg : option traceConfig)
    : list call → result (response (list traceBatchTransactionResponse)) → Prop :=
| batch_early sent out :
    TraceBatchByNumber_prepare number = (sent, Ok (EarlyReturn out)) →
    TraceBatchByNumber httpRequest number cfg sent (Ok out)
| batch_panic sent p :
    TraceBatchByNumber_prepare number = (sent, Panic p) →
    TraceBatchByNumber httpRequest number cfg sent (Panic p)
| batch_gathered sent batchNumber receipts now s out :
    TraceBatchByNumber_prepare number = (sent, Ok (Gather batchNumber receipts)) →
    rtc (step (rpcURL httpRequest) cfg batchNumber (length receipts))
        (batchStart receipts now) s →
    main s = Returned out →
    TraceBatchByNumber httpRequest number cfg (sent ++ calls s) (Ok out).

(** ** Vocabulary of the properties *)

(** The number of 32-byte chunks a snapshot of [n] bytes is cut into. *)
Definition chunkCount (n : nat) : nat := (n + 31) / 32.

(** Chunk [k] as the loop reads it from the slice. *)
Definition chunkAt (s : slice.t) (k : nat) : string :=
  hex.EncodeToString (take 32 (drop (32 * k) (slice.elems s ++ slice.spare s))).

(** The bytes of chunk [k] of a snapshot: 32 bytes from [32 * k] on, with
    zeros behind a short tail. *)
Definition paddedChunk (content : list byte) (k : nat) : list byte :=
  take 32 (drop (32 * k) content ++ replicate 32 Byte.x00).

(** Reading hex digits back. *)
Definition hexval (c : ascii) : N :=
  let n := N_of_ascii c in
  if (n <? 58)%N then (n - 48)%N else (n - 87)%N.

Definition byte_of_digits (c1 c2 : ascii) : option byte :=
  Byte.of_N (16 * hexval c1 + hexval c2).

(** The hex text of a 32-byte word. *)
Definition hashHex (h : common.Hash) : string :=
  hex.EncodeToString (common.Bytes h).

(** A step whose write lies inside the memory size it reports. *)
Definition writeWithinSize (structLog : instrumentation.StructLog) : Prop :=
  (0 ≤ instrumentation.MemorySize structLog < 2 ^ 63)%Z ∧
  (0 < length (instrumentation.Memory structLog) →
   (0 ≤ instrumentation.MemoryOffset structLog)%Z ∧
   (instrumentation.MemoryOffset structLog
    + Z.of_nat (length (instrumentation.Memory structLog))
    ≤ instrumentation.MemorySize structLog)%Z).

(** The snapshot of the step can be cut into 32-byte chunks inside its
    capacity; always so when the size is a multiple of 32. *)
Definition chunkable `{GoRuntime} (structLog : instrumentation.StructLog) : Prop :=
  let n := Z.to_nat (instrumentation.MemorySize structLog) in
  32 * chunkCount n ≤ n + spareCapacity n.

Global Instance chunkable_dec `{GoRuntime} structLog : Decision (chunkable structLog).
Proof. unfold chunkable. apply _. Defined.

(** The steps the formatter leaves out: opcode STOP at program counter 0. *)
Definition dropped (structLog : instrumentation.StructLog) : Prop :=
  instrumentation.Op structLog = "STOP" ∧ instrumentation.Pc structLog = 0%N.

Global Instance dropped_dec structLog : Decision (dropped structLog).
Proof. unfold dropped. apply _. Defined.

(** The fields every entry carries, read off its step. *)
Definition entryOf (structLog : instrumentation.StructLog) (e : StructLogRes) : Prop :=
  Pc e = instrumentation.Pc structLog ∧
  Op e = (if decide (instrumentation.Op structLog = "SHA3") then "KECCAK256"
          else instrumentation.Op structLog) ∧
  Gas e = instrumentation.Gas structLog ∧
  GasCost e = instrumentation.GasCost structLog ∧
  Depth e = instrumentation.Depth structLog ∧
  Error e = default "" (instrumentation.Err structLog) ∧
  RefundCounter e = instrumentation.RefundCounter structLog.

(** The storage field of an entry (lines 398-406). *)
Definition storageField (cfg : traceConfig) (structLog : instrumentation.StructLog)
    : option (gmap string string) :=
  if negb (DisableStorage cfg)
     && bool_decide (0 < size (instrumentation.Storage structLog))
  then Some (storageToHex (instrumentation.Storage structLog))
  else None.

(** The stack field of an entry (lines 360-368): the entries of the raw stack
    that are not nil, in order. *)
Definition stackField (cfg : traceConfig) (structLog : instrumentation.StructLog)
    : option (list Z) :=
  if DisableStack cfg then None
  else Some (omap id (instrumentation.Stack structLog)).

(** What the entry of a kept step holds, its memory field apart. *)
Definition formatted (cfg : traceConfig) (structLog : instrumentation.StructLog)
    (e : StructLogRes) : Prop :=
  entryOf structLog e ∧ Storage e = storageField cfg structLog
  ∧ Stack e = stackField cfg structLog.

(** The storage field of entry [e] is there exactly when storage is not
    disabled and the step carries a write; it then holds the hex text of
    every pair of the step and nothing else. *)
Definition storageAsWritten (cfg : traceConfig) (structLog : instrumentation.StructLog)
    (e : StructLogRes) : Prop :=
  (is_Some (Storage e) ↔
     DisableStorage cfg = false ∧ instrumentation.Storage structLog ≠ ∅) ∧
  ∀ storage, Storage e = Some storage →
    storage ≠ ∅ ∧
    (∀ k v, storage !! hashHex k = Some (hashHex v)
            ↔ instrumentation.Storage structLog !! k = Some v) ∧
    (∀ x y, storage !! x = Some y →
            ∃ k v, x = hashHex k ∧ y = hashHex v ∧ String.length x = 64
                   ∧ String.length y = 64
                   ∧ instrumentation.Storage structLog !! k = Some v).

(** The memory size reported by the last step that was not left out. *)
Definition lastReportedSize (n0 : nat) (steps : list instrumentation.StructLog) : nat :=
  foldl (λ n s, if decide (dropped s) then n
                else Z.to_nat (instrumentation.MemorySize s)) n0 steps.

(** [sub] occurs in [s]. *)
Definition occursIn (sub s : string) : Prop := ∃ a b, s = a +:+ sub +:+ b.

(** The tracers the design document lets through. *)
Definition validTracer (tracer : option string) : Prop :=
  tracer = None ∨ tracer = Some "" ∨
  ∃ name, tracer = Some name ∧
    (name = "callTracer" ∨ name = "4byteTracer" ∨ name = "prestateTracer"
     ∨ name = "noopTracer" ∨ (occursIn "result" name ∧ occursIn "fault" name)).

(** The options handed to the state with a trace request (lines 285-292). *)
Definition stateConfigOf (traceCfg : traceConfig) : state.TraceConfig :=
  {| state.DisableStack := DisableStack traceCfg;
     state.DisableStorage := DisableStorage traceCfg;
     state.EnableMemory := EnableMemory traceCfg;
     state.EnableReturnData := EnableReturnData traceCfg;
     state.Tracer := Tracer traceCfg;
     state.TracerConfig := TracerConfig traceCfg |}.

(** The error [buildTraceBlock] gives for a transaction whose trace failed. *)
Definition blockTraceError (tx : ethTypes.Transaction) : types.RPCError :=
  types.NewRPCError types.DefaultErrorCode
    ("failed to get trace for transaction " +:+ common.String (ethTypes.Hash tx)).

(** The answer of the endpoint when the wait timed out. *)
Definition timeoutAnswer (batchNumber : N)
    : response (list traceBatchTransactionResponse) :=
  (None, Some (types.NewRPCError types.DefaultErrorCode
                 ("failed to get traces for batch " +:+ pretty batchNumber
                  +:+ ": timeout reached"))).

(** The receipts the endpoint has not yet put into the queue. *)
Definition notEnqueued (m : mainState) : list ethTypes.Receipt :=
  match m with
  | Enqueueing todo => todo
  | _ => []
  end.

(** A request to the state, not a remote call. *)
Definition stateCall (c : call) : Prop :=
  match c with
  | CallJSONRPC _ _ _ _ => False
  | _ => True
  end.

Section GatherVocabulary.
Context `{RemoteClient}.
Variable rpcURL : string.
Variable cfg : option traceConfig.
Variable batchNumber : N.

(** The pair a transaction adds to the answer: none when the remote call
    fails in transport or answers with an error. *)
Definition tracePair (receipt : ethTypes.Receipt)
    : option traceBatchTransactionResponse :=
  match JSONRPCCall rpcURL "debug_traceTransaction"
          (common.String (ethTypes.TxHash receipt)) cfg with
  | (res, None) =>
      match types.Error res with
      | None => Some {| bt_TxHash := ethTypes.TxHash receipt;
                        bt_Result := types.Result res |}
      | Some _ => None
      end
  | (_, Some _) => None
  end.

(** What a running task will still add to [responses]. *)
Definition taskYield (t : task) : list traceBatchTransactionResponse :=
  match t with
  | Calling receipt => option_list (tracePair receipt)
  | Sending resp => [resp]
  | Finishing => []
  end.

Definition remoteCall (c : call) : Prop :=
  ∃ txHash, c = CallJSONRPC rpcURL "debug_traceTransaction" txHash cfg.

Definition callOf (receipt : ethTypes.Receipt) : call :=
  CallJSONRPC rpcURL "debug_traceTransaction"
    (common.String (ethTypes.TxHash receipt)) cfg.

(** What holds of every state the goroutines can reach from the start. *)
Record gathering (receipts : list ethTypes.Receipt) (now : N) (s : batchState)
    : Prop := {
  g_wg : wg s = length (notEnqueued (main s)) + length (requests s)
                + length (tasks s);
  g_pairs : responses s ++ (tasks s ≫= taskYield)
            ++ omap tracePair (requests s ++ notEnqueued (main s))
            ≡ₚ omap tracePair receipts;
  g_returned : ∀ out, main s = Returned out →
               out = timeoutAnswer batchNumber
               ∨ ∃ traces, out = (Some traces, None)
                           ∧ traces ≡ₚ omap tracePair receipts;
  g_calls : Forall remoteCall (calls s);
  g_clock : (now ≤ clock s)%N;
  g_timer : ∀ timer, main s = Waiting timer → (now + timeout ≤ timer)%N
}.
End GatherVocabulary.

(** ** Sample inputs *)

(** An allocator that leaves no room behind a buffer. *)
Definition tightRuntime : GoRuntime := {| spareCapacity := λ _, 0 |}.

(** The size classes of Go's allocator for small objects: a new buffer of 70
    bytes gets 80. *)
Definition sizeClasses : list nat :=
  [8; 16; 24; 32; 48; 64; 80; 96; 112; 128; 144; 160; 176; 192; 208; 224; 240; 256].

Definition roundupsize (n : nat) : nat :=
  default n (head (filter (λ c, n ≤ c) sizeClasses)).

Definition sizeClassRuntime : GoRuntime :=
  {| spareCapacity := λ n, roundupsize n - n |}.

Definition memoryConfig : traceConfig :=
  {| DisableStorage := false; DisableStack := false; EnableMemory := true;
     EnableReturnData := false; Tracer := None; TracerConfig := [] |}.

Definition sampleStep (op : string) (pc : N) (memory : list byte)
    (memorySize memoryOffset : Z) : instrumentation.StructLog :=
  {| instrumentation.Pc := pc; instrumentation.Op := op;
     instrumentation.Gas := 100; instrumentation.GasCost := 3;
     instrumentation.Memory := memory;
     instrumentation.MemorySize := memorySize;
     instrumentation.MemoryOffset := memoryOffset;
     instrumentation.Stack := [Some 1%Z; None; Some 2%Z];
     instrumentation.ReturnData := [];
     instrumentation.Storage := ∅;
     instrumentation.Depth := 1; instrumentation.RefundCounter := 0;
     instrumentation.Err := None |}.

(** Memory size 70, 70 bytes written at offset 0. *)
Definition step70 : instrumentation.StructLog :=
  sampleStep "MSTORE" 4 (replicate 70 Byte.x61) 70 0.

(** Memory size 32, one byte written at offset 32. *)
Definition stepOutside : instrumentation.StructLog :=
  sampleStep "MSTORE8" 4 [Byte.x61] 32 32.

Definition step64 : instrumentation.StructLog :=
  sampleStep "MSTORE" 4 (replicate 64 Byte.x61) 64 0.

Definition stepZero : instrumentation.StructLog :=
  sampleStep "CALL" 9 [] 0 0.

Definition sampleHash (b : byte) : common.Hash := vreplicate 32 b.

Definition sampleTx (b : byte) : ethTypes.Transaction :=
  {| ethTypes.Hash := sampleHash b |}.

Definition sampleReceipt (b : byte) : ethTypes.Receipt :=
  {| ethTypes.TxHash := sampleHash b; ethTypes.Status := 1 |}.

(** A state with one block and one batch of five transactions; the trace of
    the transaction with hash 02..02 is not found. *)
Definition sampleState : StateInterface :=
  {| GetNumericBlockNumber := λ number, (Z.to_N number, None);
     GetNumericBatchNumber := λ number, (Z.to_N number, None);
     GetL2BlockByNumber := λ _,
       (Some {| ethTypes.Transactions := [sampleTx Byte.x01; sampleTx Byte.x02;
                                         sampleTx Byte.x03] |}, None);
     GetL2BlockByHash := λ _,
       (Some {| ethTypes.Transactions := [sampleTx Byte.x01; sampleTx Byte.x02;
                                         sampleTx Byte.x03] |}, None);
     GetBatchByNumber := λ batchNumber,
       (Some {| state.BatchNumber := batchNumber |}, None);
     GetTransactionsByBatchNumber := λ _,
       ([sampleTx Byte.x01; sampleTx Byte.x02; sampleTx Byte.x03;
         sampleTx Byte.x04; sampleTx Byte.x05], None);
     GetTransactionReceipt := λ hash,
       (Some {| ethTypes.TxHash := hash; ethTypes.Status := 1 |}, None);
     DebugTransaction := λ hash _,
       if decide (hash = sampleHash Byte.x02) then (None, Some ErrNotFound)
       else (Some {| state.ReturnValue := []; state.GasUsed := 21000;
                     state.StructLogs := [stepZero];
                     state.ExecutorTraceResult := [] |}, None) |}.

(** A remote that cannot be reached for transaction 02..02, answers with an
    error for 04..04 and with a trace for the others. *)
Definition sampleRemote : RemoteClient :=
  {| JSONRPCCall := λ _ _ txHash _,
       if decide (txHash = common.String (sampleHash Byte.x02)) then
         ({| types.Result := []; types.Error := None |},
          Some (ErrorString "connection refused"))
       else if decide (txHash = common.String (sampleHash Byte.x04)) then
         ({| types.Result := [];
             types.Error := Some {| types.Code := (-32000)%Z;
                                    types.Message := "failed to get trace" |} |},
          None)
       else ({| types.Result := [Byte.x7b; Byte.x7d]; types.Error := None |}, None) |}.

Definition sampleNetURL : NetURL :=
  {| URL_String := λ u, url.Scheme u +:+ "://" +:+ url.Host u +:+ url.Path u |}.

Definition sampleRequest : http.Request :=
  {| http.Host := "node.example:8545";
     http.URL := {| url.Scheme := ""; url.Host := ""; url.Path := "/" |} |}.

Definition sampleReceipts : list ethTypes.Receipt :=
  [sampleReceipt Byte.x01; sampleReceipt Byte.x02; sampleReceipt Byte.x03;
   sampleReceipt Byte.x04; sampleReceipt Byte.x05].

Definition bogusConfig : traceConfig :=
  {| DisableStorage := false; DisableStack := false; EnableMemory := false;
     EnableReturnData := false; Tracer := Some "bogus"; TracerConfig := [] |}.

(** A step that writes one storage slot. *)
Definition stepStore : instrumentation.StructLog :=
  {| instrumentation.Pc := 12; instrumentation.Op := "SSTORE";
     instrumentation.Gas := 100; instrumentation.GasCost := 3;
     instrumentation.Memory := [];
     instrumentation.MemorySize := 0;
     instrumentation.MemoryOffset := 0;
     instrumentation.Stack := [];
     instrumentation.ReturnData := [];
     instrumentation.Storage := {[ sampleHash Byte.x01 := sampleHash Byte.x02 ]};
     instrumentation.Depth := 1; instrumentation.RefundCounter := 0;
     instrumentation.Err := None |}.

(** The entry [stepStore] gets under the default options. *)
Definition storeEntry : StructLogRes :=
  {| Pc := 12; Op := "SSTORE"; Gas := 100; GasCost := 3; Depth := 1; Error := "";
     Stack := Some []; Memory := None;
     Storage := storageField defaultTraceConfig stepStore;
     RefundCounter := 0 |}.

Definition samplePair (b : byte) : traceBatchTransactionResponse :=
  {| bt_TxHash := sampleHash b; bt_Result := [Byte.x7b; Byte.x7d] |}.


(** ** Further vocabulary *)

Section BlockVocabulary.
Context `{GoRuntime} `{StateInterface}.

(** The requests [buildTraceTransaction] sends for each of [txs], in
    order. *)
Definition traceCalls (cfg : option traceConfig) (txs : list ethTypes.Transaction)
    : list call :=
  txs ≫= λ tx, (buildTraceTransaction (ethTypes.Hash tx) cfg).1.
End BlockVocabulary.

(** The requests the batch endpoint sends to the state before it loads the
    receipts. *)
Definition batchLookupCalls (number : types.BatchNumber) (batchNumber : N)
    (batch : state.Batch) : list call :=
  [CallGetNumericBatchNumber number; CallGetBatchByNumber batchNumber;
   CallGetTransactionsByBatchNumber (state.BatchNumber batch)].

Definition receiptCalls (txs : list ethTypes.Transaction) : list call :=
  map (λ tx, CallGetTransactionReceipt (ethTypes.Hash tx)) txs.

(** The error the batch endpoint gives when the receipt of [tx] does not
    load. *)
Definition receiptError (tx : ethTypes.Transaction) : types.RPCError :=
  types.NewRPCError types.DefaultErrorCode
    ("couldn't load receipt for tx " +:+ common.String (ethTypes.Hash tx)
     +:+ " to get trace").



Section AccountVocabulary.
Context `{RemoteClient}.
Variable rpcURL : string.
Variable cfg : option traceConfig.
Variable batchNumber : N.

(** The remote call a task has still to send. *)
Definition taskCall (t : task) : list call :=
  match t with
  | Calling receipt => [callOf rpcURL cfg receipt]
  | _ => []
  end.

(** The remote calls that have not been sent yet in state [s]. *)
Definition pendingCalls (s : batchState) : list call :=
  (tasks s ≫= taskCall)
  ++ map (callOf rpcURL cfg) (requests s ++ notEnqueued (main s)).

(** The remote calls of every reachable state add up to one for each
    receipt. *)
Record accounted (receipts : list ethTypes.Receipt) (s : batchState) : Prop := {
  a_calls : calls s ++ pendingCalls s ≡ₚ map (callOf rpcURL cfg) receipts;
  a_returned : ∀ out, main s = Returned out →
               out = timeoutAnswer batchNumber ∨ wg s = 0
}.
End AccountVocabulary.

(** ** Further sample inputs *)

(** Memory size 40, eight bytes written at offset 32. *)
Definition step40 : instrumentation.StructLog :=
  sampleStep "MSTORE" 4 (replicate 8 Byte.x61) 40 32.

(** A step that reads memory of size 64 and writes nothing. *)
Definition stepLoad : instrumentation.StructLog :=
  sampleStep "MLOAD" 5 [] 64 0.

Definition stepSha3 : instrumentation.StructLog :=
  sampleStep "SHA3" 0 [] 0 0.

(** The options of a request that names a built-in tracer and asks for
    memory and return data. *)
Definition tracerConfig : traceConfig :=
  {| DisableStorage := false; DisableStack := false; EnableMemory := true;
     EnableReturnData := true; Tracer := Some "callTracer"; TracerConfig := [] |}.

Definition returnDataConfig : traceConfig :=
  {| DisableStorage := false; DisableStack := false; EnableMemory := false;
     EnableReturnData := true; Tracer := None; TracerConfig := [] |}.

(** A state whose executor hands back a trace of its own for the transaction
    01..01, whose receipt for 03..03 cannot be loaded, and which knows no
    block. Batch 9 is not found, the list of batch 8 cannot be read, and the
    empty list of batch 7 comes with a not-found error. *)
Definition tracerState : StateInterface :=
  {| GetNumericBlockNumber := λ number, (Z.to_N number, None);
     GetNumericBatchNumber := λ number, (Z.to_N number, None);
     GetL2BlockByNumber := λ _, (None, Some (ErrorWrap "state" ErrNotFound));
     GetL2BlockByHash := λ _, (None, Some (ErrorWrap "state" ErrNotFound));
     GetBatchByNumber := λ batchNumber,
       if decide (batchNumber = 9%N) then (None, Some ErrNotFound)
       else (Some {| state.BatchNumber := batchNumber |}, None);
     GetTransactionsByBatchNumber := λ batchNumber,
       if decide (batchNumber = 7%N) then ([], Some (ErrorWrap "state" ErrNotFound))
       else if decide (batchNumber = 8%N) then ([], Some (ErrorString "connection lost"))
       else ([sampleTx Byte.x01; sampleTx Byte.x03; sampleTx Byte.x05], None);
     GetTransactionReceipt := λ hash,
       if decide (hash = sampleHash Byte.x03) then (None, Some (ErrorString "timeout"))
       else (Some {| ethTypes.TxHash := hash; ethTypes.Status := 0 |}, None);
     DebugTransaction := λ hash _,
       if decide (hash = sampleHash Byte.x04) then (None, Some (ErrorString "executor down"))
       else (Some {| state.ReturnValue := [Byte.xca; Byte.xfe]; state.GasUsed := 21000;
                     state.StructLogs := [step70];
                     state.ExecutorTraceResult :=
                       if decide (hash = sampleHash Byte.x01)
                       then [Byte.x7b; Byte.x7d] else [] |}, None) |}.

(** A remote that answers every call with a trace. *)
Definition steadyRemote : RemoteClient :=
  {| JSONRPCCall := λ _ _ _ _,
       ({| types.Result := [Byte.x7b; Byte.x7d]; types.Error := None |}, None) |}.

(** One task is about to send while the endpoint still fills the queue. *)
Definition stateSending : batchState :=
  {| main := Enqueueing [sampleReceipt Byte.x03];
     requests := [];
     tasks := [Sending (samplePair Byte.x01)];
     responses := [];
     wg := 2;
     clock := 0;
     calls := [CallJSONRPC "https://node.example:8545/" "debug_traceTransaction"
                 (common.String (sampleHash Byte.x01)) None] |}.

(** A state in which every lookup succeeds: one block and one batch of the
    two transactions 01..01 and 03..03. *)
Definition quietState : StateInterface :=
  {| GetNumericBlockNumber := λ number, (Z.to_N number, None);
     GetNumericBatchNumber := λ number, (Z.to_N number, None);
     GetL2BlockByNumber := λ _,
       (Some {| ethTypes.Transactions := [sampleTx Byte.x01; sampleTx Byte.x03] |}, None);
     GetL2BlockByHash := λ _,
       (Some {| ethTypes.Transactions := [sampleTx Byte.x01; sampleTx Byte.x03] |}, None);
     GetBatchByNumber := λ batchNumber,
       (Some {| state.BatchNumber := batchNumber |}, None);
     GetTransactionsByBatchNumber := λ _,
       ([sampleTx Byte.x01; sampleTx Byte.x03], None);
     GetTransactionReceipt := λ hash,
       (Some {| ethTypes.TxHash := hash; ethTypes.Status := 1 |}, None);
     DebugTransaction := λ hash _,
       (Some {| state.ReturnValue := []; state.GasUsed := 21000;
                state.StructLogs := [stepZero];
                state.ExecutorTraceResult := [] |}, None) |}.

(** The trace [quietState] gives for every transaction under the default
    options. *)
Definition quietTrace : option traceResult :=
  Some (TransactionTrace
          {| tr_Gas := 21000; tr_Failed := false; tr_ReturnValue := None;
             tr_StructLogs :=
               [{| Pc := 9; Op := "CALL"; Gas := 100; GasCost := 3; Depth := 1;
                   Error := ""; Stack := Some [1%Z; 2%Z]; Memory := None;
                   Storage := None; RefundCounter := 0 |}] |}).

(** A step that is left out and reports no memory. *)
Definition stepStop : instrumentation.StructLog :=
  sampleStep "STOP" 0 [] 0 0.

(** A kept step that reports no memory and yet brings a write. *)
Definition stepZeroWrite : instrumentation.StructLog :=
  sampleStep "CALL" 9 [Byte.x61] 0 0.

(** * Properties *)

(** ** Slices and the chunk loop *)

Lemma copy_length dst src : length (copy dst src) = length dst.
Proof.
  unfold copy. rewrite length_app, length_take, length_drop. lia.
Qed.

Lemma copy_full dst src : length src = length dst → copy dst src = src.
Proof.
  intros E. unfold copy. rewrite <- E, take_ge, drop_ge by lia. apply app_nil_r.
Qed.

Lemma chunkCount_lt n k : 32 * k < n ↔ k < chunkCount n.
Proof. unfold chunkCount. 
  pose proof (Nat.div_mod_eq (n + 31) 32).
  pose proof (Nat.mod_upper_bound (n + 31) 32).
  lia.
Qed.

Lemma slice_sub_ok s low high :
  low ≤ high → high ≤ slice.cap s →
  slice.sub s low high = Ok (take (high - low) (drop low (slice.elems s ++ slice.spare s))).
Proof.
  intros ? ?. unfold slice.sub. rewrite !decide_True by done. done.
Qed.

Lemma slice_sub_panic s low high :
  slice.cap s < high → slice.sub s low high = Panic (PanicSliceBounds high (slice.cap s)).
Proof.
  intros ?. unfold slice.sub. rewrite decide_False by lia. done.
Qed.

Lemma memoryArrayLoop_ok s : 
  32 * chunkCount (slice.len s) ≤ slice.cap s →
  ∀ fuel k acc,
    chunkCount (slice.len s) - k ≤ fuel →
    k ≤ chunkCount (slice.len s) →
    memoryArrayLoop fuel s (32 * k) acc
    = Ok (acc ++ map (chunkAt s) (seq k (chunkCount (slice.len s) - k))).
Proof.
  intros Hcap fuel. induction fuel as [|fuel IH]; intros k acc Hfuel Hk.
  - replace (chunkCount (slice.len s) - k) with 0 by lia.
    cbn [memoryArrayLoop seq map]. rewrite decide_False by (rewrite chunkCount_lt; lia).
    by rewrite app_nil_r.
  - cbn [memoryArrayLoop]. destruct (decide (32 * k < slice.len s)) as [Hlt|Hge].
    + apply chunkCount_lt in Hlt.
      rewrite slice_sub_ok by (unfold memoryChunkSize; lia).
      cbn [mbind result_bind].
      replace (32 * k + memoryChunkSize) with (32 * S k) by (unfold memoryChunkSize; lia).
      rewrite IH by lia.
      replace (chunkCount (slice.len s) - k) with (S (chunkCount (slice.len s) - S k)) by lia.
      cbn [seq map]. rewrite <- app_assoc. cbn [app]. do 3 f_equal.
      unfold chunkAt. f_equal.
      rewrite copy_full.
      * f_equal. unfold memoryChunkSize. lia.
      * rewrite length_take, length_drop, length_app, length_replicate.
        unfold slice.cap, memoryChunkSize in *. lia.
    + rewrite chunkCount_lt in Hge.
      replace (chunkCount (slice.len s) - k) with 0 by lia.
      cbn [seq map]. by rewrite app_nil_r.
Qed.

Lemma memoryArrayLoop_panic s : 
  slice.cap s < 32 * chunkCount (slice.len s) →
  ∀ fuel k acc,
    chunkCount (slice.len s) - k ≤ fuel →
    k < chunkCount (slice.len s) →
    memoryArrayLoop fuel s (32 * k) acc
    = Panic (PanicSliceBounds (32 * chunkCount (slice.len s)) (slice.cap s)).
Proof.
  intros Hcap fuel. induction fuel as [|fuel IH]; intros k acc Hfuel Hk; [lia|].
  cbn [memoryArrayLoop]. rewrite decide_True by (rewrite chunkCount_lt; lia).
  destruct (decide (S k = chunkCount (slice.len s))) as [Hlast|Hmore].
  - rewrite slice_sub_panic by (unfold memoryChunkSize; lia).
    cbn [mbind result_bind]. do 2 f_equal. unfold memoryChunkSize. lia.
  - assert (slice.len s ≤ slice.cap s) by (unfold slice.len, slice.cap; lia).
    assert (32 * S k < slice.len s) by (rewrite chunkCount_lt; lia).
    rewrite slice_sub_ok by (unfold memoryChunkSize; lia).
    cbn [mbind result_bind].
    replace (32 * k + memoryChunkSize) with (32 * S k) by (unfold memoryChunkSize; lia).
    apply IH; lia.
Qed.

Lemma chunkCount_le n : chunkCount n ≤ n.
Proof. unfold chunkCount.
  pose proof (Nat.div_mod_eq (n + 31) 32).
  pose proof (Nat.mod_upper_bound (n + 31) 32). lia. Qed.

(** The whole chunk loop, as [stepMemory] runs it: it gives every chunk when
    the capacity reaches the end of the last one, and panics on the last
    chunk otherwise. More fuel changes nothing. *)
Lemma memoryArrayLoop_spec s :
  memoryArrayLoop (slice.len s) s 0 [] =
    if decide (32 * chunkCount (slice.len s) ≤ slice.cap s)
    then Ok (map (chunkAt s) (seq 0 (chunkCount (slice.len s))))
    else Panic (PanicSliceBounds (32 * chunkCount (slice.len s)) (slice.cap s)).
Proof.
  pose proof (chunkCount_le (slice.len s)).
  change 0 with (32 * 0) at 1.
  case_decide.
  - rewrite memoryArrayLoop_ok by lia. simpl. by rewrite Nat.sub_0_r.
  - apply memoryArrayLoop_panic; lia.
Qed.

Lemma memoryArrayLoop_fuel s fuel :
  slice.len s ≤ fuel →
  memoryArrayLoop fuel s 0 [] = memoryArrayLoop (slice.len s) s 0 [].
Proof.
  intros Hfuel. pose proof (chunkCount_le (slice.len s)).
  rewrite memoryArrayLoop_spec. change 0 with (32 * 0) at 1.
  case_decide.
  - rewrite memoryArrayLoop_ok by lia. cbn [app]. by rewrite Nat.sub_0_r.
  - destruct (decide (0 < chunkCount (slice.len s))) as [Hpos|Hzero].
    + apply memoryArrayLoop_panic; lia.
    + lia.
Qed.

(** ** Hex encoding *)

Lemma byte_of_digits_encode v :
  byte_of_digits (hex.digit (N.shiftr (Byte.to_N v) 4))
                 (hex.digit (N.land (Byte.to_N v) 15)) = Some v.
Proof. destruct v; vm_compute; reflexivity. Qed.

Lemma encodeByte_inj v1 v2 r1 r2 :
  hex.encodeByte v1 r1 = hex.encodeByte v2 r2 → v1 = v2 ∧ r1 = r2.
Proof.
  unfold hex.encodeByte. intros [= H1 H2 H3]. split; [|done].
  pose proof (byte_of_digits_encode v1) as E1.
  pose proof (byte_of_digits_encode v2) as E2.
  rewrite H1, H2 in E1. congruence.
Qed.

Global Instance EncodeToString_inj : Inj (=) (=) hex.EncodeToString.
Proof.
  intros l1. induction l1 as [|a l1 IH]; intros [|b l2] H; simpl in H; try done.
  apply encodeByte_inj in H as [-> H]. f_equal. by apply IH.
Qed.

Lemma EncodeToString_length src :
  String.length (hex.EncodeToString src) = 2 * length src.
Proof. induction src as [|v src IH]; simpl; [done|]. rewrite IH. lia. Qed.

Global Instance hashHex_inj : Inj (=) (=) hashHex.
Proof.
  intros h1 h2 H. apply (inj hex.EncodeToString) in H.
  by apply vec_to_list_inj2.
Qed.

Lemma hashHex_length h : String.length (hashHex h) = 64.
Proof.
  unfold hashHex, common.Bytes. rewrite EncodeToString_length, length_vec_to_list. done.
Qed.

(** The storage loop inserts one pair per write, whatever the order. *)
Lemma storageToHex_kmap (Storage : gmap common.Hash common.Hash) :
  storageToHex Storage = kmap hashHex (hashHex <$> Storage).
Proof.
  unfold storageToHex.
  induction Storage as [|k v m Hk Hfold IH] using map_first_key_ind.
  - rewrite map_fold_empty, fmap_empty, kmap_empty. done.
  - rewrite map_fold_insert_first_key by done.
    rewrite IH, fmap_insert, kmap_insert by apply _. done.
Qed.

(** ** The memory image *)

Lemma uint64_id x : (0 ≤ x < 2 ^ 64)%Z → uint64 x = Z.to_N x.
Proof. intros ?. unfold uint64. by rewrite Z.mod_small. Qed.

Lemma Resize_Len m size : fakevm.Len (fakevm.Resize m size) = N.to_nat size.
Proof.
  unfold fakevm.Resize, fakevm.Len. case_decide; simpl.
  - rewrite length_app, length_replicate. lia.
  - rewrite length_take. lia.
Qed.

Lemma Set_Len m offset size value m' :
  fakevm.Set_ m offset size value = Ok m' → fakevm.Len m' = fakevm.Len m.
Proof.
  unfold fakevm.Set_, fakevm.Len. case_decide; [|done]. intros [= <-]. simpl.
  rewrite !length_app, copy_length, !length_take, !length_drop. lia.
Qed.

Lemma Set_Ok m offset size value :
  N.to_nat offset + N.to_nat size ≤ fakevm.Len m →
  ∃ m', fakevm.Set_ m offset size value = Ok m'.
Proof. intros ?. unfold fakevm.Set_. rewrite decide_True by done. eauto. Qed.

Lemma Set_Panic m offset size value :
  fakevm.Len m < N.to_nat offset + N.to_nat size →
  fakevm.Set_ m offset size value
  = Panic (PanicMemorySet (N.to_nat offset) (N.to_nat size) (fakevm.Len m)).
Proof. intros ?. unfold fakevm.Set_. rewrite decide_False by lia. done. Qed.

Lemma Data_len `{GoRuntime} m : slice.len (fakevm.Data m) = fakevm.Len m.
Proof. done. Qed.

Lemma Data_cap `{GoRuntime} m :
  slice.cap (fakevm.Data m) = fakevm.Len m + spareCapacity (fakevm.Len m).
Proof. unfold slice.cap, fakevm.Data. simpl. by rewrite length_replicate. Qed.

Lemma aligned_chunkable `{GoRuntime} structLog :
  (instrumentation.MemorySize structLog mod 32 = 0)%Z → chunkable structLog.
Proof.
  intros Hmod. unfold chunkable, chunkCount.
  destruct (decide (0 ≤ instrumentation.MemorySize structLog)%Z) as [Hpos|Hneg].
  - set (n := Z.to_nat _).
    assert (n mod 32 = 0) as Hn.
    { subst n. apply Nat2Z.inj. rewrite Nat2Z.inj_mod, Z2Nat.id by done. done. }
    pose proof (Nat.div_mod_eq n 32).
    pose proof (Nat.div_mod_eq (n + 31) 32).
    pose proof (Nat.mod_upper_bound (n + 31) 32).
    lia.
  - rewrite Z2Nat.nonpos by lia. simpl. lia.
Qed.

(** What [stepMemory] does on a step whose write lies inside its size. *)
Lemma stepMemory_within `{GoRuntime} memory structLog :
  writeWithinSize structLog →
  ∃ memory',
    fakevm.Len memory' = Z.to_nat (instrumentation.MemorySize structLog) ∧
    stepMemory memory structLog =
      if decide (0 < instrumentation.MemorySize structLog)%Z then
        if decide (chunkable structLog)
        then Ok (memory', map (chunkAt (fakevm.Data memory'))
                            (seq 0 (chunkCount (fakevm.Len memory'))))
        else Panic (PanicSliceBounds (32 * chunkCount (fakevm.Len memory'))
                      (slice.cap (fakevm.Data memory')))
      else Ok (fakevm.NewMemory, []).
Proof.
  intros [Hsize Hwrite]. unfold stepMemory.
  set (m1 := fakevm.Resize memory _).
  assert (fakevm.Len m1 = Z.to_nat (instrumentation.MemorySize structLog)) as Hm1.
  { subst m1. rewrite Resize_Len, uint64_id by lia. lia. }
  assert (∃ m2, (if decide (0 < length (instrumentation.Memory structLog))
            then fakevm.Set_ m1 (uint64 (instrumentation.MemoryOffset structLog))
                   (N.of_nat (length (instrumentation.Memory structLog)))
                   (instrumentation.Memory structLog)
            else Ok m1) = Ok m2 ∧ fakevm.Len m2 = fakevm.Len m1) as (m2 & -> & Hm2).
  { case_decide as Hlen; [|eauto].
    destruct (Hwrite Hlen) as [Hoff Hend].
    destruct (Set_Ok m1 (uint64 (instrumentation.MemoryOffset structLog))
                (N.of_nat (length (instrumentation.Memory structLog)))
                (instrumentation.Memory structLog)) as [m2 Hm2].
    { rewrite uint64_id by lia. lia. }
    exists m2. split; [done|]. by eapply Set_Len. }
  exists m2. split; [congruence|].
  cbn [mbind result_bind]. destruct (decide (0 < instrumentation.MemorySize structLog)%Z); [|done].
  cbn [mbind result_bind].
  rewrite memoryArrayLoop_spec, Data_len, Data_cap.
  rewrite Hm2, Hm1.
  repeat case_decide; unfold chunkable in *; done.
Qed.

(** A write that leaves the image stops the pass. *)
Lemma stepMemory_outside `{GoRuntime} memory structLog :
  0 < length (instrumentation.Memory structLog) →
  N.to_nat (uint64 (instrumentation.MemorySize structLog))
  < N.to_nat (uint64 (instrumentation.MemoryOffset structLog))
    + length (instrumentation.Memory structLog) →
  stepMemory memory structLog =
    Panic (PanicMemorySet
             (N.to_nat (uint64 (instrumentation.MemoryOffset structLog)))
             (length (instrumentation.Memory structLog))
             (N.to_nat (uint64 (instrumentation.MemorySize structLog)))).
Proof.
  intros Hlen Hout. unfold stepMemory.
  rewrite decide_True by done.
  rewrite Set_Panic by (rewrite Resize_Len; lia).
  cbn [mbind result_bind]. by rewrite Resize_Len, Nat2N.id.
Qed.

(** ** One round of the formatter *)

Lemma stepOp_None structLog : stepOp structLog = None ↔ dropped structLog.
Proof.
  unfold stepOp, dropped. repeat case_decide; split; try done.
  intros [? _]. congruence.
Qed.

Lemma stepOp_Some structLog op :
  stepOp structLog = Some op →
  ¬ dropped structLog ∧
  op = (if decide (instrumentation.Op structLog = "SHA3") then "KECCAK256"
        else instrumentation.Op structLog).
Proof.
  intros Hop. split.
  - rewrite <- stepOp_None. congruence.
  - unfold stepOp in Hop. repeat case_decide; congruence.
Qed.

Lemma step_dropped `{GoRuntime} cfg acc structLog :
  dropped structLog → buildStructLogs_step cfg acc structLog = Ok acc.
Proof.
  intros Hd%stepOp_None. unfold buildStructLogs_step. destruct acc. by rewrite Hd.
Qed.

(** A step that is kept and gets through yields one entry behind the output
    so far; its memory field comes from [stepMemory] or is absent. *)
Lemma step_kept_inv `{GoRuntime} cfg structLogs memory structLog structLogs' memory' :
  ¬ dropped structLog →
  buildStructLogs_step cfg (structLogs, memory) structLog = Ok (structLogs', memory') →
  ∃ e, structLogs' = structLogs ++ [e] ∧ formatted cfg structLog e ∧
       (if EnableMemory cfg
        then ∃ memoryArray, stepMemory memory structLog = Ok (memory', memoryArray)
                            ∧ Memory e = Some memoryArray
        else memory' = memory ∧ Memory e = None).
Proof.
  intros Hkept Hstep. unfold buildStructLogs_step in Hstep.
  destruct (stepOp structLog) as [op|] eqn:Hop; [|by apply stepOp_None in Hop].
  apply stepOp_Some in Hop as [_ ->].
  destruct (EnableMemory cfg).
  - destruct (stepMemory memory structLog) as [[m arr]|] eqn:Hmem; [|done].
    cbn in Hstep. injection Hstep as <- <-.
    eexists. split; [done|]. unfold formatted, entryOf, storageField, stackField.
    cbn. repeat split; eauto.
  - cbn in Hstep. injection Hstep as <- <-.
    eexists. split; [done|]. unfold formatted, entryOf, storageField, stackField.
    cbn. repeat split; eauto.
Qed.

(** A round can only stop in the memory part. *)
Lemma step_panic `{GoRuntime} cfg acc structLog p :
  buildStructLogs_step cfg acc structLog = Panic p →
  EnableMemory cfg = true ∧ ¬ dropped structLog ∧
  stepMemory acc.2 structLog = Panic p.
Proof.
  destruct acc as [structLogs memory]. unfold buildStructLogs_step.
  destruct (stepOp structLog) as [op|] eqn:Hop; [|done].
  apply stepOp_Some in Hop as [Hkept _].
  destruct (EnableMemory cfg); [|done].
  destruct (stepMemory memory structLog) as [[m arr]|] eqn:Hmem; [done|].
  cbn. by intros [= ->].
Qed.

Lemma step_no_memory `{GoRuntime} cfg acc structLog :
  EnableMemory cfg = false → ∃ acc', buildStructLogs_step cfg acc structLog = Ok acc'.
Proof.
  intros Hmem. destruct (buildStructLogs_step cfg acc structLog) eqn:E; [eauto|].
  apply step_panic in E as [? _]. congruence.
Qed.

(** ** The whole pass *)

Lemma loop_app `{GoRuntime} cfg steps1 steps2 acc :
  buildStructLogs_loop cfg (steps1 ++ steps2) acc
  = buildStructLogs_loop cfg steps1 acc ≫= buildStructLogs_loop cfg steps2.
Proof.
  revert acc. induction steps1 as [|s steps1 IH]; intros acc; [done|].
  cbn [app buildStructLogs_loop].
  destruct (buildStructLogs_step cfg acc s); cbn; [apply IH|done].
Qed.

(** The pass gives one entry for every step that is kept, in order, and can
    stop short of an output only when memory is rendered. *)
Lemma loop_entries `{GoRuntime} cfg steps :
  ∀ structLogs memory,
    match buildStructLogs_loop cfg steps (structLogs, memory) with
    | Ok (structLogs', _) =>
        ∃ new, structLogs' = structLogs ++ new
               ∧ Forall2 (formatted cfg) (filter (λ s, ¬ dropped s) steps) new
    | Panic _ => EnableMemory cfg = true
    end.
Proof.
  induction steps as [|s steps IH]; intros structLogs memory.
  - cbn. exists []. by rewrite app_nil_r.
  - cbn [buildStructLogs_loop].
    destruct (buildStructLogs_step cfg (structLogs, memory) s) as [[logs1 m1]|p] eqn:Hstep.
    + cbn [mbind result_bind]. specialize (IH logs1 m1).
      destruct (buildStructLogs_loop cfg steps (logs1, m1)) as [[logs2 m2]|]; [|done].
      destruct IH as (new & -> & Hnew).
      destruct (decide (dropped s)) as [Hd|Hk].
      * rewrite step_dropped in Hstep by done. injection Hstep as <- <-.
        exists new. split; [done|]. by rewrite filter_cons_False by tauto.
      * apply step_kept_inv in Hstep as (e & -> & He & _); [|done].
        exists (e :: new). split; [by rewrite <- app_assoc|].
        rewrite filter_cons_True by done. by constructor.
    + cbn. by apply step_panic in Hstep as [? _].
Qed.

Lemma buildStructLogs_entries `{GoRuntime} stateStructLogs cfg :
  match buildStructLogs stateStructLogs cfg with
  | Ok structLogs =>
      Forall2 (formatted cfg) (filter (λ s, ¬ dropped s) stateStructLogs) structLogs
  | Panic _ => EnableMemory cfg = true
  end.
Proof.
  unfold buildStructLogs.
  pose proof (loop_entries cfg stateStructLogs [] fakevm.NewMemory) as Hloop.
  destruct (buildStructLogs_loop cfg stateStructLogs ([], fakevm.NewMemory))
    as [[structLogs memory]|]; [|done].
  cbn. by destruct Hloop as (new & -> & Hnew).
Qed.

Lemma buildStructLogs_no_memory `{GoRuntime} stateStructLogs cfg :
  EnableMemory cfg = false → ∃ structLogs, buildStructLogs stateStructLogs cfg = Ok structLogs.
Proof.
  intros Hmem. pose proof (buildStructLogs_entries stateStructLogs cfg) as Hall.
  destruct (buildStructLogs stateStructLogs cfg); [eauto|congruence].
Qed.

(** ** Memory rendering *)

Lemma paddedChunk_length content k : length (paddedChunk content k) = 32.
Proof.
  unfold paddedChunk. rewrite length_take, length_app, length_replicate. lia.
Qed.

Lemma chunkAt_Data `{GoRuntime} memory k :
  32 * S k ≤ slice.cap (fakevm.Data memory) →
  chunkAt (fakevm.Data memory) k
  = hex.EncodeToString (paddedChunk (fakevm.store memory) k).
Proof.
  rewrite Data_cap. unfold fakevm.Len. intros Hcap.
  unfold chunkAt, paddedChunk, fakevm.Data, fakevm.Len. cbn [slice.elems slice.spare].
  f_equal.
  destruct (decide (32 * k ≤ length (fakevm.store memory))) as [Hin|Hout].
  - rewrite drop_app_le by done.
    rewrite !take_app, !take_replicate, length_drop. do 2 f_equal. lia.
  - rewrite drop_app_ge by lia. rewrite (drop_ge (fakevm.store memory)) by lia.
    rewrite drop_replicate, app_nil_l, !take_replicate. f_equal. lia.
Qed.

(** With room for the last chunk, the memory field of a step is its snapshot
    in 32-byte chunks, the last one padded with zeros, each 64 hex digits. *)
Lemma stepMemory_chunks `{GoRuntime} memory structLog :
  writeWithinSize structLog → chunkable structLog →
  (0 < instrumentation.MemorySize structLog)%Z →
  ∃ memory',
    fakevm.Len memory' = Z.to_nat (instrumentation.MemorySize structLog) ∧
    stepMemory memory structLog =
      Ok (memory',
          map (λ k, hex.EncodeToString (paddedChunk (fakevm.store memory') k))
              (seq 0 (chunkCount (fakevm.Len memory')))) ∧
    Forall (λ c, String.length c = 64)
      (map (λ k, hex.EncodeToString (paddedChunk (fakevm.store memory') k))
           (seq 0 (chunkCount (fakevm.Len memory')))).
Proof.
  intros Hwf Hchunk Hpos.
  destruct (stepMemory_within memory structLog Hwf) as (memory' & Hlen & Hstep).
  rewrite !decide_True in Hstep by done.
  exists memory'. split; [done|]. split.
  - rewrite Hstep. do 2 f_equal. apply map_ext_in. intros k Hk%in_seq.
    apply chunkAt_Data. rewrite Data_cap, Hlen.
    unfold chunkable in Hchunk. rewrite Hlen in Hk. lia.
  - apply Forall_forall. intros c (k & -> & _)%list_elem_of_fmap.
    rewrite EncodeToString_length, paddedChunk_length. done.
Qed.

(** C1, at the input the design document names: a pass over one step that
    reports memory size 70 and writes 70 bytes at offset 0. The third chunk
    is read as [structLog.Memory[64:96]]; unless the buffer happens to have
    capacity 96 the slice expression is out of range and the formatter
    panics instead of giving three chunks. *)
Theorem memory_size_70_panics `{GoRuntime} cfg structLog :
  EnableMemory cfg = true →
  ¬ dropped structLog →
  instrumentation.MemorySize structLog = 70%Z →
  instrumentation.MemoryOffset structLog = 0%Z →
  length (instrumentation.Memory structLog) = 70 →
  70 + spareCapacity 70 < 96 →
  buildStructLogs [structLog] cfg
  = Panic (PanicSliceBounds 96 (70 + spareCapacity 70)).
Proof.
  intros Hmem Hkept Hsize Hoff Hlen Hcap.
  assert (writeWithinSize structLog) as Hwf.
  { unfold writeWithinSize. rewrite Hsize, Hoff, Hlen. lia. }
  destruct (stepMemory_within fakevm.NewMemory structLog Hwf) as (memory' & Hlen' & Hstep).
  rewrite Hsize in Hlen', Hstep. change (Z.to_nat 70) with 70 in Hlen'.
  rewrite decide_True in Hstep by lia.
  rewrite decide_False in Hstep
    by (unfold chunkable; rewrite Hsize; change (Z.to_nat 70) with 70;
        change (chunkCount 70) with 3; lia).
  rewrite Data_cap, Hlen' in Hstep. change (32 * chunkCount 70) with 96 in Hstep.
  unfold buildStructLogs, buildStructLogs_loop, buildStructLogs_step.
  destruct (stepOp structLog) eqn:Hop; [|by apply stepOp_None in Hop].
  rewrite Hmem, Hstep. done.
Qed.

(** ** The declared length of the memory image *)

Lemma loop_declared_length `{GoRuntime} cfg steps :
  EnableMemory cfg = true →
  Forall writeWithinSize steps →
  ∀ structLogs memory,
    match buildStructLogs_loop cfg steps (structLogs, memory) with
    | Ok (_, memory') =>
        fakevm.Len memory' = lastReportedSize (fakevm.Len memory) steps
    | Panic p =>
        (∃ high capacity, p = PanicSliceBounds high capacity)
        ∧ ¬ Forall chunkable steps
    end.
Proof.
  intros Hmem. induction 1 as [|s steps Hwf _ IH]; intros structLogs memory; [done|].
  cbn [buildStructLogs_loop lastReportedSize foldl].
  destruct (decide (dropped s)) as [Hd|Hk].
  { rewrite step_dropped by done. cbn [mbind result_bind].
    specialize (IH structLogs memory).
    destruct (buildStructLogs_loop cfg steps (structLogs, memory)) as [[? ?]|]; [done|].
    destruct IH as [? Hn]. split; [done|]. intros Hall. apply Hn. by inversion Hall. }
  destruct (buildStructLogs_step cfg (structLogs, memory) s) as [[logs1 m1]|p] eqn:Hstep.
  - cbn [mbind result_bind].
    apply step_kept_inv in Hstep as (e & _ & _ & Hm); [|done].
    rewrite Hmem in Hm. destruct Hm as (arr & Hm & _).
    destruct (stepMemory_within memory s Hwf) as (m' & Hlen & Hm').
    assert (fakevm.Len m1 = Z.to_nat (instrumentation.MemorySize s)) as Hm1.
    { rewrite Hm in Hm'. repeat case_decide; try done.
      - by injection Hm' as -> _.
      - injection Hm' as -> _. cbn. destruct Hwf as [? _].
        unfold fakevm.Len. cbn. lia. }
    specialize (IH logs1 m1). rewrite Hm1 in IH.
    destruct (buildStructLogs_loop cfg steps (logs1, m1)) as [[? ?]|]; [done|].
    destruct IH as [? Hn]. split; [done|]. intros Hall. apply Hn. by inversion Hall.
  - cbn. apply step_panic in Hstep as (_ & _ & Hstep). cbn in Hstep.
    destruct (stepMemory_within memory s Hwf) as (m' & Hlen & Hm').
    rewrite Hstep in Hm'. repeat case_decide; try done.
    injection Hm' as ->. split; [eauto|]. intros Hall. by inversion Hall.
Qed.

(** C3, amended. For steps whose writes lie inside the memory size they
    report, no write leaves the image (the pass can only stop in the chunk
    loop, and not at all when every snapshot has room for its last chunk),
    and after the pass the image is as long as the size the last kept step
    reported. *)
Theorem declared_length_is_reported_size `{GoRuntime} cfg stateStructLogs :
  EnableMemory cfg = true →
  Forall writeWithinSize stateStructLogs →
  match buildStructLogs_loop cfg stateStructLogs ([], fakevm.NewMemory) with
  | Ok (_, memory) => fakevm.Len memory = lastReportedSize 0 stateStructLogs
  | Panic p =>
      (∃ high capacity, p = PanicSliceBounds high capacity)
      ∧ ¬ Forall chunkable stateStructLogs
  end.
Proof.
  intros Hmem Hwf.
  apply (loop_declared_length cfg stateStructLogs Hmem Hwf [] fakevm.NewMemory).
Qed.

(** ** Steps left out *)

(** A step that is left out does not touch what the pass carries. *)
Lemma loop_filter_kept `{GoRuntime} cfg steps :
  ∀ acc, buildStructLogs_loop cfg steps acc
         = buildStructLogs_loop cfg (filter (λ s, ¬ dropped s) steps) acc.
Proof.
  induction steps as [|s steps IH]; intros acc; [done|].
  destruct (decide (dropped s)) as [Hdrop|Hkept].
  - rewrite filter_cons_False by (by intros ?). cbn [buildStructLogs_loop].
    rewrite step_dropped by done. cbn [mbind result_bind]. apply IH.
  - rewrite filter_cons_True by done. cbn [buildStructLogs_loop].
    destruct (buildStructLogs_step cfg acc s) as [acc'|p]; [|done].
    cbn [mbind result_bind]. apply IH.
Qed.

(** The formatter returns on every sequence of steps whose writes lie inside
    the sizes they report and whose snapshots have room for their last
    chunk. *)
Lemma buildStructLogs_total `{GoRuntime} stateStructLogs cfg :
  Forall writeWithinSize stateStructLogs →
  Forall chunkable stateStructLogs →
  ∃ structLogs, buildStructLogs stateStructLogs cfg = Ok structLogs.
Proof.
  intros Hwf Hchunk. destruct (EnableMemory cfg) eqn:Hmem;
    [|by apply buildStructLogs_no_memory].
  unfold buildStructLogs.
  pose proof (loop_declared_length cfg stateStructLogs Hmem Hwf [] fakevm.NewMemory)
    as Hloop.
  destruct (buildStructLogs_loop cfg stateStructLogs ([], fakevm.NewMemory))
    as [[structLogs memory]|]; [cbn; eauto|].
  by destruct Hloop as [_ Hno].
Qed.

(** C7, amended. Whenever the formatter returns, a step with opcode STOP at
    program counter 0 has no entry in the output and every other step has
    exactly one, in the order of the steps. It returns on every sequence of
    steps when memory is not rendered, and with memory on every sequence
    whose kept steps write inside the memory sizes they report and have room
    for the last chunk of their snapshots; on the other sequences it can
    stop, and then no step has an entry. *)
Theorem stop_at_pc0_dropped `{GoRuntime} stateStructLogs cfg :
  let kept := filter (λ s, ¬ dropped s) stateStructLogs in
  match buildStructLogs stateStructLogs cfg with
  | Ok structLogs => Forall2 entryOf kept structLogs
  | Panic _ =>
      EnableMemory cfg = true
      ∧ ¬ (Forall writeWithinSize kept ∧ Forall chunkable kept)
  end.
Proof.
  intros kept.
  pose proof (buildStructLogs_entries stateStructLogs cfg) as Hall.
  assert (buildStructLogs stateStructLogs cfg = buildStructLogs kept cfg) as Hkept.
  { unfold buildStructLogs. by rewrite loop_filter_kept. }
  destruct (buildStructLogs stateStructLogs cfg) as [structLogs|p] eqn:Hrun.
  - eapply Forall2_impl; [exact Hall|]. by intros s e [He _].
  - split; [done|]. intros [Hwf Hchunk].
    destruct (buildStructLogs_total kept cfg Hwf Hchunk) as [structLogs Hok].
    congruence.
Qed.

(** ** A step that reports no memory *)

(** C8, amended. With memory rendered, a step that reports memory size 0
    does one of three things. If it is kept and brings no write, its entry
    gets the empty memory list and the pass goes on from a fresh image, so
    the rounds after it do not see what was written before. If it is left
    out (STOP at program counter 0), it gets no entry and the image stays as
    it is. If it is kept and brings a write, the write goes to an image of
    length 0 and the pass stops there. *)
Theorem zero_size_resets_memory `{GoRuntime} cfg structLogs memory structLog :
  EnableMemory cfg = true →
  instrumentation.MemorySize structLog = 0%Z →
  (¬ dropped structLog → instrumentation.Memory structLog = [] →
   ∃ e, buildStructLogs_step cfg (structLogs, memory) structLog
        = Ok (structLogs ++ [e], fakevm.NewMemory)
        ∧ Memory e = Some []
        ∧ ∀ rest, buildStructLogs_loop cfg (structLog :: rest) (structLogs, memory)
                  = buildStructLogs_loop cfg rest (structLogs ++ [e], fakevm.NewMemory))
  ∧ (dropped structLog →
     buildStructLogs_step cfg (structLogs, memory) structLog = Ok (structLogs, memory))
  ∧ (¬ dropped structLog → instrumentation.Memory structLog ≠ [] →
     buildStructLogs_step cfg (structLogs, memory) structLog
     = Panic (PanicMemorySet
                (N.to_nat (uint64 (instrumentation.MemoryOffset structLog)))
                (length (instrumentation.Memory structLog)) 0)).
Proof.
  intros Hmem Hsize. split; [|split].
  - intros Hkept Hnil.
    assert (stepMemory memory structLog = Ok (fakevm.NewMemory, [])) as Hstep.
    { unfold stepMemory. rewrite Hnil, Hsize. cbn [length].
      rewrite decide_False by lia. cbn [mbind result_bind].
      by rewrite decide_False by lia. }
    unfold buildStructLogs_step at 1.
    destruct (stepOp structLog) as [op|] eqn:Hop; [|by apply stepOp_None in Hop].
    rewrite Hmem, Hstep. cbn [mbind result_bind].
    eexists. split; [reflexivity|]. split; [reflexivity|].
    intros rest. cbn [buildStructLogs_loop]. unfold buildStructLogs_step at 1.
    rewrite Hop, Hmem, Hstep. reflexivity.
  - intros Hdrop. by apply step_dropped.
  - intros Hkept Hwrite.
    assert (0 < length (instrumentation.Memory structLog)) as Hlen.
    { destruct (instrumentation.Memory structLog); [done|cbn; lia]. }
    unfold buildStructLogs_step.
    destruct (stepOp structLog) as [op|] eqn:Hop; [|by apply stepOp_None in Hop].
    assert (N.to_nat (uint64 (instrumentation.MemorySize structLog)) = 0) as Hzero
      by (by rewrite Hsize).
    rewrite Hmem, stepMemory_outside; [|done|lia].
    cbn [mbind result_bind]. by rewrite Hzero.
Qed.

(** ** The storage field *)

Lemma storageToHex_lookup Storage k v :
  storageToHex Storage !! hashHex k = Some (hashHex v) ↔ Storage !! k = Some v.
Proof.
  rewrite storageToHex_kmap, lookup_kmap, lookup_fmap by apply _.
  destruct (Storage !! k) as [v'|]; cbn; split; try done.
  - intros [= Hv]. f_equal. by apply (inj hashHex).
  - by intros [= ->].
Qed.

Lemma storageToHex_lookup_Some Storage x y :
  storageToHex Storage !! x = Some y →
  ∃ k v, x = hashHex k ∧ y = hashHex v ∧ Storage !! k = Some v.
Proof.
  rewrite storageToHex_kmap. intros (k & -> & Hk)%lookup_kmap_Some; [|apply _].
  rewrite lookup_fmap in Hk. destruct (Storage !! k) as [v|] eqn:E; [|done].
  injection Hk as <-. eauto.
Qed.

Lemma storageToHex_nonempty Storage : Storage ≠ ∅ → storageToHex Storage ≠ ∅.
Proof.
  intros Hne Hempty. apply Hne. apply map_eq. intros k. rewrite lookup_empty.
  destruct (Storage !! k) as [v|] eqn:E; [|done].
  apply storageToHex_lookup in E. by rewrite Hempty, lookup_empty in E.
Qed.

(** Go ranges over a map in an order of its own choosing: whatever order the
    pairs come in, the loop builds the same map. *)
Lemma storageToHex_order (Storage : gmap common.Hash common.Hash) pairs :
  pairs ≡ₚ map_to_list Storage →
  foldl (λ storage '(storageKey, storageValue),
           <[hashHex storageKey := hashHex storageValue]> storage) ∅ pairs
  = storageToHex Storage.
Proof.
  intros Hperm. rewrite storageToHex_kmap.
  assert (NoDup pairs.*1) as Hnodup.
  { rewrite Hperm. apply NoDup_fst_map_to_list. }
  assert (∀ k v, (k, v) ∈ pairs ↔ Storage !! k = Some v) as Hin.
  { intros k v. rewrite Hperm. apply elem_of_map_to_list. }
  clear Hperm.
  assert (∀ acc : gmap string string,
    foldl (λ storage '(storageKey, storageValue),
             <[hashHex storageKey := hashHex storageValue]> storage) acc pairs
    = kmap hashHex (hashHex <$> (list_to_map pairs : gmap common.Hash common.Hash)) ∪ acc) as Hfold.
  { clear Hin. induction pairs as [|[k v] pairs IH]; intros acc.
    - cbn. by rewrite fmap_empty, kmap_empty, (left_id_L ∅ (∪)).
    - cbn [foldl]. apply NoDup_cons in Hnodup as [Hk Hnodup]. rewrite IH by done.
      cbn [list_to_map foldr]. rewrite fmap_insert, kmap_insert by apply _.
      rewrite <- insert_union_r, insert_union_l; [done|].
      rewrite lookup_kmap, lookup_fmap by apply _.
      by rewrite (not_elem_of_list_to_map_1 _ _ Hk). }
  rewrite Hfold, (right_id_L ∅ (∪)). do 2 f_equal.
  apply map_eq. intros k. apply option_eq. intros v.
  rewrite <- elem_of_list_to_map by done. apply Hin.
Qed.

Lemma formatted_storage cfg structLog e :
  formatted cfg structLog e → storageAsWritten cfg structLog e.
Proof.
  intros (_ & Hst & _). unfold storageAsWritten. rewrite Hst. unfold storageField.
  assert (bool_decide (0 < size (instrumentation.Storage structLog)) = true
          ↔ instrumentation.Storage structLog ≠ ∅) as Hsize.
  { rewrite bool_decide_eq_true, <- map_size_non_empty_iff. lia. }
  split.
  - destruct (DisableStorage cfg); cbn.
    + split; [by intros [? ?]|by intros [? _]].
    + destruct (bool_decide _); split.
      * intros _. split; [done|]. by apply Hsize.
      * eauto.
      * by intros [? ?].
      * intros [_ Hne%Hsize]. done.
  - intros storage Hfield.
    destruct (negb (DisableStorage cfg)); [|done]. cbn in Hfield.
    destruct (bool_decide _) eqn:Hb; [|done]. injection Hfield as <-.
    split; [apply storageToHex_nonempty; by apply Hsize|].
    split; [apply storageToHex_lookup|].
    intros x y (k & v & -> & -> & Hkv)%storageToHex_lookup_Some.
    exists k, v. by rewrite !hashHex_length.
Qed.

(** C9. In the output of a pass the entry of every step has a storage field
    exactly when storage is not disabled and the step carries a write; the
    field then maps the hex text of every key to the hex text of its value
    and holds nothing else, so it is never an empty map. *)
Theorem storage_field_presence `{GoRuntime} stateStructLogs cfg :
  match buildStructLogs stateStructLogs cfg with
  | Ok structLogs =>
      Forall2 (storageAsWritten cfg)
        (filter (λ s, ¬ dropped s) stateStructLogs) structLogs
  | Panic _ => EnableMemory cfg = true
  end.
Proof.
  pose proof (buildStructLogs_entries stateStructLogs cfg) as Hall.
  destruct (buildStructLogs stateStructLogs cfg) as [structLogs|]; [|done].
  eapply Forall2_impl; [exact Hall|]. apply formatted_storage.
Qed.

(** ** The tracer check *)

Section StringFacts.
Local Arguments String.append !_ _ / : simpl nomatch.

Lemma prefix_spec sub s : String.prefix sub s = true ↔ ∃ b, s = sub +:+ b.
Proof.
revert s. induction sub as [|c sub IH]; intros s.
- destruct s; cbn; (split; [intros _; by eexists|done]).
- destruct s as [|c' s]; cbn; [split; [done|by intros [? ?]]|].
  destruct (Ascii.ascii_dec c c') as [->|Hne].
  + rewrite IH. split; intros [b Hb]; exists b; cbn in *; congruence.
  + split; [done|]. intros [b [= ? _]]. done.
Qed.

Lemma strings_Contains_spec s sub : strings_Contains s sub = true ↔ occursIn sub s.
Proof.
induction s as [|c s IH]; cbn [strings_Contains].
- rewrite orb_false_r, prefix_spec. split.
  + intros [b Hb]. by exists "", b.
  + intros (a & b & Hab). destruct a; [by exists b|done].
- rewrite orb_true_iff, prefix_spec, IH. split.
  + intros [[b Hb]|(a & b & Hab)].
    * by exists "", b.
    * exists (String c a), b. cbn. by rewrite Hab.
  + intros (a & b & Hab). destruct a as [|c' a]; [left; by exists b|].
    right. exists a, b. cbn in Hab. congruence.
Qed.

End StringFacts.

Lemma tracerRefused_spec traceCfg :
  tracerRefused traceCfg = false ↔ validTracer (Tracer traceCfg).
Proof.
  unfold tracerRefused, validTracer. destruct (Tracer traceCfg) as [name|]; [|by split; eauto].
  rewrite !andb_false_iff, !negb_false_iff, String.eqb_eq.
  unfold isBuiltInTracer, isJSCustomTracer.
  rewrite andb_true_iff, !strings_Contains_spec.
  split.
  - intros [[->|Hb]|Hjs]; [by right; left| |].
    + case_decide; [|done]. right; right. exists name. split; [done|]. tauto.
    + right; right. exists name. split; [done|]. tauto.
  - intros [?|[[= ->]|(n & [= <-] & Hn)]]; [done|by left; left|].
    destruct Hn as [?|[?|[?|[?|?]]]]; [left; right; rewrite decide_True by tauto; done ..|].
    by right.
Qed.

Section EndpointFacts.
Context `{GoRuntime} `{StateInterface}.

Lemma bind_request {A B} (c : call) (answer : A) (f : A → M B) :
  ∃ rest r, request c answer ≫= f = (c :: rest, r).
Proof. unfold request. cbn. destruct (f answer). eauto. Qed.

(** C6. The tracer of a request passes exactly when it is missing, empty,
    one of the four built-in names or a text in which both "result" and
    "fault" occur. A request with another tracer gets the invalid-tracer
    error and nothing has been asked of the state by then; every other
    request starts by asking the state for the trace. *)
Theorem tracer_checked_before_tracing hash cfg :
  let traceCfg := default defaultTraceConfig cfg in
  (tracerRefused traceCfg = false ↔ validTracer (Tracer traceCfg)) ∧
  (¬ validTracer (Tracer traceCfg) →
     buildTraceTransaction hash cfg
     = ([], Ok (None, Some (types.NewRPCError types.DefaultErrorCode "invalid tracer")))) ∧
  (validTracer (Tracer traceCfg) →
     ∃ rest r, buildTraceTransaction hash cfg
               = (CallDebugTransaction hash (stateConfigOf traceCfg) :: rest, r)).
Proof.
  intros traceCfg. split; [apply tracerRefused_spec|]. split.
  - intros Hinvalid. unfold buildTraceTransaction. fold traceCfg.
    destruct (tracerRefused traceCfg) eqn:Href; [done|].
    by apply tracerRefused_spec in Href.
  - intros Hvalid%tracerRefused_spec. unfold buildTraceTransaction. fold traceCfg.
    rewrite Hvalid. fold (stateConfigOf traceCfg).
    apply bind_request.
Qed.
End EndpointFacts.

(** ** Block traces *)

Lemma bind_Ok_inv {A B} (m : M A) (f : A → M B) sent b :
  m ≫= f = (sent, Ok b) →
  ∃ sent1 a sent2, m = (sent1, Ok a) ∧ f a = (sent2, Ok b) ∧ sent = sent1 ++ sent2.
Proof.
  destruct m as [sent1 [a|p]]; cbn; [|done].
  destruct (f a) as [sent2 r] eqn:Hf. intros [= <- ->]. eauto 6.
Qed.

Lemma bind_Ok {A B} (m : M A) (f : A → M B) sent1 a :
  m = (sent1, Ok a) → m ≫= f = (sent1 ++ (f a).1, (f a).2).
Proof. intros ->. cbn. by destruct (f a). Qed.

Section BlockFacts.
Context `{GoRuntime} `{StateInterface}.

(** [buildTraceBlock] gives the whole list and no error, or no list and the
    error of one transaction. *)
Lemma buildTraceBlock_loop_shape cfg txs :
  ∀ traces sent out,
    buildTraceBlock_loop txs cfg traces = (sent, Ok out) →
    (∃ all, out = (Some all, None) ∧ length all = length traces + length txs)
    ∨ (∃ tx, tx ∈ txs ∧ out = (None, Some (blockTraceError tx))).
Proof.
  induction txs as [|tx txs IH]; intros traces sent out Hloop.
  - injection Hloop as <- <-. left. exists traces. split; [done|]. cbn. lia.
  - cbn [buildTraceBlock_loop] in Hloop.
    apply bind_Ok_inv in Hloop as (sent1 & [trace err] & sent2 & Htx & Hrest & ->).
    destruct err as [e|].
    + injection Hrest as <- <-. right. exists tx. split; [left|done].
    + apply IH in Hrest as [(all & -> & Hlen)|(tx' & Hin & ->)].
      * left. exists all. split; [done|]. rewrite Hlen, length_app. cbn. lia.
      * right. exists tx'. split; [by right|done].
Qed.

(** The first transaction whose trace fails ends the loop with its error. *)
Lemma buildTraceBlock_loop_first_failure cfg before tx after :
  Forall (λ tx', ∃ sent trace,
            buildTraceTransaction (ethTypes.Hash tx') cfg = (sent, Ok (trace, None)))
         before →
  (∃ sent trace e,
     buildTraceTransaction (ethTypes.Hash tx) cfg = (sent, Ok (trace, Some e))) →
  ∀ traces, ∃ sent,
    buildTraceBlock_loop (before ++ tx :: after) cfg traces
    = (sent, Ok (None, Some (blockTraceError tx))).
Proof.
  intros Hbefore (sent & trace & e & Htx).
  induction Hbefore as [|tx' before (sent' & trace' & Htx') _ IH]; intros traces.
  - cbn [app buildTraceBlock_loop]. rewrite (bind_Ok _ _ _ _ Htx). cbn. eauto.
  - cbn [app buildTraceBlock_loop]. rewrite (bind_Ok _ _ _ _ Htx'). cbn.
    destruct (IH (traces ++ [{| tb_Result := trace' |}])) as [sent'' ->]. cbn. eauto.
Qed.

(** C2, as the code has it. When the block is found and the trace of one of
    its transactions fails, [buildTraceBlock] stops at the first such
    transaction and gives no list and an error for it; but the endpoint
    tests the error of the block lookup, which is nil, instead of that
    error, and returns no list and no error: the caller is not told. The
    same holds by number and by hash. *)
Theorem block_trace_error_not_returned cfg block before tx after :
  ethTypes.Transactions block = before ++ tx :: after →
  Forall (λ tx', ∃ sent trace,
            buildTraceTransaction (ethTypes.Hash tx') cfg = (sent, Ok (trace, None)))
         before →
  (∃ sent trace e,
     buildTraceTransaction (ethTypes.Hash tx) cfg = (sent, Ok (trace, Some e))) →
  (buildTraceBlock (ethTypes.Transactions block) cfg).2
  = Ok (None, Some (blockTraceError tx))
  ∧ (∀ number blockNumber,
       GetNumericBlockNumber number = (blockNumber, None) →
       GetL2BlockByNumber blockNumber = (Some block, None) →
       (TraceBlockByNumber number cfg).2 = Ok (None, None))
  ∧ (∀ hash,
       GetL2BlockByHash hash = (Some block, None) →
       (TraceBlockByHash hash cfg).2 = Ok (None, None)).
Proof.
  intros Htxs Hbefore Htx.
  destruct (buildTraceBlock_loop_first_failure cfg before tx after Hbefore Htx [])
    as [sent Htraces].
  fold (buildTraceBlock (before ++ tx :: after) cfg) in Htraces.
  rewrite <- Htxs in Htraces.
  split; [by rewrite Htraces|]. split.
  - intros number blockNumber Hnum Hblock.
    unfold TraceBlockByNumber, NewDbTxScope.
    rewrite Hnum. cbn. rewrite Hblock. cbn. by rewrite Htraces.
  - intros hash Hblock.
    unfold TraceBlockByHash, NewDbTxScope.
    rewrite Hblock. cbn. by rewrite Htraces.
Qed.
End BlockFacts.

(** ** The batch scatter-gather *)

Section GatherFacts.
Context `{RemoteClient}.
Variable rpcURL : string.
Variable cfg : option traceConfig.
Variable batchNumber : N.

Lemma loadTraceByTxHash_tracePair receipt :
  loadTraceByTxHash rpcURL cfg receipt
  = match tracePair rpcURL cfg receipt with
    | Some resp => Sending resp
    | None => Finishing
    end.
Proof.
  unfold loadTraceByTxHash, tracePair.
  destruct (JSONRPCCall _ _ _ _) as [res [e|]]; [done|].
  cbn. by destruct (types.Error res).
Qed.

Lemma omap_length_le {A B} (f : A → option B) l : length (omap f l) ≤ length l.
Proof. induction l as [|a l IH]; cbn; [done|]. destruct (f a); cbn; lia. Qed.

Lemma gathering_start receipts now : gathering rpcURL cfg batchNumber receipts now (batchStart receipts now).
Proof.
  split; cbn; try done.
  - lia.
Qed.

Lemma omap_cons_tracePair receipt l :
  omap (tracePair rpcURL cfg) (receipt :: l) = option_list (tracePair rpcURL cfg receipt) ++ omap (tracePair rpcURL cfg) l.
Proof. cbn. by destruct (tracePair rpcURL cfg receipt). Qed.

Lemma gathering_step receipts now s s' :
  gathering rpcURL cfg batchNumber receipts now s →
  step rpcURL cfg batchNumber (length receipts) s s' →
  gathering rpcURL cfg batchNumber receipts now s'.
Proof.
  intros [Hwg Hpairs Hret Hcalls Hclock Htimer] Hstep.
  destruct Hstep as
    [s d | s receipt todo Hmain Hroom | s Hmain | s req queue Hreq
    | s before receipt after Htasks | s before resp after Htasks Hroom
    | s before after Htasks Hpos | s timer timedOut Hmain Hwait];
    split; cbn; try done.
  - (* tick *) lia.
  - (* enqueue *) rewrite Hmain in Hwg. cbn in Hwg. rewrite length_app. cbn. lia.
  - rewrite Hmain in Hpairs. cbn in Hpairs. by rewrite <- app_assoc.
  - (* wait *) rewrite Hmain in Hwg. cbn in Hwg. lia.
  - rewrite Hmain in Hpairs. cbn in Hpairs. done.
  - intros timer [= <-]. unfold timeout, Minute in *. lia.
  - (* dispatch *) rewrite Hreq in Hwg. cbn in Hwg. rewrite length_app. cbn. lia.
  - rewrite Hreq in Hpairs. rewrite bind_app. cbn [mbind list_bind].
    rewrite <- Hpairs. cbn [app]. rewrite omap_cons_tracePair, app_nil_r.
    by rewrite <- !app_assoc.
  - (* call *) rewrite Htasks in Hwg. rewrite !length_app in *. cbn in *. lia.
  - rewrite <- Hpairs, Htasks. rewrite !bind_app, !bind_cons.
    rewrite loadTraceByTxHash_tracePair. cbn [taskYield].
    by destruct (tracePair rpcURL cfg receipt).
  - apply Forall_app. split; [done|]. constructor; [|done]. by eexists.
  - (* send *) rewrite Htasks in Hwg. rewrite !length_app in *. cbn in *. lia.
  - rewrite <- Hpairs, Htasks. rewrite !bind_app, !bind_cons. cbn [taskYield].
    rewrite <- !app_assoc. cbn [app]. f_equiv.
    apply Permutation_middle.
  - (* done *) rewrite Htasks in Hwg. rewrite !length_app in *. cbn in *. lia.
  - rewrite <- Hpairs, Htasks. rewrite !bind_app, !bind_cons. done.
  - (* return *) rewrite Hmain in Hwg. cbn in Hwg. lia.
  - rewrite Hmain in Hpairs. cbn in Hpairs. done.
  - intros out [= <-]. destruct Hwait as [Hzero|timer' _ _]; [|by left].
    right. exists (responses s). split; [done|].
    rewrite <- Hpairs. rewrite Hmain in Hwg. cbn in Hwg.
    assert (requests s = []) as -> by (apply length_zero_iff_nil; lia).
    assert (tasks s = []) as -> by (apply length_zero_iff_nil; lia).
    rewrite Hmain. cbn. by rewrite app_nil_r.
Qed.

Lemma gathering_reachable receipts now s :
  rtc (step rpcURL cfg batchNumber (length receipts)) (batchStart receipts now) s →
  gathering rpcURL cfg batchNumber receipts now s.
Proof.
  revert s. apply rtc_ind_r; [apply gathering_start|].
  intros s s' _ Hstep IH. by eapply gathering_step.
Qed.

End GatherFacts.

Section GatherRuns.
Context `{RemoteClient}.
Variable rpcURL : string.
Variable cfg : option traceConfig.
Variable batchNumber : N.

(** One schedule among many: every receipt is queued, dispatched, called
    and finished before the next one is queued. *)
Lemma run_in_sequence capacity clk todo :
  ∀ collected counter sent,
    length collected + length todo ≤ capacity →
    length todo ≤ counter →
    rtc (step rpcURL cfg batchNumber capacity)
      (mkBatchState (Enqueueing todo) [] [] collected counter clk sent)
      (mkBatchState (Enqueueing []) [] []
         (collected ++ omap (tracePair rpcURL cfg) todo)
         (counter - length todo) clk (sent ++ map (callOf rpcURL cfg) todo)).
Proof.
  induction todo as [|receipt todo IH]; intros collected counter sent Hcap Hwg.
  - cbn. rewrite !app_nil_r, Nat.sub_0_r. done.
  - cbn [length] in *. rewrite omap_cons_tracePair. cbn [map].
    eapply rtc_l.
    { eapply (step_enqueue _ _ _ _ _ receipt todo); [done|]. cbn. unfold bufferSize. lia. }
    cbn.
    eapply rtc_l. { by eapply (step_dispatch _ _ _ _ _ receipt []). }
    cbn.
    eapply rtc_l. { by eapply (step_call _ _ _ _ _ [] receipt []). }
    cbn. rewrite loadTraceByTxHash_tracePair.
    destruct (tracePair rpcURL cfg receipt) as [resp|]; cbn [option_list].
    + eapply rtc_l. { eapply (step_send _ _ _ _ _ [] resp []); [done|]. cbn. lia. }
      cbn.
      eapply rtc_l. { eapply (step_done _ _ _ _ _ [] []); [done|]. cbn. lia. }
      cbn.
      replace (counter - S (length todo)) with (counter - 1 - length todo) by lia.
      replace (collected ++ resp :: omap (tracePair rpcURL cfg) todo)
        with ((collected ++ [resp]) ++ omap (tracePair rpcURL cfg) todo)
        by (by rewrite <- app_assoc).
      replace (sent ++ callOf rpcURL cfg receipt :: map (callOf rpcURL cfg) todo)
        with ((sent ++ [callOf rpcURL cfg receipt]) ++ map (callOf rpcURL cfg) todo)
        by (by rewrite <- app_assoc).
      apply IH; [rewrite length_app; cbn; lia | lia].
    + eapply rtc_l. { eapply (step_done _ _ _ _ _ [] []); [done|]. cbn. lia. }
      cbn.
      replace (counter - S (length todo)) with (counter - 1 - length todo) by lia.
      replace (sent ++ callOf rpcURL cfg receipt :: map (callOf rpcURL cfg) todo)
        with ((sent ++ [callOf rpcURL cfg receipt]) ++ map (callOf rpcURL cfg) todo)
        by (by rewrite <- app_assoc).
      apply IH; lia.
Qed.

(** Every batch has a run in which the wait ends before the deadline. *)
Lemma run_to_completion receipts now :
  ∃ s, rtc (step rpcURL cfg batchNumber (length receipts)) (batchStart receipts now) s
       ∧ main s = Returned (Some (omap (tracePair rpcURL cfg) receipts), None)
       ∧ calls s = map (callOf rpcURL cfg) receipts.
Proof.
  eexists. split; [|split].
  - etrans.
    { apply (run_in_sequence (length receipts) now receipts [] (length receipts) []);
        cbn; lia. }
    cbn. rewrite Nat.sub_diag.
    eapply rtc_l. { by apply step_wait. }
    cbn. eapply rtc_l; [|apply rtc_refl].
    eapply (step_return _ _ _ _ _ _ false); [done|]. by apply wait_completed.
  - done.
  - done.
Qed.

(** Once the endpoint is back, its answer stays. *)
Lemma returned_stays capacity s s' out :
  rtc (step rpcURL cfg batchNumber capacity) s s' →
  main s = Returned out → main s' = Returned out.
Proof.
  induction 1 as [|s s1 s2 Hstep _ IH]; [done|]. intros Hmain. apply IH.
  destruct Hstep; cbn; congruence.
Qed.

End GatherRuns.

(** ** The endpoint *)

Section BatchFacts.
Context `{StateInterface} `{RemoteClient} `{NetURL}.


(** C5. When the receipts were loaded and the wait did not time out, the
    endpoint returns no error and a list that holds, in some order, one
    pair for every transaction whose remote call succeeded and nothing for
    the others. *)
Theorem batch_returns_successful_pairs httpRequest number cfg sent0 batchNumber
    receipts sent out :
  TraceBatchByNumber_prepare number = (sent0, Ok (Gather batchNumber receipts)) →
  TraceBatchByNumber httpRequest number cfg sent (Ok out) →
  out ≠ timeoutAnswer batchNumber →
  ∃ traces, out = (Some traces, None)
            ∧ traces ≡ₚ omap (tracePair (rpcURL httpRequest) cfg) receipts.
Proof.
  intros Hprep Hret Hout. inversion Hret as [? ? Hp|? ? Hp|? bn rs now s ? Hp Hrun Hmain];
    subst; rewrite Hprep in Hp; try done.
  injection Hp as <- <- <-.
  apply (gathering_reachable _ _ batchNumber) in Hrun.
  destruct (g_returned _ _ _ _ _ _ Hrun _ Hmain) as [?|?]; done.
Qed.

(** Such a return exists for every batch whose receipts load. *)
Lemma batch_can_complete httpRequest number cfg sent0 batchNumber receipts :
  TraceBatchByNumber_prepare number = (sent0, Ok (Gather batchNumber receipts)) →
  TraceBatchByNumber httpRequest number cfg
    (sent0 ++ map (callOf (rpcURL httpRequest) cfg) receipts)
    (Ok (Some (omap (tracePair (rpcURL httpRequest) cfg) receipts), None)).
Proof.
  intros Hprep.
  destruct (run_to_completion (rpcURL httpRequest) cfg batchNumber receipts 0%N)
    as (s & Hrun & Hmain & <-).
  by eapply batch_gathered.
Qed.
End BatchFacts.

(** ** The target of the fan-out *)

Lemma bind_calls_Forall {A B} (P : call → Prop) (m : M A) (f : A → M B) :
  Forall P m.1 → (∀ a, Forall P (f a).1) → Forall P (m ≫= f).1.
Proof.
  intros Hm Hf. destruct m as [sent [a|p]]; cbn in *; [|done].
  specialize (Hf a). destruct (f a) as [sent' r]. cbn in *. by apply Forall_app.
Qed.

Lemma request_calls_Forall {A} (P : call → Prop) c (answer : A) :
  P c → Forall P (request c answer).1.
Proof. intros ?. cbn. by constructor. Qed.

Lemma deref_calls_Forall {A} (P : call → Prop) (p : option A) : Forall P (deref p).1.
Proof. destruct p; cbn; done. Qed.

Section TargetFacts.
Context `{StateInterface} `{RemoteClient} `{NetURL}.

Lemma loadReceipts_calls batchNumber txs :
  ∀ receipts, Forall stateCall (loadReceipts batchNumber txs receipts).1.
Proof.
  induction txs as [|tx txs IH]; intros receipts; cbn [loadReceipts]; [done|].
  apply bind_calls_Forall; [by apply request_calls_Forall|].
  intros [receipt err]. case_bool_decide; [done|].
  apply bind_calls_Forall; [apply deref_calls_Forall|]. intros r. apply IH.
Qed.

Lemma prepare_calls number : Forall stateCall (TraceBatchByNumber_prepare number).1.
Proof.
  unfold TraceBatchByNumber_prepare.
  apply bind_calls_Forall; [by apply request_calls_Forall|].
  intros [batchNumber [e|]]; [done|].
  apply bind_calls_Forall; [by apply request_calls_Forall|].
  intros [batch err].
  destruct (errors_Is_ErrNotFound err); [done|].
  destruct (isErrNotFound err); [done|].
  apply bind_calls_Forall; [apply deref_calls_Forall|]. intros b.
  apply bind_calls_Forall; [by apply request_calls_Forall|].
  intros [txs err'].
  destruct (negb (errors_Is_ErrNotFound err') && bool_decide (err' ≠ None)); [done|].
  apply loadReceipts_calls.
Qed.

(** C10. Every remote call of a batch request goes to the URL made of the
    host of the inbound request, the path of its URL and the scheme of its
    URL, or "https" when that scheme is empty; it asks for
    debug_traceTransaction with the configuration of the batch request. *)
Theorem fan_out_target httpRequest number cfg sent out :
  TraceBatchByNumber httpRequest number cfg sent out →
  ∀ target method txHash cfg',
    CallJSONRPC target method txHash cfg' ∈ sent →
    target = URL_String
               {| url.Scheme :=
                    if decide (url.Scheme (http.URL httpRequest) = "")
                    then "https" else url.Scheme (http.URL httpRequest);
                  url.Host := http.Host httpRequest;
                  url.Path := url.Path (http.URL httpRequest) |}
    ∧ method = "debug_traceTransaction" ∧ cfg' = cfg.
Proof.
  intros Hret target method txHash cfg' Hin.
  assert (∀ sent0 r, TraceBatchByNumber_prepare number = (sent0, r) →
          CallJSONRPC target method txHash cfg' ∉ sent0) as Hprep.
  { intros sent0 r Hp Hin0. pose proof (prepare_calls number) as Hall.
    rewrite Hp in Hall. cbn in Hall.
    by apply (proj1 (Forall_forall _ _) Hall) in Hin0. }
  inversion Hret as [? ? Hp|? ? Hp|? bn rs now s ? Hp Hrun Hmain]; subst.
  - by apply Hprep in Hp.
  - by apply Hprep in Hp.
  - apply elem_of_app in Hin as [Hin|Hin]; [by apply Hprep in Hp|].
    apply (gathering_reachable _ _ bn) in Hrun.
    pose proof (g_calls _ _ _ _ _ _ Hrun) as Hcalls.
    apply (proj1 (Forall_forall _ _) Hcalls) in Hin as [tx [= -> -> _ ->]].
    split; [|done]. unfold rpcURL.
    case_bool_decide; case_decide; done.
Qed.
End TargetFacts.

(** ** The properties at the sample inputs *)

Example step70_tight :
  @buildStructLogs tightRuntime [step70] memoryConfig = Panic (PanicSliceBounds 96 70).
Proof. vm_compute. reflexivity. Qed.

Example step70_size_class :
  @buildStructLogs sizeClassRuntime [step70] memoryConfig = Panic (PanicSliceBounds 96 80).
Proof. vm_compute. reflexivity. Qed.

(** With capacity 96 behind the 70 bytes the three chunks come out. *)
Example step70_roomy :
  (structLogs ← @buildStructLogs {| spareCapacity := λ _, 26 |} [step70] memoryConfig;
   Ok (map Memory structLogs))
  = Ok [Some ["6161616161616161616161616161616161616161616161616161616161616161";
              "6161616161616161616161616161616161616161616161616161616161616161";
              "6161616161610000000000000000000000000000000000000000000000000000"]].
Proof. vm_compute. reflexivity. Qed.

Lemma memory_size_70_panics_witness :
  @buildStructLogs sizeClassRuntime [step70] memoryConfig
  = Panic (PanicSliceBounds 96 80).
Proof.
  apply (@memory_size_70_panics sizeClassRuntime memoryConfig step70).
  - reflexivity.
  - intros [Hop _]. discriminate Hop.
  - reflexivity.
  - reflexivity.
  - reflexivity.
  - vm_compute. lia.
Defined.

(** The claim C3 at a step that writes outside the size it reports: the image
    is 32 bytes long after the resize, the write covers [32, 33), and the
    formatter stops on it. *)
Lemma write_beyond_declared_length :
  fakevm.Len (fakevm.Resize fakevm.NewMemory
                (uint64 (instrumentation.MemorySize stepOutside))) = 32
  ∧ 32 < N.to_nat (uint64 (instrumentation.MemoryOffset stepOutside))
         + length (instrumentation.Memory stepOutside)
  ∧ @buildStructLogs tightRuntime [stepOutside] memoryConfig
    = Panic (PanicMemorySet 32 1 32).
Proof. vm_compute. repeat split; lia. Qed.

Lemma declared_length_is_reported_size_witness :
  Forall writeWithinSize [step64; stepZero; step64]
  ∧ match @buildStructLogs_loop tightRuntime memoryConfig [step64; stepZero; step64]
            ([], fakevm.NewMemory) with
    | Ok (_, memory) => fakevm.Len memory = lastReportedSize 0 [step64; stepZero; step64]
    | Panic p =>
        (∃ high capacity, p = PanicSliceBounds high capacity)
        ∧ ¬ Forall (@chunkable tightRuntime) [step64; stepZero; step64]
    end.
Proof.
  assert (Forall writeWithinSize [step64; stepZero; step64]) as Hwf.
  { repeat constructor; cbn; lia. }
  split; [exact Hwf|].
  exact (@declared_length_is_reported_size tightRuntime memoryConfig
           [step64; stepZero; step64] eq_refl Hwf).
Defined.

Example declared_length_sample :
  (acc ← @buildStructLogs_loop tightRuntime memoryConfig [step64; stepZero; step64]
           ([], fakevm.NewMemory);
   Ok (fakevm.Len acc.2))
  = Ok 64.
Proof. vm_compute. reflexivity. Qed.

Example stop_at_pc0_sample :
  (structLogs ← @buildStructLogs tightRuntime
                  [sampleStep "STOP" 0 [] 0 0; sampleStep "SHA3" 0 [] 0 0;
                   sampleStep "STOP" 7 [] 0 0] defaultTraceConfig;
   Ok (map (λ e, (Pc e, Op e, Stack e)) structLogs))
  = Ok [(0%N, "KECCAK256", Some [1%Z; 2%Z]); (7%N, "STOP", Some [1%Z; 2%Z])].
Proof. vm_compute. reflexivity. Qed.

Lemma zero_size_resets_memory_witness :
  ∃ e, @buildStructLogs_step tightRuntime memoryConfig
         ([], fakevm.mkMemory (replicate 64 Byte.x61)) stepZero
       = Ok ([] ++ [e], fakevm.NewMemory)
       ∧ Memory e = Some [].
Proof.
  destruct (@zero_size_resets_memory tightRuntime memoryConfig []
              (fakevm.mkMemory (replicate 64 Byte.x61)) stepZero eq_refl eq_refl)
    as (Hreset & _ & _).
  destruct Hreset as (e & Hstep & Hm & _).
  - intros [Hop _]. discriminate Hop.
  - reflexivity.
  - exists e. split; [exact Hstep|exact Hm].
Defined.

(** The claim C8 at a step that is left out and at a step that brings a
    write. The STOP at program counter 0 between the two other steps reports
    memory size 0: it gets no entry, and the step after it still shows the 64
    bytes written before. A kept step that reports size 0 and brings one byte
    stops the pass. *)
Lemma dropped_step_keeps_memory :
  (structLogs ← @buildStructLogs tightRuntime [step64; stepStop; stepLoad] memoryConfig;
   Ok (map Memory structLogs))
  = Ok [Some ["6161616161616161616161616161616161616161616161616161616161616161";
              "6161616161616161616161616161616161616161616161616161616161616161"];
        Some ["6161616161616161616161616161616161616161616161616161616161616161";
              "6161616161616161616161616161616161616161616161616161616161616161"]]
  ∧ (structLogs ← @buildStructLogs tightRuntime [step64; stepZero; stepLoad] memoryConfig;
     Ok (map Memory structLogs))
    = Ok [Some ["6161616161616161616161616161616161616161616161616161616161616161";
                "6161616161616161616161616161616161616161616161616161616161616161"];
          Some [];
          Some ["0000000000000000000000000000000000000000000000000000000000000000";
                "0000000000000000000000000000000000000000000000000000000000000000"]]
  ∧ @buildStructLogs tightRuntime [stepZeroWrite] memoryConfig
    = Panic (PanicMemorySet 0 1 0).
Proof. vm_compute. done. Qed.

(** The formatter returns on steps with consistent memory data, and the
    entries are those of the kept steps. *)
Lemma stop_at_pc0_dropped_witness :
  ∃ structLogs,
    @buildStructLogs tightRuntime [stepStop; step64; stepZero] memoryConfig
    = Ok structLogs
    ∧ Forall2 entryOf [step64; stepZero] structLogs.
Proof.
  pose proof (@stop_at_pc0_dropped tightRuntime [stepStop; step64; stepZero] memoryConfig)
    as Hall.
  destruct (@buildStructLogs tightRuntime [stepStop; step64; stepZero] memoryConfig)
    as [structLogs|p].
  - exists structLogs. split; [reflexivity|exact Hall].
  - destruct Hall as [_ Hbad]. exfalso. apply Hbad. split.
    + repeat constructor; cbn; lia.
    + repeat constructor; vm_compute; lia.
Defined.

(** The claim C7 at two passes that stop: both steps are kept, and neither
    has an entry, since the formatter stops at the second, on a write outside
    the size the step reports or in the chunk loop. *)
Lemma kept_step_without_entry :
  (filter (λ s, ¬ dropped s) [stepZero; stepOutside] = [stepZero; stepOutside]
   ∧ @buildStructLogs sizeClassRuntime [stepZero; stepOutside] memoryConfig
     = Panic (PanicMemorySet 32 1 32))
  ∧ (filter (λ s, ¬ dropped s) [stepZero; step70] = [stepZero; step70]
     ∧ @buildStructLogs sizeClassRuntime [stepZero; step70] memoryConfig
       = Panic (PanicSliceBounds 96 80)).
Proof. vm_compute. done. Qed.

Lemma step_without_memory `{GoRuntime} cfg structLogs memory structLog :
  EnableMemory cfg = false → ¬ dropped structLog →
  buildStructLogs_step cfg (structLogs, memory) structLog
  = Ok (structLogs ++
        [{| Pc := instrumentation.Pc structLog;
            Op := if decide (instrumentation.Op structLog = "SHA3") then "KECCAK256"
                  else instrumentation.Op structLog;
            Gas := instrumentation.Gas structLog;
            GasCost := instrumentation.GasCost structLog;
            Depth := instrumentation.Depth structLog;
            Error := default "" (instrumentation.Err structLog);
            Stack := stackField cfg structLog;
            Memory := None;
            Storage := storageField cfg structLog;
            RefundCounter := instrumentation.RefundCounter structLog |}], memory).
Proof.
  intros Hmem Hkept. unfold buildStructLogs_step.
  destruct (stepOp structLog) as [op|] eqn:Hop; [|by apply stepOp_None in Hop].
  apply stepOp_Some in Hop as [_ ->]. by rewrite Hmem.
Qed.

Lemma storage_field_presence_witness :
  @buildStructLogs tightRuntime [stepStore] defaultTraceConfig = Ok [storeEntry]
  ∧ ∃ storage,
      Storage storeEntry = Some storage
      ∧ storage !! hashHex (sampleHash Byte.x01) = Some (hashHex (sampleHash Byte.x02)).
Proof.
  assert (¬ dropped stepStore) as Hkept by (intros [Hop _]; discriminate Hop).
  pose proof (@storage_field_presence tightRuntime [stepStore] defaultTraceConfig) as Hall.
  assert (@buildStructLogs tightRuntime [stepStore] defaultTraceConfig
          = Ok [storeEntry]) as Hrun.
  { unfold buildStructLogs, buildStructLogs_loop.
    rewrite (@step_without_memory tightRuntime defaultTraceConfig [] fakevm.NewMemory
               stepStore eq_refl Hkept).
    reflexivity. }
  rewrite Hrun in Hall. rewrite filter_cons_True, filter_nil in Hall by exact Hkept.
  apply Forall2_cons_1 in Hall as [[Hpresent Hmap] _].
  assert (instrumentation.Storage stepStore ≠ ∅) as Hne by apply insert_non_empty.
  destruct (proj2 Hpresent (conj eq_refl Hne)) as [storage Hs].
  split; [exact Hrun|]. exists storage. split; [exact Hs|].
  apply (Hmap storage Hs). apply lookup_singleton_eq.
Defined.

Lemma tracer_checked_before_tracing_witness :
  @buildTraceTransaction tightRuntime sampleState (sampleHash Byte.x01) (Some bogusConfig)
  = ([], Ok (None, Some (types.NewRPCError types.DefaultErrorCode "invalid tracer"))).
Proof.
  apply (@tracer_checked_before_tracing tightRuntime sampleState
           (sampleHash Byte.x01) (Some bogusConfig)).
  intros Hvalid%tracerRefused_spec. vm_compute in Hvalid. discriminate Hvalid.
Defined.

Example tracer_samples :
  tracerRefused {| DisableStorage := false; DisableStack := false; EnableMemory := false;
                   EnableReturnData := false; Tracer := Some "callTracer";
                   TracerConfig := [] |} = false
  ∧ tracerRefused {| DisableStorage := false; DisableStack := false; EnableMemory := false;
                     EnableReturnData := false;
                     Tracer := Some "{ result: function(){}, fault: function(){} }";
                     TracerConfig := [] |} = false
  ∧ tracerRefused bogusConfig = true.
Proof. vm_compute. done. Qed.

Lemma block_trace_error_not_returned_witness :
  (@buildTraceBlock tightRuntime sampleState
     [sampleTx Byte.x01; sampleTx Byte.x02; sampleTx Byte.x03] None).2
  = Ok (None, Some (blockTraceError (sampleTx Byte.x02)))
  ∧ (@TraceBlockByNumber tightRuntime sampleState 7%Z None).2 = Ok (None, None)
  ∧ (@TraceBlockByHash tightRuntime sampleState (sampleHash Byte.xff) None).2
    = Ok (None, None).
Proof.
  destruct (@block_trace_error_not_returned tightRuntime sampleState None
              {| ethTypes.Transactions :=
                   [sampleTx Byte.x01; sampleTx Byte.x02; sampleTx Byte.x03] |}
              [sampleTx Byte.x01] (sampleTx Byte.x02) [sampleTx Byte.x03])
    as (Hblock & Hnumber & Hhash).
  - reflexivity.
  - constructor; [|constructor]. eexists _, _. vm_compute. reflexivity.
  - eexists _, _, _. vm_compute. reflexivity.
  - split; [exact Hblock|]. split.
    + apply (Hnumber 7%Z 7%N); reflexivity.
    + apply (Hhash (sampleHash Byte.xff)). reflexivity.
Defined.

Example block_trace_sample :
  (@buildTraceBlock tightRuntime sampleState
     [sampleTx Byte.x01; sampleTx Byte.x02; sampleTx Byte.x03] None).2
  = Ok (None,
        Some (types.NewRPCError types.DefaultErrorCode
                "failed to get trace for transaction 0x0202020202020202020202020202020202020202020202020202020202020202")).
Proof. vm_compute. reflexivity. Qed.

Lemma sample_prepare :
  @TraceBatchByNumber_prepare sampleState 3%Z
  = ([CallGetNumericBatchNumber 3%Z; CallGetBatchByNumber 3;
      CallGetTransactionsByBatchNumber 3;
      CallGetTransactionReceipt (sampleHash Byte.x01);
      CallGetTransactionReceipt (sampleHash Byte.x02);
      CallGetTransactionReceipt (sampleHash Byte.x03);
      CallGetTransactionReceipt (sampleHash Byte.x04);
      CallGetTransactionReceipt (sampleHash Byte.x05)],
     Ok (Gather 3 sampleReceipts)).
Proof. vm_compute. reflexivity. Qed.

Lemma sample_pairs :
  omap (@tracePair sampleRemote (@rpcURL sampleNetURL sampleRequest) None) sampleReceipts
  = [samplePair Byte.x01; samplePair Byte.x03; samplePair Byte.x05].
Proof. vm_compute. reflexivity. Qed.

Lemma batch_returns_successful_pairs_witness :
  ∃ traces,
    (Some [samplePair Byte.x01; samplePair Byte.x03; samplePair Byte.x05], None)
    = (Some traces, @None types.RPCError)
    ∧ traces ≡ₚ [samplePair Byte.x01; samplePair Byte.x03; samplePair Byte.x05].
Proof.
  rewrite <- sample_pairs.
  eapply (@batch_returns_successful_pairs sampleState sampleRemote sampleNetURL
            sampleRequest 3%Z None _ 3%N sampleReceipts _ _ sample_prepare).
  - apply (@batch_can_complete sampleState sampleRemote sampleNetURL
             sampleRequest 3%Z None _ 3%N sampleReceipts sample_prepare).
  - discriminate.
Defined.

Lemma fan_out_target_witness :
  @rpcURL sampleNetURL sampleRequest
  = @URL_String sampleNetURL
      {| url.Scheme := "https"; url.Host := "node.example:8545"; url.Path := "/" |}.
Proof.
  eapply (@fan_out_target sampleState sampleRemote sampleNetURL sampleRequest 3%Z None _ _
           (@batch_can_complete sampleState sampleRemote sampleNetURL
              sampleRequest 3%Z None _ 3%N sampleReceipts sample_prepare)
           (@rpcURL sampleNetURL sampleRequest) "debug_traceTransaction"
           (common.String (sampleHash Byte.x01)) None).
  apply elem_of_app. right. left.
Defined.

Example fan_out_sample :
  @rpcURL sampleNetURL sampleRequest = "https://node.example:8545/".
Proof. reflexivity. Qed.





(** * Further properties of the formatter *)

(** ** Opcodes and stacks *)

Lemma kept_filter (steps : list instrumentation.StructLog) :
  Forall (λ s, ¬ dropped s) (filter (λ s, ¬ dropped s) steps).
Proof. apply Forall_forall. intros s Hs. by apply list_elem_of_filter in Hs as [? _]. Qed.

(** X1. The output of a pass never holds an entry with opcode SHA3 (the
    formatter writes KECCAK256 for it) and never an entry with opcode STOP at
    program counter 0; the pass can stop short of an output only when memory
    is rendered. *)
Theorem reported_opcodes `{GoRuntime} stateStructLogs cfg :
  match buildStructLogs stateStructLogs cfg with
  | Ok structLogs =>
      Forall (λ e, Op e ≠ "SHA3" ∧ ¬ (Op e = "STOP" ∧ Pc e = 0%N)) structLogs
  | Panic _ => EnableMemory cfg = true
  end.
Proof.
  pose proof (buildStructLogs_entries stateStructLogs cfg) as Hall.
  destruct (buildStructLogs stateStructLogs cfg) as [structLogs|p]; [|done].
  pose proof (kept_filter stateStructLogs) as Hkept.
  induction Hall as [|s e kept logs [(Hpc & Hop & _) _] _ IH]; [done|].
  apply Forall_cons in Hkept as [Hs Hkept]. constructor; [|by apply IH].
  rewrite Hop, Hpc. case_decide as Hsha.
  - split; [done|]. by intros [? _].
  - split; [done|]. intros Hstop. by apply Hs.
Qed.

Lemma omap_id_filter {A} (l : list (option A)) :
  Some <$> omap id l = filter is_Some l.
Proof.
  induction l as [|[a|] l IH]; [done| |].
  - cbn [omap list_omap id]. rewrite filter_cons_True by (by eexists).
    cbn. by rewrite <- IH.
  - cbn [omap list_omap id]. rewrite filter_cons_False by (by intros [? ?]). done.
Qed.

(** X2. With the stack disabled no entry has a stack field. Otherwise every
    entry has one, and it lists the entries of the raw stack that are not
    nil, in their order and with nothing else; a raw stack without such
    entries gives an empty list, not a missing field. *)
Theorem stack_field_lists_non_nil `{GoRuntime} stateStructLogs cfg :
  match buildStructLogs stateStructLogs cfg with
  | Ok structLogs =>
      Forall2 (λ structLog e,
                 if DisableStack cfg then Stack e = None
                 else ∃ stack, Stack e = Some stack
                      ∧ Some <$> stack = filter is_Some (instrumentation.Stack structLog))
        (filter (λ s, ¬ dropped s) stateStructLogs) structLogs
  | Panic _ => EnableMemory cfg = true
  end.
Proof.
  pose proof (buildStructLogs_entries stateStructLogs cfg) as Hall.
  destruct (buildStructLogs stateStructLogs cfg) as [structLogs|p]; [|done].
  eapply Forall2_impl; [exact Hall|].
  intros s e (_ & _ & Hstack). unfold stackField in Hstack.
  destruct (DisableStack cfg); [done|].
  eexists. split; [exact Hstack|]. apply omap_id_filter.
Qed.

(** ** Passes without memory *)

Lemma loop_without_memory cfg steps :
  EnableMemory cfg = false →
  ∃ new, Forall (λ e, Memory e = None) new ∧
    ∀ (runtime : GoRuntime) structLogs memory,
      @buildStructLogs_loop runtime cfg steps (structLogs, memory)
      = Ok (structLogs ++ new, memory).
Proof.
  intros Hmem. induction steps as [|s steps (new & Hnone & IH)].
  - exists []. split; [done|]. intros. cbn. by rewrite app_nil_r.
  - destruct (decide (dropped s)) as [Hdrop|Hkept].
    + exists new. split; [done|]. intros runtime structLogs memory.
      cbn [buildStructLogs_loop]. rewrite step_dropped by done.
      cbn [mbind result_bind]. apply IH.
    + eexists (_ :: new). split; cycle 1.
      * intros runtime structLogs memory. cbn [buildStructLogs_loop].
        rewrite (@step_without_memory runtime cfg structLogs memory s Hmem Hkept).
        cbn [mbind result_bind]. rewrite IH, <- app_assoc. reflexivity.
      * constructor; [reflexivity|exact Hnone].
Qed.

(** X3. When memory is not enabled the formatter returns on every sequence
    of steps, no entry has a memory field, and the output does not depend on
    the room the allocator leaves behind a buffer. *)
Theorem no_memory_rendering `{GoRuntime} stateStructLogs cfg :
  EnableMemory cfg = false →
  ∃ structLogs,
    buildStructLogs stateStructLogs cfg = Ok structLogs
    ∧ Forall (λ e, Memory e = None) structLogs
    ∧ ∀ runtime : GoRuntime, @buildStructLogs runtime stateStructLogs cfg = Ok structLogs.
Proof.
  intros Hmem. destruct (loop_without_memory cfg stateStructLogs Hmem) as (new & Hnone & Hloop).
  exists new. unfold buildStructLogs. split; [|split; [done|intros runtime]].
  - by rewrite Hloop.
  - by rewrite Hloop.
Qed.

Lemma no_memory_rendering_witness :
  ∃ structLogs,
    @buildStructLogs tightRuntime [step70; stepOutside] defaultTraceConfig = Ok structLogs
    ∧ Forall (λ e, Memory e = None) structLogs
    ∧ ∀ runtime : GoRuntime,
        @buildStructLogs runtime [step70; stepOutside] defaultTraceConfig = Ok structLogs.
Proof.
  apply (@no_memory_rendering tightRuntime [step70; stepOutside] defaultTraceConfig).
  reflexivity.
Defined.

(** X4. When memory is not enabled the formatter carries nothing from step
    to step: the output for two sequences of steps put together is the
    output for the first followed by the output for the second. *)
Theorem passes_concatenate `{GoRuntime} steps1 steps2 cfg :
  EnableMemory cfg = false →
  buildStructLogs (steps1 ++ steps2) cfg
  = (structLogs1 ← buildStructLogs steps1 cfg;
     structLogs2 ← buildStructLogs steps2 cfg;
     Ok (structLogs1 ++ structLogs2)).
Proof.
  intros Hmem.
  destruct (loop_without_memory cfg steps1 Hmem) as (new1 & _ & Hloop1).
  destruct (loop_without_memory cfg steps2 Hmem) as (new2 & _ & Hloop2).
  unfold buildStructLogs. rewrite loop_app, !Hloop1.
  cbn [mbind result_bind]. rewrite !Hloop2. reflexivity.
Qed.

Lemma passes_concatenate_witness :
  @buildStructLogs tightRuntime ([stepSha3; stepStore] ++ [stepZero]) defaultTraceConfig
  = (structLogs1 ← @buildStructLogs tightRuntime [stepSha3; stepStore] defaultTraceConfig;
     structLogs2 ← @buildStructLogs tightRuntime [stepZero] defaultTraceConfig;
     Ok (structLogs1 ++ structLogs2)).
Proof.
  apply (@passes_concatenate tightRuntime [stepSha3; stepStore] [stepZero]
           defaultTraceConfig).
  reflexivity.
Defined.

(** ** Passes with memory *)

Lemma step_with_memory `{GoRuntime} cfg structLogs memory structLog memory' memoryArray :
  EnableMemory cfg = true → ¬ dropped structLog →
  stepMemory memory structLog = Ok (memory', memoryArray) →
  ∃ e, buildStructLogs_step cfg (structLogs, memory) structLog
       = Ok (structLogs ++ [e], memory')
       ∧ Memory e = Some memoryArray.
Proof.
  intros Hmem Hkept Hstep. unfold buildStructLogs_step.
  destruct (stepOp structLog) as [op|] eqn:Hop; [|by apply stepOp_None in Hop].
  rewrite Hmem, Hstep. cbn [mbind result_bind]. eexists. split; reflexivity.
Qed.

Lemma step_memory_panic `{GoRuntime} cfg acc structLog p :
  EnableMemory cfg = true → ¬ dropped structLog →
  stepMemory acc.2 structLog = Panic p →
  buildStructLogs_step cfg acc structLog = Panic p.
Proof.
  intros Hmem Hkept Hstep. destruct acc as [structLogs memory].
  unfold buildStructLogs_step.
  destruct (stepOp structLog) as [op|] eqn:Hop; [|by apply stepOp_None in Hop].
  cbn in Hstep. by rewrite Hmem, Hstep.
Qed.

Lemma loop_memory_fields `{GoRuntime} cfg steps :
  EnableMemory cfg = true →
  Forall writeWithinSize steps → Forall chunkable steps →
  ∀ structLogs memory, ∃ new memory',
    buildStructLogs_loop cfg steps (structLogs, memory) = Ok (structLogs ++ new, memory')
    ∧ Forall2 (λ structLog e,
                 ∃ memoryArray,
                   Memory e = Some memoryArray
                   ∧ length memoryArray
                     = chunkCount (Z.to_nat (instrumentation.MemorySize structLog))
                   ∧ Forall (λ c, String.length c = 64) memoryArray)
        (filter (λ s, ¬ dropped s) steps) new.
Proof.
  intros Hmem Hwithin Hroom.
  induction steps as [|s steps IH]; intros structLogs memory.
  - exists [], memory. split; [cbn; by rewrite app_nil_r|constructor].
  - apply Forall_cons in Hwithin as [Hs Hwithin].
    apply Forall_cons in Hroom as [Hc Hroom].
    destruct (decide (dropped s)) as [Hdrop|Hkept].
    + destruct (IH Hwithin Hroom structLogs memory) as (new & memory' & Hloop & Hall).
      exists new, memory'. split.
      * cbn [buildStructLogs_loop]. rewrite step_dropped by done. exact Hloop.
      * rewrite filter_cons_False by (by intros ?). exact Hall.
    + assert (∃ memory1 memoryArray,
                stepMemory memory s = Ok (memory1, memoryArray)
                ∧ length memoryArray
                  = chunkCount (Z.to_nat (instrumentation.MemorySize s))
                ∧ Forall (λ c, String.length c = 64) memoryArray)
        as (memory1 & memoryArray & Hstep & Hlen & Hwidth).
      { destruct (decide (0 < instrumentation.MemorySize s)%Z) as [Hpos|Hzero].
        - destruct (stepMemory_chunks memory s Hs Hc Hpos) as (memory1 & Hl & Hstep & Hw).
          eexists _, _. split; [exact Hstep|]. split; [|exact Hw].
          by rewrite length_map, length_seq, Hl.
        - destruct (stepMemory_within memory s Hs) as (memory1 & _ & Hstep).
          rewrite decide_False in Hstep by done.
          eexists _, _. split; [exact Hstep|]. split; [|constructor].
          destruct Hs as [[? ?] _].
          replace (instrumentation.MemorySize s) with 0%Z by lia. done. }
      destruct (step_with_memory cfg structLogs memory s memory1 memoryArray
                  Hmem Hkept Hstep) as (e & Hround & He).
      destruct (IH Hwithin Hroom (structLogs ++ [e]) memory1)
        as (new & memory' & Hloop & Hall).
      exists (e :: new), memory'. split.
      * cbn [buildStructLogs_loop]. rewrite Hround. cbn [mbind result_bind].
        rewrite Hloop, <- app_assoc. reflexivity.
      * rewrite filter_cons_True by done. constructor; [|exact Hall].
        by exists memoryArray.
Qed.

(** X5. With memory enabled, for steps whose writes lie inside the sizes
    they report and whose snapshots have room for their last chunk (always
    so when the size is a multiple of 32), the formatter returns, and the
    memory field of every entry holds one string of 64 hex digits for every
    32 bytes of the reported size, rounded up; for size 0 it is the empty
    list. *)
Theorem memory_field_chunks `{GoRuntime} stateStructLogs cfg :
  EnableMemory cfg = true →
  Forall writeWithinSize stateStructLogs →
  Forall chunkable stateStructLogs →
  ∃ structLogs,
    buildStructLogs stateStructLogs cfg = Ok structLogs
    ∧ Forall2 (λ structLog e,
                 ∃ memoryArray,
                   Memory e = Some memoryArray
                   ∧ length memoryArray
                     = chunkCount (Z.to_nat (instrumentation.MemorySize structLog))
                   ∧ Forall (λ c, String.length c = 64) memoryArray)
        (filter (λ s, ¬ dropped s) stateStructLogs) structLogs.
Proof.
  intros Hmem Hwithin Hroom.
  destruct (loop_memory_fields cfg stateStructLogs Hmem Hwithin Hroom [] fakevm.NewMemory)
    as (new & memory' & Hloop & Hall).
  exists new. unfold buildStructLogs. by rewrite Hloop.
Qed.

Lemma memory_field_chunks_witness :
  Forall writeWithinSize [step64; stepZero; stepLoad]
  ∧ Forall (@chunkable tightRuntime) [step64; stepZero; stepLoad]
  ∧ ∃ structLogs,
      @buildStructLogs tightRuntime [step64; stepZero; stepLoad] memoryConfig
      = Ok structLogs
      ∧ Forall2 (λ structLog e,
                   ∃ memoryArray,
                     Memory e = Some memoryArray
                     ∧ length memoryArray
                       = chunkCount (Z.to_nat (instrumentation.MemorySize structLog))
                     ∧ Forall (λ c, String.length c = 64) memoryArray)
          (filter (λ s, ¬ dropped s) [step64; stepZero; stepLoad]) structLogs.
Proof.
  assert (Forall writeWithinSize [step64; stepZero; stepLoad]) as Hwithin.
  { repeat constructor; cbn; lia. }
  assert (Forall (@chunkable tightRuntime) [step64; stepZero; stepLoad]) as Hroom.
  { repeat constructor; vm_compute; lia. }
  split; [exact Hwithin|]. split; [exact Hroom|].
  exact (@memory_field_chunks tightRuntime [step64; stepZero; stepLoad] memoryConfig
           eq_refl Hwithin Hroom).
Defined.

(** X6. With memory enabled, a pass over one kept step that reports a
    positive memory size and writes inside it returns exactly when the
    capacity of the snapshot reaches the next multiple of 32 at or above the
    size; otherwise the read of the last chunk is out of range and the
    formatter panics. *)
Theorem chunk_loop_needs_room `{GoRuntime} cfg structLog :
  EnableMemory cfg = true →
  ¬ dropped structLog →
  writeWithinSize structLog →
  (0 < instrumentation.MemorySize structLog)%Z →
  let n := Z.to_nat (instrumentation.MemorySize structLog) in
  if decide (32 * chunkCount n ≤ n + spareCapacity n)
  then ∃ structLogs, buildStructLogs [structLog] cfg = Ok structLogs
  else buildStructLogs [structLog] cfg
       = Panic (PanicSliceBounds (32 * chunkCount n) (n + spareCapacity n)).
Proof.
  intros Hmem Hkept Hwithin Hpos n.
  destruct (stepMemory_within fakevm.NewMemory structLog Hwithin)
    as (memory' & Hlen & Hstep).
  rewrite decide_True in Hstep by done.
  unfold buildStructLogs. cbn [buildStructLogs_loop].
  destruct (decide (32 * chunkCount n ≤ n + spareCapacity n)) as [Hroom|Hroom].
  - rewrite (decide_True (P := chunkable structLog)) in Hstep by exact Hroom.
    destruct (step_with_memory cfg [] fakevm.NewMemory structLog _ _ Hmem Hkept Hstep)
      as (e & -> & _).
    cbn [mbind result_bind]. eauto.
  - rewrite (decide_False (P := chunkable structLog)) in Hstep by exact Hroom.
    rewrite (step_memory_panic cfg ([], fakevm.NewMemory) structLog _ Hmem Hkept Hstep).
    cbn [mbind result_bind]. by rewrite Data_cap, Hlen.
Qed.

Lemma chunk_loop_needs_room_witness :
  @buildStructLogs sizeClassRuntime [step40] memoryConfig
  = Panic (PanicSliceBounds 64 48).
Proof.
  apply (@chunk_loop_needs_room sizeClassRuntime memoryConfig step40).
  - reflexivity.
  - intros [Hop _]. discriminate Hop.
  - split; cbn; lia.
  - reflexivity.
Defined.

Lemma Resize_same m (size : N) : fakevm.Len m = N.to_nat size → fakevm.Resize m size = m.
Proof.
  intros Hlen. unfold fakevm.Resize. rewrite decide_False by lia.
  destruct m as [store]. unfold fakevm.Len in Hlen. cbn in *.
  by rewrite <- Hlen, firstn_all.
Qed.

Lemma stepMemory_Len `{GoRuntime} memory structLog memory' memoryArray :
  (0 < instrumentation.MemorySize structLog)%Z →
  stepMemory memory structLog = Ok (memory', memoryArray) →
  fakevm.Len memory' = N.to_nat (uint64 (instrumentation.MemorySize structLog))
  ∧ memoryArrayLoop (slice.len (fakevm.Data memory')) (fakevm.Data memory') 0 []
    = Ok memoryArray.
Proof.
  intros Hpos. unfold stepMemory.
  pose proof (Resize_Len memory (uint64 (instrumentation.MemorySize structLog))) as Hlen.
  set (resized := fakevm.Resize memory _) in *.
  destruct (decide (0 < instrumentation.MemorySize structLog)%Z) as [_|?]; [|done].
  destruct (decide (0 < length (instrumentation.Memory structLog))) as [Hwrite|Hwrite].
  - destruct (fakevm.Set_ resized _ _ _) as [written|p] eqn:Hset;
      cbn [mbind result_bind]; [|done].
    apply Set_Len in Hset.
    destruct (memoryArrayLoop _ _ _ _) as [arr|p] eqn:Harr; cbn [mbind result_bind]; [|done].
    intros [= <- <-]. split; [congruence|done].
  - cbn [mbind result_bind].
    destruct (memoryArrayLoop _ _ _ _) as [arr|p] eqn:Harr; cbn [mbind result_bind]; [|done].
    intros [= <- <-]. done.
Qed.

(** X7. The memory image is carried from step to step: when two kept steps
    follow each other, the second reports the positive size of the first and
    brings no write, the entry of the second has the memory field of the
    first. *)
Theorem memory_carried_over `{GoRuntime} cfg structLogs memory s1 s2 structLogs' memory' :
  EnableMemory cfg = true →
  ¬ dropped s1 → ¬ dropped s2 →
  (0 < instrumentation.MemorySize s1)%Z →
  instrumentation.MemorySize s2 = instrumentation.MemorySize s1 →
  instrumentation.Memory s2 = [] →
  buildStructLogs_loop cfg [s1; s2] (structLogs, memory) = Ok (structLogs', memory') →
  ∃ e1 e2, structLogs' = structLogs ++ [e1; e2] ∧ Memory e2 = Memory e1
           ∧ is_Some (Memory e1).
Proof.
  intros Hmem Hk1 Hk2 Hpos Hsize Hnone Hrun.
  cbn [buildStructLogs_loop] in Hrun.
  destruct (buildStructLogs_step cfg (structLogs, memory) s1)
    as [[logs1 memory1]|p] eqn:Hstep1; [|done].
  cbn [mbind result_bind] in Hrun.
  destruct (buildStructLogs_step cfg (logs1, memory1) s2)
    as [[logs2 memory2]|p] eqn:Hstep2; [|done].
  cbn [mbind result_bind] in Hrun. injection Hrun as <- <-.
  apply step_kept_inv in Hstep1 as (e1 & -> & _ & He1); [|done].
  apply step_kept_inv in Hstep2 as (e2 & -> & _ & He2); [|done].
  rewrite Hmem in He1, He2.
  destruct He1 as (arr1 & Hm1 & He1). destruct He2 as (arr2 & Hm2 & He2).
  exists e1, e2. split; [by rewrite <- app_assoc|]. split; [|by rewrite He1].
  rewrite He1, He2. f_equal.
  apply stepMemory_Len in Hm1 as [Hlen1 Harr1]; [|done].
  unfold stepMemory in Hm2. rewrite Hsize, Hnone in Hm2.
  rewrite Resize_same in Hm2 by done.
  rewrite decide_False in Hm2 by (cbn; lia).
  cbn [mbind result_bind] in Hm2. rewrite decide_True in Hm2 by done.
  rewrite Harr1 in Hm2. cbn in Hm2. by injection Hm2 as _ <-.
Qed.

Lemma memory_carried_over_witness :
  match @buildStructLogs_loop tightRuntime memoryConfig [step64; stepLoad]
          ([], fakevm.NewMemory) with
  | Ok (structLogs, _) =>
      ∃ e1 e2, structLogs = [] ++ [e1; e2] ∧ Memory e2 = Memory e1
               ∧ is_Some (Memory e1)
  | Panic _ => False
  end.
Proof.
  destruct (@buildStructLogs_loop tightRuntime memoryConfig [step64; stepLoad]
              ([], fakevm.NewMemory)) as [[structLogs memory]|p] eqn:Hrun.
  - apply (@memory_carried_over tightRuntime memoryConfig [] fakevm.NewMemory
             step64 stepLoad structLogs memory).
    + reflexivity.
    + intros [Hop _]. discriminate Hop.
    + intros [Hop _]. discriminate Hop.
    + reflexivity.
    + reflexivity.
    + reflexivity.
    + exact Hrun.
  - vm_compute in Hrun. discriminate Hrun.
Defined.

(** ** The storage loop *)

Lemma storageToHex_size (Storage : gmap common.Hash common.Hash) :
  size (storageToHex Storage) = size Storage.
Proof.
  rewrite storageToHex_kmap.
  induction Storage as [|k v Storage Hk IH] using map_ind.
  - by rewrite fmap_empty, kmap_empty, !map_size_empty.
  - rewrite fmap_insert, kmap_insert by apply _.
    rewrite !map_size_insert_None; [by rewrite IH|done|].
    by rewrite lookup_kmap, lookup_fmap, Hk by apply _.
Qed.

(** X27. Go visits the writes of a step in an order of its own choosing:
    whatever order the storage loop visits them in, it builds the same map,
    and the map has one entry for every write. *)
Theorem storage_order_irrelevant (Storage : gmap common.Hash common.Hash) pairs :
  pairs ≡ₚ map_to_list Storage →
  foldl (λ storage '(storageKey, storageValue),
           <[hex.EncodeToString (common.Bytes storageKey)
             := hex.EncodeToString (common.Bytes storageValue)]> storage) ∅ pairs
  = storageToHex Storage
  ∧ size (storageToHex Storage) = length pairs.
Proof.
  intros Hperm. split; [by apply storageToHex_order|].
  rewrite storageToHex_size, Hperm. by rewrite length_map_to_list.
Qed.

Lemma storage_order_irrelevant_witness :
  foldl (λ storage '(storageKey, storageValue),
           <[hex.EncodeToString (common.Bytes storageKey)
             := hex.EncodeToString (common.Bytes storageValue)]> storage) ∅
    [(sampleHash Byte.x01, sampleHash Byte.x02)]
  = storageToHex (instrumentation.Storage stepStore)
  ∧ size (storageToHex (instrumentation.Storage stepStore)) = 1.
Proof.
  apply (storage_order_irrelevant (instrumentation.Storage stepStore)
           [(sampleHash Byte.x01, sampleHash Byte.x02)]).
  unfold stepStore. cbn [instrumentation.Storage].
  rewrite map_to_list_singleton. reflexivity.
Defined.

(** * Further properties of the trace of one transaction *)

(** The paths through [buildTraceTransaction], one goal for each. *)
Ltac trace_paths hash cfg :=
  unfold buildTraceTransaction;
  fold (stateConfigOf (default defaultTraceConfig cfg));
  destruct (tracerRefused (default defaultTraceConfig cfg)) eqn:Hrefused;
  [|set (debug := CallDebugTransaction hash _);
    destruct (DebugTransaction hash (stateConfigOf (default defaultTraceConfig cfg)))
      as [result [err|]] eqn:Hdebug;
    [destruct (unwrapsToNotFound err) eqn:Hnf
    |cbn [state.Tracer stateConfigOf];
     destruct (Tracer (default defaultTraceConfig cfg)) as [tracer|] eqn:Htracer;
     [destruct (String.eqb tracer "") eqn:Hempty|];
     destruct result as [result|];
     try destruct (bool_decide (0 < length (state.ExecutorTraceResult result))) eqn:Hraw;
     destruct (GetTransactionReceipt hash) as [[receipt|] [rerr|]] eqn:Hreceipt;
     try destruct (buildStructLogs (state.StructLogs result)
                     (default defaultTraceConfig cfg)) as [structLogs|p] eqn:Hlogs]];
  cbn -[buildStructLogs];
  try match goal with Hx : unwrapsToNotFound _ = _ |- _ => rewrite Hx end;
  try match goal with Hx : bool_decide _ = _ |- _ => rewrite Hx end;
  cbn -[buildStructLogs];
  try match goal with Hx : buildStructLogs _ _ = _ |- _ => rewrite Hx end;
  cbn -[buildStructLogs].

Section TransactionFacts.
Context `{GoRuntime} `{StateInterface}.

(** X8. Whenever [buildTraceTransaction] returns, it returns either a
    result and no error, or no result and an error whose message is one of
    "invalid tracer", "transaction not found", "failed to get trace" and
    "failed to tx receipt": the cause of a failure is never part of the
    answer. It can only stop without an answer on a nil pointer of the
    state or in the rendering of memory. *)
Theorem trace_answers hash cfg :
  match (buildTraceTransaction hash cfg).2 with
  | Ok (Some _, None) => True
  | Ok (None, Some e) =>
      e ∈ types.NewRPCError types.DefaultErrorCode <$>
            ["invalid tracer"; "transaction not found"; "failed to get trace";
             "failed to tx receipt"]
  | Ok _ => False
  | Panic p =>
      p = PanicNilDereference ∨ EnableMemory (default defaultTraceConfig cfg) = true
  end.
Proof.
  pose proof (buildStructLogs_entries) as Hentries.
  trace_paths hash cfg; try (by auto);
    try (by repeat first [apply list_elem_of_here|apply list_elem_of_further]).
  all: specialize (Hentries (state.StructLogs result) (default defaultTraceConfig cfg));
    rewrite Hlogs in Hentries; by right.
Qed.

(** X9. [buildTraceTransaction] asks the state at most twice: nothing when
    the tracer is refused, else for the trace, and then at most for the
    receipt of the same transaction, which it only does when the trace
    came without an error. *)
Theorem trace_requests hash cfg :
  let traceCfg := default defaultTraceConfig cfg in
  let sent := (buildTraceTransaction hash cfg).1 in
  (sent = [] ∧ tracerRefused traceCfg = true)
  ∨ (sent = [CallDebugTransaction hash (stateConfigOf traceCfg)]
     ∧ tracerRefused traceCfg = false)
  ∨ (sent = [CallDebugTransaction hash (stateConfigOf traceCfg);
             CallGetTransactionReceipt hash]
     ∧ tracerRefused traceCfg = false
     ∧ (DebugTransaction hash (stateConfigOf traceCfg)).2 = None).
Proof.
  intros traceCfg sent. subst traceCfg sent.
  trace_paths hash cfg; try subst debug; try rewrite Hdebug; auto.
Qed.

(** X10. The trace the executor made itself is the answer exactly when the
    request names a tracer that is let through and is not the empty text,
    the state gives the trace without an error, and the executor's trace
    is not empty. Then nothing more is asked of the state and the steps
    are not formatted. *)
Theorem executor_trace_returned hash cfg raw :
  let traceCfg := default defaultTraceConfig cfg in
  buildTraceTransaction hash cfg
  = ([CallDebugTransaction hash (stateConfigOf traceCfg)],
     Ok (Some (ExecutorTrace raw), None))
  ↔ tracerRefused traceCfg = false
    ∧ (∃ tracer, Tracer traceCfg = Some tracer ∧ tracer ≠ "")
    ∧ raw ≠ []
    ∧ ∃ result,
        DebugTransaction hash (stateConfigOf traceCfg) = (Some result, None)
        ∧ state.ExecutorTraceResult result = raw.
Proof.
  intros traceCfg. subst traceCfg. split.
  - trace_paths hash cfg; intros Hrun; try done; injection Hrun as <-;
      apply bool_decide_eq_true in Hraw;
      (split; [done|]);
      (split; [exists tracer; split; [done|]; intros ->; cbn in Hempty; done|]);
      (split; [intros Hnil; rewrite Hnil in Hraw; cbn in Hraw; lia|]);
      by exists result.
  - intros (Hrefused & (tracer & Htracer & Hnamed) & Hraw & result & Hdebug & <-).
    unfold buildTraceTransaction.
    fold (stateConfigOf (default defaultTraceConfig cfg)).
    rewrite Hrefused, Hdebug. cbn. rewrite Htracer.
    apply String.eqb_neq in Hnamed. rewrite Hnamed. cbn.
    rewrite bool_decide_true; [done|].
    destruct (state.ExecutorTraceResult result); [done|cbn; lia].
Qed.

(** X11. When [buildTraceTransaction] answers with a formatted trace, it
    has asked for the trace and then for the receipt; the gas is the gas
    the state reports as used, the trace is marked failed exactly when the
    status of the receipt is 0, the return value is present exactly when
    return data is enabled and is then the hex text of the returned bytes,
    and the entries are the output of the formatter on the steps. *)
Theorem trace_response_fields hash cfg :
  let traceCfg := default defaultTraceConfig cfg in
  match buildTraceTransaction hash cfg with
  | (sent, Ok (Some (TransactionTrace resp), err)) =>
      err = None
      ∧ sent = [CallDebugTransaction hash (stateConfigOf traceCfg);
                CallGetTransactionReceipt hash]
      ∧ ∃ result receipt,
          DebugTransaction hash (stateConfigOf traceCfg) = (Some result, None)
          ∧ GetTransactionReceipt hash = (Some receipt, None)
          ∧ tr_Gas resp = state.GasUsed result
          ∧ (tr_Failed resp = true ↔ ethTypes.Status receipt = 0%N)
          ∧ tr_ReturnValue resp
            = (if EnableReturnData traceCfg
               then Some (hex.EncodeToString (state.ReturnValue result))
               else None)
          ∧ buildStructLogs (state.StructLogs result) traceCfg
            = Ok (tr_StructLogs resp)
  | _ => True
  end.
Proof.
  intros traceCfg. subst traceCfg.
  trace_paths hash cfg; try done.
  all: split; [done|]; split; [done|]; exists result, receipt;
    (split; [done|]); (split; [done|]); (split; [done|]);
    (split; [apply bool_decide_eq_true|]); done.
Qed.

(** X12. When the state answers the request for the trace with an error,
    [buildTraceTransaction] returns no result and "transaction not found"
    if the error is or wraps the not-found error, "failed to get trace"
    otherwise; the receipt is not asked for. *)
Theorem trace_lookup_errors hash cfg result err :
  let traceCfg := default defaultTraceConfig cfg in
  tracerRefused traceCfg = false →
  DebugTransaction hash (stateConfigOf traceCfg) = (result, Some err) →
  buildTraceTransaction hash cfg
  = ([CallDebugTransaction hash (stateConfigOf traceCfg)],
     Ok (None, Some (types.NewRPCError types.DefaultErrorCode
                       (if unwrapsToNotFound err then "transaction not found"
                        else "failed to get trace")))).
Proof.
  intros traceCfg Hrefused Hdebug. subst traceCfg.
  unfold buildTraceTransaction.
  fold (stateConfigOf (default defaultTraceConfig cfg)).
  rewrite Hrefused, Hdebug. cbn. by destruct (unwrapsToNotFound err).
Qed.

(** X13. When the trace came without an error and is not answered with the
    executor's own trace, an error of the state on the request for the
    receipt, of whatever kind, gives no result and "failed to tx
    receipt". *)
Theorem receipt_lookup_error hash cfg result receipt err :
  let traceCfg := default defaultTraceConfig cfg in
  tracerRefused traceCfg = false →
  DebugTransaction hash (stateConfigOf traceCfg) = (Some result, None) →
  Tracer traceCfg = None ∨ Tracer traceCfg = Some ""
  ∨ state.ExecutorTraceResult result = [] →
  GetTransactionReceipt hash = (receipt, Some err) →
  buildTraceTransaction hash cfg
  = ([CallDebugTransaction hash (stateConfigOf traceCfg);
      CallGetTransactionReceipt hash],
     Ok (None, Some (types.NewRPCError types.DefaultErrorCode "failed to tx receipt"))).
Proof.
  intros traceCfg Hrefused Hdebug Hplain Hreceipt. subst traceCfg.
  unfold buildTraceTransaction.
  fold (stateConfigOf (default defaultTraceConfig cfg)).
  rewrite Hrefused, Hdebug. cbn -[buildStructLogs].
  destruct Hplain as [->| [->|Hnil]]; cbn -[buildStructLogs].
  - by rewrite Hreceipt.
  - by rewrite Hreceipt.
  - rewrite Hnil. destruct (Tracer _) as [tracer|]; cbn -[buildStructLogs].
    + destruct (negb _); cbn -[buildStructLogs]; by rewrite Hreceipt.
    + by rewrite Hreceipt.
Qed.

(** X28. A request for the trace of a transaction that brings no options
    is served with the default ones: the answer is never the executor's
    own trace, a formatted trace has no return value, every entry has a
    stack field and none has a memory field, and the endpoint cannot stop
    in the formatter, only on a nil pointer handed back by the state. *)
Theorem default_options_trace hash :
  match TraceTransaction hash None with
  | (_, Ok (Some (TransactionTrace resp), _)) =>
      tr_ReturnValue resp = None
      ∧ Forall (λ e, Memory e = None ∧ is_Some (Stack e)) (tr_StructLogs resp)
  | (_, Ok (Some (ExecutorTrace _), _)) => False
  | (_, Ok (None, _)) => True
  | (_, Panic p) => p = PanicNilDereference
  end.
Proof.
  unfold TraceTransaction, NewDbTxScope.
  assert (∀ steps structLogs,
            buildStructLogs steps defaultTraceConfig = Ok structLogs →
            Forall (λ e, Memory e = None ∧ is_Some (Stack e)) structLogs) as Hfields.
  { intros steps structLogs Hrun.
    destruct (loop_without_memory defaultTraceConfig steps eq_refl)
      as (new & Hnone & Hloop).
    pose proof (buildStructLogs_entries steps defaultTraceConfig) as Hall.
    unfold buildStructLogs in Hrun. rewrite Hloop in Hrun. injection Hrun as <-.
    unfold buildStructLogs in Hall. rewrite Hloop in Hall. cbn in Hall.
    apply Forall2_Forall_r
      with (Q := λ e : StructLogRes, is_Some (Stack e)) in Hall.
    - apply Forall_and. done.
    - apply Forall_true. intros structLog e (_ & _ & Hstack).
      rewrite Hstack. by eexists. }
  assert (∀ steps p, buildStructLogs steps defaultTraceConfig ≠ Panic p) as Hreturns.
  { intros steps p Hrun.
    destruct (buildStructLogs_no_memory steps defaultTraceConfig eq_refl) as [? Hok].
    congruence. }
  trace_paths hash (@None traceConfig); try done.
  all: change (default defaultTraceConfig None) with defaultTraceConfig in Hlogs;
    rewrite Hlogs; cbn.
  all: try (split; [done|]; by eapply Hfields).
  all: by apply Hreturns in Hlogs.
Qed.
End TransactionFacts.

Lemma trace_lookup_errors_witness :
  @buildTraceTransaction tightRuntime sampleState (sampleHash Byte.x02) None
  = ([CallDebugTransaction (sampleHash Byte.x02) (stateConfigOf defaultTraceConfig)],
     Ok (None, Some (types.NewRPCError types.DefaultErrorCode "transaction not found")))
  ∧ @buildTraceTransaction tightRuntime tracerState (sampleHash Byte.x04) None
    = ([CallDebugTransaction (sampleHash Byte.x04) (stateConfigOf defaultTraceConfig)],
       Ok (None, Some (types.NewRPCError types.DefaultErrorCode "failed to get trace"))).
Proof.
  split.
  - apply (@trace_lookup_errors tightRuntime sampleState (sampleHash Byte.x02) None
             None ErrNotFound); reflexivity.
  - apply (@trace_lookup_errors tightRuntime tracerState (sampleHash Byte.x04) None
             None (ErrorString "executor down")); reflexivity.
Defined.

Lemma receipt_lookup_error_witness :
  @buildTraceTransaction tightRuntime tracerState (sampleHash Byte.x03) None
  = ([CallDebugTransaction (sampleHash Byte.x03) (stateConfigOf defaultTraceConfig);
      CallGetTransactionReceipt (sampleHash Byte.x03)],
     Ok (None, Some (types.NewRPCError types.DefaultErrorCode "failed to tx receipt"))).
Proof.
  eapply (@receipt_lookup_error tightRuntime tracerState (sampleHash Byte.x03) None).
  - reflexivity.
  - vm_compute. reflexivity.
  - left. reflexivity.
  - vm_compute. reflexivity.
Defined.

(** The executor's trace for transaction 01..01 is handed on although the
    steps that come with it would stop the formatter. *)
Example executor_trace_sample :
  @buildTraceTransaction tightRuntime tracerState (sampleHash Byte.x01)
    (Some tracerConfig)
  = ([CallDebugTransaction (sampleHash Byte.x01) (stateConfigOf tracerConfig)],
     Ok (Some (ExecutorTrace [Byte.x7b; Byte.x7d]), None))
  ∧ (@buildTraceTransaction tightRuntime tracerState (sampleHash Byte.x05)
       (Some tracerConfig)).2
    = Panic (PanicSliceBounds 96 70).
Proof. vm_compute. done. Qed.

Example trace_response_sample :
  (@buildTraceTransaction tightRuntime tracerState (sampleHash Byte.x05)
     (Some returnDataConfig)).2
  = (structLogs ← @buildStructLogs tightRuntime [step70] returnDataConfig;
     Ok (Some (TransactionTrace
                 {| tr_Gas := 21000; tr_Failed := true;
                    tr_ReturnValue := Some "cafe";
                    tr_StructLogs := structLogs |}), None)).
Proof. vm_compute. reflexivity. Qed.

(** * Further properties of the block traces *)

Lemma block_message_differs (text : string) :
  "block " +:+ text ≠ "failed to get block by hash"
  ∧ "failed to get trace for transaction " +:+ text ≠ "failed to get block by hash"
  ∧ "block #" +:+ text ≠ "failed to get block by number"
  ∧ "failed to get trace for transaction " +:+ text ≠ "failed to get block by number".
Proof. repeat split; intros Heq; cbv in Heq; discriminate Heq. Qed.

Section BlockTraces.
Context `{GoRuntime} `{StateInterface}.

Lemma buildTraceBlock_loop_all cfg txs results :
  Forall2 (λ tx trace, (buildTraceTransaction (ethTypes.Hash tx) cfg).2
                       = Ok (trace, None)) txs results →
  ∀ traces,
    buildTraceBlock_loop txs cfg traces
    = (traceCalls cfg txs,
       Ok (Some (traces ++ (mkTraceBlockTransactionResponse <$> results)), None)).
Proof.
  induction 1 as [|tx trace txs results Htx _ IH]; intros traces.
  - cbn. by rewrite app_nil_r.
  - cbn [buildTraceBlock_loop].
    destruct (buildTraceTransaction (ethTypes.Hash tx) cfg) as [sent r] eqn:Hrun.
    cbn in Htx. subst r. unfold traceCalls. rewrite bind_cons, Hrun.
    cbn [mbind M_bind]. rewrite IH. cbn [fmap list_fmap].
    by rewrite <- app_assoc.
Qed.

Lemma buildTraceBlock_loop_failure cfg before tx after e :
  Forall (λ tx', ∃ trace, (buildTraceTransaction (ethTypes.Hash tx') cfg).2
                          = Ok (trace, None)) before →
  (∃ trace, (buildTraceTransaction (ethTypes.Hash tx) cfg).2 = Ok (trace, Some e)) →
  ∀ traces,
    buildTraceBlock_loop (before ++ tx :: after) cfg traces
    = (traceCalls cfg (before ++ [tx]), Ok (None, Some (blockTraceError tx))).
Proof.
  intros Hbefore (trace & Htx).
  induction Hbefore as [|tx' before (trace' & Htx') _ IH]; intros traces.
  - cbn [app buildTraceBlock_loop].
    destruct (buildTraceTransaction (ethTypes.Hash tx) cfg) as [sent r] eqn:Hrun.
    cbn in Htx. subst r. unfold traceCalls. rewrite bind_cons, Hrun. cbn.
    by rewrite !app_nil_r.
  - cbn [app buildTraceBlock_loop].
    destruct (buildTraceTransaction (ethTypes.Hash tx') cfg) as [sent r] eqn:Hrun.
    cbn in Htx'. subst r. unfold traceCalls. rewrite bind_cons, Hrun.
    cbn [mbind M_bind]. by rewrite IH.
Qed.

(** X14. When the trace of every transaction of a block comes without an
    error, [buildTraceBlock] returns one wrapper for each transaction, in
    the order of the block, and no error; for a block without transactions
    that is the empty list. The two block endpoints hand this list on when
    the block is found. *)
Theorem block_traces_in_order cfg block results :
  Forall2 (λ tx trace, (buildTraceTransaction (ethTypes.Hash tx) cfg).2
                       = Ok (trace, None))
    (ethTypes.Transactions block) results →
  buildTraceBlock (ethTypes.Transactions block) cfg
  = (traceCalls cfg (ethTypes.Transactions block),
     Ok (Some (mkTraceBlockTransactionResponse <$> results), None))
  ∧ (∀ number blockNumber,
       GetNumericBlockNumber number = (blockNumber, None) →
       GetL2BlockByNumber blockNumber = (Some block, None) →
       TraceBlockByNumber number cfg
       = (CallGetNumericBlockNumber number :: CallGetL2BlockByNumber blockNumber
            :: traceCalls cfg (ethTypes.Transactions block),
          Ok (Some (mkTraceBlockTransactionResponse <$> results), None)))
  ∧ (∀ hash,
       GetL2BlockByHash hash = (Some block, None) →
       TraceBlockByHash hash cfg
       = (CallGetL2BlockByHash hash :: traceCalls cfg (ethTypes.Transactions block),
          Ok (Some (mkTraceBlockTransactionResponse <$> results), None))).
Proof.
  intros Hall.
  assert (buildTraceBlock (ethTypes.Transactions block) cfg
          = (traceCalls cfg (ethTypes.Transactions block),
             Ok (Some (mkTraceBlockTransactionResponse <$> results), None))) as Hblock.
  { unfold buildTraceBlock. by rewrite (buildTraceBlock_loop_all _ _ _ Hall). }
  split; [done|]. split.
  - intros number blockNumber Hnum Hlookup.
    unfold TraceBlockByNumber, NewDbTxScope.
    rewrite Hnum. cbn. rewrite Hlookup. cbn. rewrite Hblock. cbn.
    by rewrite app_nil_r.
  - intros hash Hlookup.
    unfold TraceBlockByHash, NewDbTxScope.
    rewrite Hlookup. cbn. rewrite Hblock. cbn. by rewrite app_nil_r.
Qed.

(** X15. [buildTraceBlock] stops at the first transaction whose trace
    comes with an error: it has then asked the state what the traces of
    the transactions up to and including that one ask, and nothing for the
    transactions behind it; the traces built so far are not returned. *)
Theorem block_trace_stops_at_failure cfg before tx after e :
  Forall (λ tx', ∃ trace, (buildTraceTransaction (ethTypes.Hash tx') cfg).2
                          = Ok (trace, None)) before →
  (∃ trace, (buildTraceTransaction (ethTypes.Hash tx) cfg).2 = Ok (trace, Some e)) →
  buildTraceBlock (before ++ tx :: after) cfg
  = (traceCalls cfg (before ++ [tx]), Ok (None, Some (blockTraceError tx))).
Proof. intros Hbefore Htx. by apply buildTraceBlock_loop_failure with e. Qed.

(** X16. A block that the state reports as not found, by the not-found
    error itself or by an error that wraps it, is answered with no result
    and the message "block #N not found", N the resolved number, or "block
    0x.. not found" with the hash; no trace is asked for. *)
Theorem block_not_found cfg :
  (∀ number blockNumber block err,
     GetNumericBlockNumber number = (blockNumber, None) →
     GetL2BlockByNumber blockNumber = (block, Some err) →
     unwrapsToNotFound err = true →
     TraceBlockByNumber number cfg
     = ([CallGetNumericBlockNumber number; CallGetL2BlockByNumber blockNumber],
        Ok (None, Some (types.NewRPCError types.DefaultErrorCode
                          ("block #" +:+ pretty blockNumber +:+ " not found")))))
  ∧ (∀ hash block err,
       GetL2BlockByHash hash = (block, Some err) →
       unwrapsToNotFound err = true →
       TraceBlockByHash hash cfg
       = ([CallGetL2BlockByHash hash],
          Ok (None, Some (types.NewRPCError types.DefaultErrorCode
                            ("block " +:+ common.String hash +:+ " not found"))))).
Proof.
  split.
  - intros number blockNumber block err Hnum Hlookup Hnf.
    unfold TraceBlockByNumber, NewDbTxScope.
    rewrite Hnum. cbn. rewrite Hlookup. cbn. by rewrite Hnf.
  - intros hash block err Hlookup Hnf.
    unfold TraceBlockByHash, NewDbTxScope.
    rewrite Hlookup. cbn. by rewrite Hnf.
Qed.

Lemma isErrNotFound_is err : isErrNotFound err = true → errors_Is_ErrNotFound err = true.
Proof. by destruct err as [[]|]. Qed.

Lemma buildTraceBlock_error cfg txs sent traces e :
  buildTraceBlock txs cfg = (sent, Ok (traces, Some e)) →
  ∃ tx, tx ∈ txs ∧ e = blockTraceError tx.
Proof.
  intros Hrun. apply buildTraceBlock_loop_shape in Hrun as [(all & Hout & _)|(tx & Hin & Hout)].
  - done.
  - exists tx. split; [done|]. congruence.
Qed.

(** X17. The block endpoints never answer "failed to get block by hash" or
    "failed to get block by number": the branch that would is only taken
    for the not-found error, which the branch before it has caught. An
    error in the answer by hash is the not-found message or the error of a
    transaction of the block; by number it may also be the error of the
    number resolver. *)
Theorem block_lookup_failure_unreported cfg :
  (∀ hash,
     match TraceBlockByHash hash cfg with
     | (_, Ok (_, Some e)) =>
         types.message e ≠ "failed to get block by hash"
         ∧ (e = types.NewRPCError types.DefaultErrorCode
                  ("block " +:+ common.String hash +:+ " not found")
            ∨ ∃ block tx, (GetL2BlockByHash hash).1 = Some block
                          ∧ tx ∈ ethTypes.Transactions block
                          ∧ e = blockTraceError tx)
     | _ => True
     end)
  ∧ (∀ number,
       match GetNumericBlockNumber number, TraceBlockByNumber number cfg with
       | (blockNumber, None), (_, Ok (_, Some e)) =>
           types.message e ≠ "failed to get block by number"
           ∧ (e = types.NewRPCError types.DefaultErrorCode
                    ("block #" +:+ pretty blockNumber +:+ " not found")
              ∨ ∃ block tx, (GetL2BlockByNumber blockNumber).1 = Some block
                            ∧ tx ∈ ethTypes.Transactions block
                            ∧ e = blockTraceError tx)
       | (_, Some rpcErr), (_, Ok out) => out = (None, Some rpcErr)
       | _, _ => True
       end).
Proof.
  split.
  - intros hash. unfold TraceBlockByHash, NewDbTxScope.
    destruct (GetL2BlockByHash hash) as [block err] eqn:Hlookup. cbn.
    destruct (errors_Is_ErrNotFound err) eqn:Hnf; cbn.
    { split; [apply block_message_differs|by left]. }
    destruct (isErrNotFound err) eqn:Hsame.
    { apply isErrNotFound_is in Hsame. congruence. }
    destruct block as [block|]; cbn; [|done].
    destruct (buildTraceBlock (ethTypes.Transactions block) cfg)
      as [sent [[traces rpcErr]|p]] eqn:Hblock; [|done].
    case_bool_decide; cbn; [|done].
    destruct rpcErr as [e|]; [|done].
    apply buildTraceBlock_error in Hblock as (tx & Hin & ->).
    split; [apply block_message_differs|]. right. by exists block, tx.
  - intros number. unfold TraceBlockByNumber, NewDbTxScope.
    destruct (GetNumericBlockNumber number) as [blockNumber [rpcErr|]] eqn:Hnum; cbn.
    { done. }
    destruct (GetL2BlockByNumber blockNumber) as [block err] eqn:Hlookup. cbn.
    destruct (errors_Is_ErrNotFound err) eqn:Hnf; cbn.
    { split; [apply block_message_differs|by left]. }
    destruct (isErrNotFound err) eqn:Hsame.
    { apply isErrNotFound_is in Hsame. congruence. }
    destruct block as [block|]; cbn; [|done].
    destruct (buildTraceBlock (ethTypes.Transactions block) cfg)
      as [sent [[traces rpcErr]|p]] eqn:Hblock; [|done].
    case_bool_decide; cbn; [|done].
    destruct rpcErr as [e|]; [|done].
    apply buildTraceBlock_error in Hblock as (tx & Hin & ->).
    split; [apply block_message_differs|]. right. by exists block, tx.
Qed.
End BlockTraces.

Lemma quietState_traces b :
  (@buildTraceTransaction tightRuntime quietState (ethTypes.Hash (sampleTx b)) None).2
  = Ok (quietTrace, None).
Proof. reflexivity. Qed.

Lemma block_traces_in_order_witness :
  (@buildTraceBlock tightRuntime quietState [sampleTx Byte.x01; sampleTx Byte.x03] None).2
  = Ok (Some [{| tb_Result := quietTrace |}; {| tb_Result := quietTrace |}], None)
  ∧ (@TraceBlockByNumber tightRuntime quietState 7%Z None).2
    = Ok (Some [{| tb_Result := quietTrace |}; {| tb_Result := quietTrace |}], None)
  ∧ (@TraceBlockByHash tightRuntime quietState (sampleHash Byte.xff) None).2
    = Ok (Some [{| tb_Result := quietTrace |}; {| tb_Result := quietTrace |}], None).
Proof.
  destruct (@block_traces_in_order tightRuntime quietState None
              {| ethTypes.Transactions := [sampleTx Byte.x01; sampleTx Byte.x03] |}
              [quietTrace; quietTrace])
    as (Hblock & Hnumber & Hhash).
  - repeat constructor; apply quietState_traces.
  - split; [exact (f_equal snd Hblock)|]. split.
    + exact (f_equal snd (Hnumber 7%Z 7%N eq_refl eq_refl)).
    + exact (f_equal snd (Hhash (sampleHash Byte.xff) eq_refl)).
Defined.

Lemma block_trace_stops_at_failure_witness :
  @buildTraceBlock tightRuntime sampleState
    ([sampleTx Byte.x01] ++ sampleTx Byte.x02 :: [sampleTx Byte.x03]) None
  = (@traceCalls tightRuntime sampleState None ([sampleTx Byte.x01] ++ [sampleTx Byte.x02]),
     Ok (None, Some (blockTraceError (sampleTx Byte.x02))))
  ∧ @traceCalls tightRuntime sampleState None ([sampleTx Byte.x01] ++ [sampleTx Byte.x02])
    = [CallDebugTransaction (sampleHash Byte.x01) (stateConfigOf defaultTraceConfig);
       CallGetTransactionReceipt (sampleHash Byte.x01);
       CallDebugTransaction (sampleHash Byte.x02) (stateConfigOf defaultTraceConfig)].
Proof.
  split; [|vm_compute; reflexivity].
  apply (@block_trace_stops_at_failure tightRuntime sampleState None
           [sampleTx Byte.x01] (sampleTx Byte.x02) [sampleTx Byte.x03]
           (types.NewRPCError types.DefaultErrorCode "transaction not found")).
  - constructor; [|constructor]. eexists. vm_compute. reflexivity.
  - eexists. vm_compute. reflexivity.
Defined.

Lemma block_not_found_witness :
  @TraceBlockByNumber tightRuntime tracerState 7%Z None
  = ([CallGetNumericBlockNumber 7%Z; CallGetL2BlockByNumber 7],
     Ok (None, Some (types.NewRPCError types.DefaultErrorCode "block #7 not found")))
  ∧ @TraceBlockByHash tightRuntime tracerState (sampleHash Byte.xff) None
    = ([CallGetL2BlockByHash (sampleHash Byte.xff)],
       Ok (None, Some (types.NewRPCError types.DefaultErrorCode
                         ("block " +:+ common.String (sampleHash Byte.xff)
                          +:+ " not found")))).
Proof.
  destruct (@block_not_found tightRuntime tracerState None) as [Hnumber Hhash].
  split.
  - apply (Hnumber 7%Z 7%N None (ErrorWrap "state" ErrNotFound)); reflexivity.
  - apply (Hhash (sampleHash Byte.xff) None (ErrorWrap "state" ErrNotFound)); reflexivity.
Defined.

(** * Further properties of the batch endpoint *)

(** ** The receipts *)

Section ReceiptFacts.
Context `{StateInterface}.

Lemma loadReceipts_all batchNumber txs receipts :
  Forall2 (λ tx receipt,
             GetTransactionReceipt (ethTypes.Hash tx) = (Some receipt, None))
    txs receipts →
  ∀ loaded,
    loadReceipts batchNumber txs loaded
    = (receiptCalls txs, Ok (Gather batchNumber (loaded ++ receipts))).
Proof.
  induction 1 as [|tx receipt txs receipts Htx _ IH]; intros loaded.
  - cbn. by rewrite app_nil_r.
  - cbn [loadReceipts]. rewrite Htx. cbn. rewrite IH. cbn.
    by rewrite <- app_assoc.
Qed.

Lemma loadReceipts_failure batchNumber before tx after receipt err :
  Forall (λ tx', ∃ receipt',
            GetTransactionReceipt (ethTypes.Hash tx') = (Some receipt', None))
    before →
  GetTransactionReceipt (ethTypes.Hash tx) = (receipt, Some err) →
  ∀ loaded,
    loadReceipts batchNumber (before ++ tx :: after) loaded
    = (receiptCalls (before ++ [tx]), Ok (EarlyReturn (None, Some (receiptError tx)))).
Proof.
  intros Hbefore Htx.
  induction Hbefore as [|tx' before (receipt' & Htx') _ IH]; intros loaded.
  - cbn [app loadReceipts]. rewrite Htx. reflexivity.
  - cbn [app loadReceipts]. rewrite Htx'. cbn. rewrite IH. reflexivity.
Qed.

Lemma prepare_found number batchNumber batch txs err :
  GetNumericBatchNumber number = (batchNumber, None) →
  GetBatchByNumber batchNumber = (Some batch, None) →
  GetTransactionsByBatchNumber (state.BatchNumber batch) = (txs, err) →
  err = None ∨ errors_Is_ErrNotFound err = true →
  TraceBatchByNumber_prepare number
  = (batchLookupCalls number batchNumber batch ++ (loadReceipts batchNumber txs []).1,
     (loadReceipts batchNumber txs []).2).
Proof.
  intros Hnum Hbatch Htxs Herr. unfold TraceBatchByNumber_prepare.
  rewrite Hnum. cbn. rewrite Hbatch. cbn. rewrite Htxs. cbn.
  assert (negb (errors_Is_ErrNotFound err) && bool_decide (err ≠ None) = false) as ->.
  { destruct Herr as [->| ->]; [done|done]. }
  by destruct (loadReceipts batchNumber txs []).
Qed.

(** X18. When the batch is found, its transactions are listed (a not-found
    error that comes with the list is ignored) and the receipt of every
    transaction loads, the endpoint has asked the state for the number,
    the batch, the transactions of the batch's own number and one receipt
    for each transaction, in order, and goes on to gather the traces for
    these receipts, in the order of the list. *)
Theorem batch_receipts_loaded number batchNumber batch txs err receipts :
  GetNumericBatchNumber number = (batchNumber, None) →
  GetBatchByNumber batchNumber = (Some batch, None) →
  GetTransactionsByBatchNumber (state.BatchNumber batch) = (txs, err) →
  err = None ∨ errors_Is_ErrNotFound err = true →
  Forall2 (λ tx receipt,
             GetTransactionReceipt (ethTypes.Hash tx) = (Some receipt, None))
    txs receipts →
  TraceBatchByNumber_prepare number
  = (batchLookupCalls number batchNumber batch ++ receiptCalls txs,
     Ok (Gather batchNumber receipts)).
Proof.
  intros Hnum Hbatch Htxs Herr Hall.
  rewrite (prepare_found _ _ _ _ _ Hnum Hbatch Htxs Herr).
  by rewrite (loadReceipts_all _ _ _ Hall).
Qed.
End ReceiptFacts.

Section EarlyReturnFacts.
Context `{StateInterface} `{RemoteClient} `{NetURL}.

Lemma early_return_final httpRequest number cfg sent0 answer :
  TraceBatchByNumber_prepare number = (sent0, Ok (EarlyReturn answer)) →
  TraceBatchByNumber httpRequest number cfg sent0 (Ok answer)
  ∧ ∀ sent out, TraceBatchByNumber httpRequest number cfg sent out →
      sent = sent0 ∧ out = Ok answer.
Proof.
  intros Hprep. split; [by apply batch_early|].
  intros sent out Hret.
  inversion Hret as [? ? Hp|? ? Hp|? bn rs now s ? Hp Hrun Hmain]; subst;
    rewrite Hprep in Hp; by simplify_eq.
Qed.

(** X19. When the receipt of a transaction of the batch does not load, the
    endpoint returns no result and the error "couldn't load receipt for tx
    0x.. to get trace" for the first such transaction. It has then asked
    for the receipts up to that one only, and it sends no remote call at
    all, whichever receipts did load. *)
Theorem receipt_failure_aborts_batch httpRequest number cfg batchNumber batch
    before tx after listErr receipt err :
  GetNumericBatchNumber number = (batchNumber, None) →
  GetBatchByNumber batchNumber = (Some batch, None) →
  GetTransactionsByBatchNumber (state.BatchNumber batch)
  = (before ++ tx :: after, listErr) →
  listErr = None ∨ errors_Is_ErrNotFound listErr = true →
  Forall (λ tx', ∃ receipt',
            GetTransactionReceipt (ethTypes.Hash tx') = (Some receipt', None))
    before →
  GetTransactionReceipt (ethTypes.Hash tx) = (receipt, Some err) →
  let sent0 := batchLookupCalls number batchNumber batch
               ++ receiptCalls (before ++ [tx]) in
  TraceBatchByNumber httpRequest number cfg sent0 (Ok (None, Some (receiptError tx)))
  ∧ ∀ sent out, TraceBatchByNumber httpRequest number cfg sent out →
      sent = sent0 ∧ out = Ok (None, Some (receiptError tx)).
Proof.
  intros Hnum Hbatch Htxs Herr Hbefore Htx sent0.
  apply early_return_final.
  rewrite (prepare_found _ _ _ _ _ Hnum Hbatch Htxs Herr).
  by rewrite (loadReceipts_failure _ _ _ _ _ _ Hbefore Htx).
Qed.
End EarlyReturnFacts.

Section LookupFacts.
Context `{StateInterface} `{RemoteClient} `{NetURL}.

(** X20. A batch that the state reports as not found, by the not-found
    error itself or by an error that wraps it, is answered with no result
    and "batch #N not found", N the resolved number. When the batch is
    found and the list of its transactions comes with an error that is
    not a not-found error, the answer is no result and "couldn't load
    batch txs from state by number N to create the traces". In both cases
    no receipt is asked for and no remote call is sent. *)
Theorem batch_lookup_errors httpRequest number cfg batchNumber :
  GetNumericBatchNumber number = (batchNumber, None) →
  (∀ batch err,
     GetBatchByNumber batchNumber = (batch, Some err) →
     unwrapsToNotFound err = true →
     let sent0 := [CallGetNumericBatchNumber number; CallGetBatchByNumber batchNumber] in
     let answer := (None, Some (types.NewRPCError types.DefaultErrorCode
                                  ("batch #" +:+ pretty batchNumber +:+ " not found"))) in
     TraceBatchByNumber httpRequest number cfg sent0 (Ok answer)
     ∧ ∀ sent out, TraceBatchByNumber httpRequest number cfg sent out →
         sent = sent0 ∧ out = Ok answer)
  ∧ (∀ batch txs err,
       GetBatchByNumber batchNumber = (Some batch, None) →
       GetTransactionsByBatchNumber (state.BatchNumber batch) = (txs, Some err) →
       unwrapsToNotFound err = false →
       let sent0 := batchLookupCalls number batchNumber batch in
       let answer := (None, Some (types.NewRPCError types.DefaultErrorCode
                                    ("couldn't load batch txs from state by number "
                                     +:+ pretty batchNumber
                                     +:+ " to create the traces"))) in
       TraceBatchByNumber httpRequest number cfg sent0 (Ok answer)
       ∧ ∀ sent out, TraceBatchByNumber httpRequest number cfg sent out →
           sent = sent0 ∧ out = Ok answer).
Proof.
  intros Hnum. split.
  - intros batch err Hbatch Hnf sent0 answer.
    apply early_return_final.
    unfold TraceBatchByNumber_prepare. rewrite Hnum. cbn. rewrite Hbatch. cbn.
    by rewrite Hnf.
  - intros batch txs err Hbatch Htxs Hnf sent0 answer.
    apply early_return_final.
    unfold TraceBatchByNumber_prepare. rewrite Hnum. cbn. rewrite Hbatch. cbn.
    rewrite Htxs. cbn. by rewrite Hnf.
Qed.
End LookupFacts.

Lemma batch_lookup_errors_witness :
  @TraceBatchByNumber tracerState sampleRemote sampleNetURL sampleRequest 9%Z None
    [CallGetNumericBatchNumber 9%Z; CallGetBatchByNumber 9]
    (Ok (None, Some (types.NewRPCError types.DefaultErrorCode "batch #9 not found")))
  ∧ @TraceBatchByNumber tracerState sampleRemote sampleNetURL sampleRequest 8%Z None
      [CallGetNumericBatchNumber 8%Z; CallGetBatchByNumber 8;
       CallGetTransactionsByBatchNumber 8]
      (Ok (None, Some (types.NewRPCError types.DefaultErrorCode
                         "couldn't load batch txs from state by number 8 to create the traces"))).
Proof.
  split.
  - apply (proj1 (@batch_lookup_errors tracerState sampleRemote sampleNetURL
                    sampleRequest 9%Z None 9%N eq_refl) None ErrNotFound);
      reflexivity.
  - apply (proj2 (@batch_lookup_errors tracerState sampleRemote sampleNetURL
                    sampleRequest 8%Z None 8%N eq_refl)
             {| state.BatchNumber := 8 |} [] (ErrorString "connection lost"));
      reflexivity.
Defined.

Lemma batch_receipts_loaded_witness :
  @TraceBatchByNumber_prepare quietState 3%Z
  = ([CallGetNumericBatchNumber 3%Z; CallGetBatchByNumber 3;
      CallGetTransactionsByBatchNumber 3;
      CallGetTransactionReceipt (sampleHash Byte.x01);
      CallGetTransactionReceipt (sampleHash Byte.x03)],
     Ok (Gather 3 [sampleReceipt Byte.x01; sampleReceipt Byte.x03]))
  ∧ @TraceBatchByNumber_prepare tracerState 7%Z
    = ([CallGetNumericBatchNumber 7%Z; CallGetBatchByNumber 7;
        CallGetTransactionsByBatchNumber 7],
       Ok (Gather 7 [])).
Proof.
  split.
  - apply (@batch_receipts_loaded quietState 3%Z 3%N {| state.BatchNumber := 3 |}
             [sampleTx Byte.x01; sampleTx Byte.x03] None
             [sampleReceipt Byte.x01; sampleReceipt Byte.x03]).
    + reflexivity.
    + reflexivity.
    + reflexivity.
    + by left.
    + repeat constructor.
  - apply (@batch_receipts_loaded tracerState 7%Z 7%N {| state.BatchNumber := 7 |}
             [] (Some (ErrorWrap "state" ErrNotFound)) []).
    + reflexivity.
    + reflexivity.
    + reflexivity.
    + by right.
    + constructor.
Defined.

Lemma receipt_failure_aborts_batch_witness :
  @TraceBatchByNumber tracerState sampleRemote sampleNetURL sampleRequest 3%Z None
    [CallGetNumericBatchNumber 3%Z; CallGetBatchByNumber 3;
     CallGetTransactionsByBatchNumber 3;
     CallGetTransactionReceipt (sampleHash Byte.x01);
     CallGetTransactionReceipt (sampleHash Byte.x03)]
    (Ok (None, Some (receiptError (sampleTx Byte.x03)))).
Proof.
  apply (@receipt_failure_aborts_batch tracerState sampleRemote sampleNetURL
           sampleRequest 3%Z None 3%N {| state.BatchNumber := 3 |}
           [sampleTx Byte.x01] (sampleTx Byte.x03) [sampleTx Byte.x05]
           None None (ErrorString "timeout")).
  - reflexivity.
  - reflexivity.
  - reflexivity.
  - by left.
  - constructor; [|constructor]. eexists. vm_compute. reflexivity.
  - vm_compute. reflexivity.
Defined.

(** ** The goroutines *)

Section AccountFacts.
Context `{RemoteClient}.
Variable rpcURL : string.
Variable cfg : option traceConfig.
Variable batchNumber : N.

Lemma loadTraceByTxHash_call receipt :
  taskCall rpcURL cfg (loadTraceByTxHash rpcURL cfg receipt) = [].
Proof. rewrite loadTraceByTxHash_tracePair. by destruct (tracePair _ _ _). Qed.

Lemma accounted_start receipts now :
  accounted rpcURL cfg batchNumber receipts (batchStart receipts now).
Proof. split; [|done]. unfold pendingCalls. cbn. done. Qed.

Lemma accounted_step capacity receipts s s' :
  accounted rpcURL cfg batchNumber receipts s →
  step rpcURL cfg batchNumber capacity s s' →
  accounted rpcURL cfg batchNumber receipts s'.
Proof.
  intros [Hcalls Hret] Hstep. unfold pendingCalls in Hcalls.
  destruct Hstep as
    [s d | s receipt todo Hmain Hroom | s Hmain | s req queue Hreq
    | s before receipt after Htasks | s before resp after Htasks Hroom
    | s before after Htasks Hpos | s timer timedOut Hmain Hwait];
    split; unfold pendingCalls; cbn; try done.
  - (* enqueue *) rewrite Hmain in Hcalls. cbn in Hcalls. by rewrite <- app_assoc.
  - (* wait *) rewrite Hmain in Hcalls. done.
  - (* dispatch *) rewrite Hreq in Hcalls. rewrite <- Hcalls, bind_app. cbn.
    by rewrite <- !app_assoc.
  - (* call *) rewrite <- Hcalls, Htasks. rewrite !bind_app, !bind_cons.
    rewrite loadTraceByTxHash_call. cbn [taskCall app].
    rewrite <- !app_assoc. f_equiv. cbn [app].
    rewrite (app_assoc (before ≫= _)). rewrite <- Permutation_middle.
    by rewrite <- !app_assoc.
  - (* send *) rewrite <- Hcalls, Htasks. by rewrite !bind_app, !bind_cons.
  - (* done *) rewrite <- Hcalls, Htasks. by rewrite !bind_app, !bind_cons.
  - intros out Hout. apply Hret in Hout as [?|?]; [by left|right; lia].
  - (* return *) rewrite Hmain in Hcalls. done.
  - intros out [= <-]. destruct Hwait as [Hzero|timer' _ _]; [by right|by left].
Qed.

Lemma accounted_reachable receipts now s :
  rtc (step rpcURL cfg batchNumber (length receipts)) (batchStart receipts now) s →
  accounted rpcURL cfg batchNumber receipts s.
Proof.
  revert s. apply rtc_ind_r; [apply accounted_start|].
  intros s s' _ Hstep IH. by eapply accounted_step.
Qed.

(** X21. In every state the goroutines can reach, what [responses] holds
    together with what the running tasks will still send is at most one
    entry for each receipt, so a task never waits for room in the channel;
    and the counter of the wait group is the number of receipts not yet
    dispatched plus the number of running tasks, so no [wg.Done] finds it
    at zero. *)
Theorem send_finds_room receipts now s :
  rtc (step rpcURL cfg batchNumber (length receipts)) (batchStart receipts now) s →
  length (responses s) + length (tasks s ≫= taskYield rpcURL cfg) ≤ length receipts
  ∧ wg s = length (notEnqueued (main s)) + length (requests s) + length (tasks s).
Proof.
  intros Hrun. apply (gathering_reachable _ _ batchNumber) in Hrun.
  split; [|by apply (g_wg _ _ _ _ _ _ Hrun)].
  pose proof (g_pairs _ _ _ _ _ _ Hrun) as Hpairs.
  apply Permutation_length in Hpairs. rewrite !length_app in Hpairs.
  pose proof (omap_length_le (tracePair rpcURL cfg) receipts). lia.
Qed.

(** All receipts can be dispatched before any task makes a move. *)
Lemma run_all_dispatched capacity clk todo :
  ∀ running collected counter sent,
    rtc (step rpcURL cfg batchNumber capacity)
      (mkBatchState (Enqueueing todo) [] running collected counter clk sent)
      (mkBatchState (Enqueueing []) [] (running ++ map Calling todo)
         collected counter clk sent).
Proof.
  induction todo as [|receipt todo IH]; intros running collected counter sent.
  - cbn. by rewrite app_nil_r.
  - eapply rtc_l.
    { eapply (step_enqueue _ _ _ _ _ receipt todo); [done|]. cbn. unfold bufferSize. lia. }
    cbn. eapply rtc_l. { by eapply (step_dispatch _ _ _ _ _ receipt []). }
    cbn.
    replace (running ++ Calling receipt :: map Calling todo)
      with ((running ++ [Calling receipt]) ++ map Calling todo)
      by (by rewrite <- app_assoc).
    apply IH.
Qed.

(** X22. The size of the request queue does not bound the number of calls
    in flight: whatever the number of receipts, the goroutines can reach a
    state in which a task has been started for every receipt and none of
    them has sent its call yet. *)
Theorem calls_not_bounded receipts now :
  ∃ s, rtc (step rpcURL cfg batchNumber (length receipts)) (batchStart receipts now) s
       ∧ tasks s = map Calling receipts
       ∧ requests s = [] ∧ calls s = [] ∧ responses s = []
       ∧ wg s = length receipts.
Proof.
  eexists. split.
  - apply (run_all_dispatched (length receipts) now receipts [] [] (length receipts) []).
  - done.
Qed.

(** The tasks can finish one after the other, the last one first. *)
Lemma run_tasks_backwards capacity clk state0 running :
  ∀ collected counter sent,
    length collected + length running ≤ capacity →
    length running ≤ counter →
    rtc (step rpcURL cfg batchNumber capacity)
      (mkBatchState state0 [] (map Calling running) collected counter clk sent)
      (mkBatchState state0 [] []
         (collected ++ omap (tracePair rpcURL cfg) (rev running))
         (counter - length running) clk
         (sent ++ map (callOf rpcURL cfg) (rev running))).
Proof.
  induction running as [|receipt running IH] using rev_ind;
    intros collected counter sent Hcap Hwg.
  - cbn. rewrite !app_nil_r, Nat.sub_0_r. done.
  - rewrite length_app in *. cbn [length] in *.
    rewrite rev_unit, omap_cons_tracePair, map_app. cbn [map].
    eapply rtc_l.
    { by eapply (step_call _ _ _ _ _ (map Calling running) receipt []). }
    cbn. rewrite loadTraceByTxHash_tracePair.
    replace (counter - (length running + 1)) with (counter - 1 - length running) by lia.
    replace (sent ++ callOf rpcURL cfg receipt :: map (callOf rpcURL cfg) (rev running))
      with ((sent ++ [callOf rpcURL cfg receipt]) ++ map (callOf rpcURL cfg) (rev running))
      by (by rewrite <- app_assoc).
    destruct (tracePair rpcURL cfg receipt) as [resp|]; cbn [option_list].
    + eapply rtc_l.
      { eapply (step_send _ _ _ _ _ (map Calling running) resp []); [done|]. cbn. lia. }
      cbn. eapply rtc_l.
      { eapply (step_done _ _ _ _ _ (map Calling running) []); [done|]. cbn. lia. }
      cbn. rewrite app_nil_r.
      replace (collected ++ resp :: omap (tracePair rpcURL cfg) (rev running))
        with ((collected ++ [resp]) ++ omap (tracePair rpcURL cfg) (rev running))
        by (by rewrite <- app_assoc).
      apply IH; [rewrite length_app; cbn; lia|lia].
    + eapply rtc_l.
      { eapply (step_done _ _ _ _ _ (map Calling running) []); [done|]. cbn. lia. }
      cbn. rewrite app_nil_r. apply IH; lia.
Qed.

Lemma run_backwards receipts now :
  ∃ s, rtc (step rpcURL cfg batchNumber (length receipts)) (batchStart receipts now) s
       ∧ main s = Returned (Some (omap (tracePair rpcURL cfg) (rev receipts)), None).
Proof.
  eexists. split.
  - etrans.
    { apply (run_all_dispatched (length receipts) now receipts [] [] (length receipts) []). }
    cbn [app]. etrans.
    { apply (run_tasks_backwards (length receipts) now (Enqueueing []) receipts
               [] (length receipts) []); cbn; lia. }
    cbn [app]. rewrite Nat.sub_diag.
    eapply rtc_l. { by apply step_wait. }
    cbn. eapply rtc_l; [|apply rtc_refl].
    eapply (step_return _ _ _ _ _ _ false); [done|]. by apply wait_completed.
  - done.
Qed.



End AccountFacts.

(** ** The answers of the batch endpoint *)

Section AnswerFacts.
Context `{StateInterface} `{RemoteClient} `{NetURL}.

(** X24. Once the receipts are loaded, the remote calls the endpoint has
    sent are calls for transactions of the batch, at most one for each;
    when it returns the list of traces it has sent exactly one call for
    every transaction. *)
Theorem each_transaction_called_once httpRequest number cfg sent0 batchNumber
    receipts sent out :
  TraceBatchByNumber_prepare number = (sent0, Ok (Gather batchNumber receipts)) →
  TraceBatchByNumber httpRequest number cfg sent (Ok out) →
  ∃ remote,
    sent = sent0 ++ remote
    ∧ remote ⊆+ map (callOf (rpcURL httpRequest) cfg) receipts
    ∧ (out ≠ timeoutAnswer batchNumber →
       remote ≡ₚ map (callOf (rpcURL httpRequest) cfg) receipts).
Proof.
  intros Hprep Hret.
  inversion Hret as [? ? Hp|? ? Hp|? bn rs now s ? Hp Hrun Hmain];
    subst; rewrite Hprep in Hp; try done.
  injection Hp as <- <- <-.
  pose proof (accounted_reachable _ _ batchNumber _ _ _ Hrun) as [Hcalls Hreturned].
  pose proof (gathering_reachable _ _ batchNumber _ _ _ Hrun) as Hg.
  exists (calls s). split; [done|]. split.
  - rewrite <- Hcalls. by apply submseteq_inserts_r.
  - intros Hout. destruct (Hreturned _ Hmain) as [?|Hzero]; [done|].
    rewrite (g_wg _ _ _ _ _ _ Hg) in Hzero.
    rewrite <- Hcalls. unfold pendingCalls.
    assert (requests s = []) as -> by (apply length_zero_iff_nil; lia).
    assert (tasks s = []) as -> by (apply length_zero_iff_nil; lia).
    rewrite Hmain. cbn. by rewrite app_nil_r.
Qed.

(** X25. For a batch without transactions the endpoint sends no remote
    call, and what it returns is the empty list with no error, unless the
    wait times out. *)
Theorem empty_batch_answer httpRequest number cfg sent0 batchNumber :
  TraceBatchByNumber_prepare number = (sent0, Ok (Gather batchNumber [])) →
  TraceBatchByNumber httpRequest number cfg sent0 (Ok (Some [], None))
  ∧ ∀ sent out,
      TraceBatchByNumber httpRequest number cfg sent out →
      sent = sent0
      ∧ (out = Ok (Some [], None) ∨ out = Ok (timeoutAnswer batchNumber)).
Proof.
  intros Hprep. split.
  - pose proof (batch_can_complete httpRequest number cfg sent0 batchNumber [] Hprep)
      as Hdone.
    cbn in Hdone. by rewrite app_nil_r in Hdone.
  - intros sent out Hret.
    inversion Hret as [? ? Hp|? ? Hp|? bn rs now s ? Hp Hrun Hmain];
      subst; rewrite Hprep in Hp; try done.
    injection Hp as <- <- <-.
    pose proof (accounted_reachable _ _ batchNumber _ _ _ Hrun) as [Hcalls _].
    pose proof (gathering_reachable _ _ batchNumber _ _ _ Hrun) as Hg.
    cbn in Hcalls. apply Permutation_nil_r in Hcalls.
    apply app_eq_nil in Hcalls as [-> _]. split; [by rewrite app_nil_r|].
    destruct (g_returned _ _ _ _ _ _ Hg _ Hmain) as [->|(traces & -> & Hperm)].
    + by right.
    + left. cbn in Hperm. apply Permutation_nil_r in Hperm. by subst.
Qed.

(** X26. The order of the pairs in the answer is the order in which the
    tasks send, not the order of the batch: every batch whose receipts
    load has a run that returns the pairs in the order of the batch and a
    run that returns them in the opposite order. *)
Theorem answer_order_not_fixed httpRequest number cfg sent0 batchNumber receipts :
  TraceBatchByNumber_prepare number = (sent0, Ok (Gather batchNumber receipts)) →
  (∃ sent, TraceBatchByNumber httpRequest number cfg sent
             (Ok (Some (omap (tracePair (rpcURL httpRequest) cfg) receipts), None)))
  ∧ (∃ sent, TraceBatchByNumber httpRequest number cfg sent
               (Ok (Some (omap (tracePair (rpcURL httpRequest) cfg) (rev receipts)),
                    None))).
Proof.
  intros Hprep. split.
  - eexists. by apply batch_can_complete with batchNumber.
  - destruct (run_backwards (rpcURL httpRequest) cfg batchNumber receipts 0%N)
      as (s & Hrun & Hmain).
    eexists. by eapply batch_gathered.
Qed.
End AnswerFacts.

(** ** The batch endpoint at the sample inputs *)

Lemma tracerState_prepare :
  @TraceBatchByNumber_prepare tracerState 7%Z
  = ([CallGetNumericBatchNumber 7%Z; CallGetBatchByNumber 7;
      CallGetTransactionsByBatchNumber 7],
     Ok (Gather 7 [])).
Proof. vm_compute. reflexivity. Qed.

Lemma stateSending_reachable :
  rtc (@step sampleRemote "https://node.example:8545/" None 3 2)
      (batchStart [sampleReceipt Byte.x01; sampleReceipt Byte.x03] 0) stateSending.
Proof.
  eapply rtc_l.
  { by eapply (step_enqueue _ _ _ _ _ (sampleReceipt Byte.x01) [sampleReceipt Byte.x03]);
      [|cbn; unfold bufferSize; lia]. }
  cbn. eapply rtc_l. { by eapply (step_dispatch _ _ _ _ _ (sampleReceipt Byte.x01) []). }
  cbn. eapply rtc_l. { by eapply (step_call _ _ _ _ _ [] (sampleReceipt Byte.x01) []). }
  cbn. apply rtc_refl.
Qed.

Lemma send_finds_room_witness :
  length (responses stateSending)
  + length (tasks stateSending
            ≫= @taskYield sampleRemote "https://node.example:8545/" None) ≤ 2
  ∧ wg stateSending
    = length (notEnqueued (main stateSending)) + length (requests stateSending)
      + length (tasks stateSending).
Proof.
  exact (@send_finds_room sampleRemote "https://node.example:8545/" None 3
           [sampleReceipt Byte.x01; sampleReceipt Byte.x03] 0 stateSending
           stateSending_reachable).
Defined.


Lemma each_transaction_called_once_witness :
  ∃ remote,
    [CallGetNumericBatchNumber 3%Z; CallGetBatchByNumber 3;
     CallGetTransactionsByBatchNumber 3;
     CallGetTransactionReceipt (sampleHash Byte.x01);
     CallGetTransactionReceipt (sampleHash Byte.x02);
     CallGetTransactionReceipt (sampleHash Byte.x03);
     CallGetTransactionReceipt (sampleHash Byte.x04);
     CallGetTransactionReceipt (sampleHash Byte.x05)]
    ++ map (callOf (@rpcURL sampleNetURL sampleRequest) None) sampleReceipts
    = [CallGetNumericBatchNumber 3%Z; CallGetBatchByNumber 3;
       CallGetTransactionsByBatchNumber 3;
       CallGetTransactionReceipt (sampleHash Byte.x01);
       CallGetTransactionReceipt (sampleHash Byte.x02);
       CallGetTransactionReceipt (sampleHash Byte.x03);
       CallGetTransactionReceipt (sampleHash Byte.x04);
       CallGetTransactionReceipt (sampleHash Byte.x05)] ++ remote
    ∧ remote ⊆+ map (callOf (@rpcURL sampleNetURL sampleRequest) None) sampleReceipts
    ∧ remote ≡ₚ map (callOf (@rpcURL sampleNetURL sampleRequest) None) sampleReceipts.
Proof.
  destruct (@each_transaction_called_once sampleState sampleRemote sampleNetURL
              sampleRequest 3%Z None _ 3%N sampleReceipts _ _ sample_prepare
              (@batch_can_complete sampleState sampleRemote sampleNetURL
                 sampleRequest 3%Z None _ 3%N sampleReceipts sample_prepare))
    as (remote & Hsent & Hsub & Hall).
  exists remote. split; [exact Hsent|]. split; [exact Hsub|].
  apply Hall. discriminate.
Defined.

Lemma empty_batch_answer_witness :
  @TraceBatchByNumber tracerState sampleRemote sampleNetURL sampleRequest 7%Z None
    [CallGetNumericBatchNumber 7%Z; CallGetBatchByNumber 7;
     CallGetTransactionsByBatchNumber 7]
    (Ok (Some [], None)).
Proof.
  apply (@empty_batch_answer tracerState sampleRemote sampleNetURL sampleRequest
           7%Z None _ 7%N tracerState_prepare).
Defined.

Lemma answer_order_not_fixed_witness :
  (∃ sent, @TraceBatchByNumber sampleState sampleRemote sampleNetURL sampleRequest
             3%Z None sent
             (Ok (Some [samplePair Byte.x01; samplePair Byte.x03; samplePair Byte.x05],
                  None)))
  ∧ (∃ sent, @TraceBatchByNumber sampleState sampleRemote sampleNetURL sampleRequest
               3%Z None sent
               (Ok (Some [samplePair Byte.x05; samplePair Byte.x03; samplePair Byte.x01],
                    None))).
Proof.
  exact (@answer_order_not_fixed sampleState sampleRemote sampleNetURL sampleRequest
           3%Z None _ 3%N sampleReceipts sample_prepare).
Defined.
